(** * SandBoxedPythonLab: protocol dispatcher, restricted execution engine
      and path-confined file store

    A shallow embedding of [SandBoxedPythonLab.py].  Python values are an
    inductive type, raised exceptions are values of an error monad, the
    file system is a finite map from absolute component lists to nodes, and
    the service loop is a function over the list of lines that standard
    input delivers.  The model follows CPython on a Linux host
    ([PosixPath], [os.linesep] a single line feed, UTF-8 as the file system
    encoding).  A script run by [exec] acts on the file system and on
    standard output besides the buffers it is given, and it can close
    standard output; what it does is taken from the interpreter, a
    parameter of the service.  The input of the loop is what its own calls
    of [readline] deliver, so a line that a script took from standard
    input is not part of it.  Outside the model are scripts that rewrite
    the running program (the globals of the module, the methods of the
    buffers and streams, settings of the interpreter such as its recursion
    limit), scripts that leave a thread or a process running, and scripts
    that never return. *)

From Stdlib Require Import ZArith Ascii String.
From Stdlib.Floats Require Import SpecFloat.
From stdpp Require Import base option list strings gmap fin_maps pretty.

#[local] Set Warnings "-register-all".

Local Open Scope Z_scope.
Local Open Scope string_scope.
Local Open Scope list_scope.

(** ** Characters and strings *)

Definition slash : ascii := "/"%char.
Definition dot : ascii := "."%char.
Definition LF : ascii := "010"%char.
Definition CR : ascii := "013"%char.
Definition NUL : ascii := "000"%char.
Definition nl : string := String LF "".

(** A [str] is kept as the bytes of its UTF-8 encoding.  A lone surrogate,
    which a JSON escape from [\ud800] to [\udfff] delivers, is kept as the
    three bytes [ED A0..BF 80..BF] of its generalised encoding. *)

(** The first two bytes of a surrogate. *)
Definition surrogate_lead (a b : ascii) : bool :=
  (Ascii.eqb a "237"%char && (160 <=? nat_of_ascii b)%nat)%bool.

(** A surrogate occurs in [s]: [s.encode("utf-8")] raises
    [UnicodeEncodeError]. *)
Fixpoint has_surrogate (s : string) : bool :=
  match s with
  | String a (String b _ as tl) => (surrogate_lead a b || has_surrogate tl)%bool
  | _ => false
  end.

(** A NUL byte occurs in [s]. *)
Fixpoint has_NUL (s : string) : bool :=
  match s with
  | "" => false
  | String c s' => (Ascii.eqb c NUL || has_NUL s')%bool
  end.

(** [os.fsencode]: UTF-8 with the [surrogateescape] handler.  The
    surrogates from U+DC80 to U+DCFF stand for the single bytes 80 to FF;
    any other surrogate cannot be encoded. *)
Fixpoint fsencode (s : string) : option string :=
  match s with
  | String a (String b (String c rest) as tl) =>
      if surrogate_lead a b then
        if (nat_of_ascii b =? 178)%nat then String c <$> fsencode rest
        else if (nat_of_ascii b =? 179)%nat
        then String (ascii_of_nat (nat_of_ascii c + 64)) <$> fsencode rest
        else None
      else String a <$> fsencode tl
  | String a tl => String a <$> fsencode tl
  | "" => Some ""
  end.

(** The length in bytes of a file name as the kernel receives it. *)
Definition os_length (s : string) : nat :=
  match fsencode s with Some b => String.length b | None => O end.

(** ** Python values

    The values that [json.loads] produces, plus [PObject] for any other
    Python object (a module, a function, ...), which [json.dumps] rejects.
    A dict is kept as its list of items; [json.loads] yields one item per
    key. *)

Inductive pyval : Type :=
| PNone
| PBool (b : bool)
| PInt (z : Z)
| PFloat (f : spec_float)
| PStr (s : string)
| PList (l : list pyval)
| PDict (d : list (string * pyval))
| PObject (descr : string).

(** [bool(v)] *)
Definition truthy (v : pyval) : bool :=
  match v with
  | PNone => false
  | PBool b => b
  | PInt z => negb (z =? 0)%Z
  | PFloat (S754_zero _) => false
  | PFloat _ => true
  | PStr s => negb (String.eqb s "")
  | PList l => match l with [] => false | _ => true end
  | PDict d => match d with [] => false | _ => true end
  | PObject _ => true
  end.

(** [isinstance(v, str)] *)
Definition is_str (v : pyval) : bool :=
  match v with PStr _ => true | _ => false end.

(** [a or b] *)
Definition py_or (a b : pyval) : pyval := if truthy a then a else b.

(** [json.dumps] accepts a value when no [PObject] occurs in it.  Not
    modelled: a nesting so deep that [json.loads] parses it and
    [json.dumps] does not, the two meeting the recursion limit a few
    levels apart. *)
Fixpoint serialisable (v : pyval) : bool :=
  match v with
  | PObject _ => false
  | PList l => forallb serialisable l
  | PDict d => forallb (fun kv => serialisable (snd kv)) d
  | _ => true
  end.

(** Lookup in the item list of a dict. *)
Fixpoint items_get (k : string) (d : list (string * pyval)) : option pyval :=
  match d with
  | [] => None
  | (k', v) :: d' => if String.eqb k k' then Some v else items_get k d'
  end.

(** ** Exceptions and the error monad *)

(** [Ordinary] faults are instances of [Exception]; [Exiting] ones
    ([SystemExit], [KeyboardInterrupt], [GeneratorExit]) derive from
    [BaseException] only, so an [except Exception] clause lets them pass. *)
Inductive exc_kind := Ordinary | Exiting.

Record exn := mkExn {
  exc_kind_of : exc_kind;
  exc_type : string;      (* class name *)
  exc_str : string;       (* str(e) *)
  exc_frames : string     (* the stack-frame lines of its traceback *)
}.

Definition ordinary (ty msg : string) : exn := mkExn Ordinary ty msg "".

Definition is_Exception (e : exn) : bool :=
  match exc_kind_of e with Ordinary => true | Exiting => false end.

(** [traceback.format_exc()] for the exception being handled. *)
Definition format_exc (e : exn) : string :=
  "Traceback (most recent call last):" +:+ nl +:+ exc_frames e +:+
  (if String.eqb (exc_str e) "" then exc_type e
   else exc_type e +:+ ": " +:+ exc_str e) +:+ nl.

Inductive result (A : Type) : Type :=
| Return (a : A)
| Raise (e : exn).
Arguments Return {A} a.
Arguments Raise {A} e.

Definition result_bind {A B} (f : A -> result B) (m : result A) : result B :=
  match m with Return a => f a | Raise e => Raise e end.

#[global] Instance result_mbind : MBind result := @result_bind.
#[global] Instance result_mret : MRet result := @Return.

(** [v.get(k)]: an [AttributeError] when [v] is not a dict. *)
Definition attribute_error (what attr : string) : exn :=
  ordinary "AttributeError"
    ("'" +:+ what +:+ "' object has no attribute '" +:+ attr +:+ "'").

Definition type_name (v : pyval) : string :=
  match v with
  | PNone => "NoneType" | PBool _ => "bool" | PInt _ => "int"
  | PFloat _ => "float" | PStr _ => "str" | PList _ => "list"
  | PDict _ => "dict" | PObject d => d
  end.

Definition py_get (v : pyval) (k : string) : result (option pyval) :=
  match v with
  | PDict d => Return (items_get k d)
  | _ => Raise (attribute_error (type_name v) "get")
  end.

(** [v.get(k, dflt)] *)
Definition py_get_default (v : pyval) (k : string) (dflt : pyval) : result pyval :=
  o ← py_get v k; mret (default dflt o).

(** [v.get(k)], with [None] for a missing key *)
Definition py_get_none (v : pyval) (k : string) : result pyval :=
  py_get_default v k PNone.

(** ** [str.replace("..", "")]

    CPython scans left to right and removes non-overlapping occurrences. *)
Fixpoint remove_dotdot (s : string) : string :=
  match s with
  | String a (String b rest as tl) =>
      if (Ascii.eqb a dot && Ascii.eqb b dot)%bool then remove_dotdot rest
      else String a (remove_dotdot tl)
  | _ => s
  end.

(** [".."] occurs in [s]. *)
Fixpoint has_dotdot (s : string) : bool :=
  match s with
  | String a (String b _ as tl) =>
      ((Ascii.eqb a dot && Ascii.eqb b dot) || has_dotdot tl)%bool
  | _ => false
  end.

Definition starts_with (c : ascii) (s : string) : bool :=
  match s with String a _ => Ascii.eqb a c | "" => false end.

(** ** pathlib: pure paths *)

(** A [PurePosixPath]: its root ([""], ["/"] or ["//"]) and its
    components below the root. *)
Record Path := mkPath { anchor : string; parts : list string }.

#[global] Instance Path_eq_dec : EqDecision Path.
Proof. solve_decision. Defined.

(** [s.split("/")] *)
Fixpoint split_slash (s : string) : list string :=
  match s with
  | "" => [""]
  | String c s' =>
      if Ascii.eqb c slash then "" :: split_slash s'
      else match split_slash s' with
           | [] => [String c ""]
           | w :: ws => String c w :: ws
           end
  end.

Definition is_component (w : string) : bool :=
  negb (String.eqb w "" || String.eqb w ".")%bool.

(** Number of leading slashes. *)
Fixpoint leading_slashes (s : string) : nat :=
  match s with
  | String c s' => if Ascii.eqb c slash then S (leading_slashes s') else O
  | "" => O
  end.

(** [posixpath.splitroot]: exactly two leading slashes are kept. *)
Definition root_of (s : string) : string :=
  match leading_slashes s with
  | O => ""
  | 2%nat => "//"
  | _ => "/"
  end.

(** [PurePosixPath(s)]: empty and ["."] components are dropped, [".."] is
    kept. *)
Definition parse_path (s : string) : Path :=
  {| anchor := root_of s; parts := filter (fun w => is_component w = true) (split_slash s) |}.

(** [p / s]: an anchored right operand replaces the left one. *)
Definition joinpath (p : Path) (s : string) : Path :=
  let q := parse_path s in
  if String.eqb (anchor q) "" then
    {| anchor := anchor p; parts := parts p ++ parts q |}
  else q.

(** [p.parent] *)
Definition parent (p : Path) : Path :=
  {| anchor := anchor p; parts := removelast (parts p) |}.

Fixpoint strip_prefix (pre l : list string) : option (list string) :=
  match pre, l with
  | [], _ => Some l
  | a :: pre', b :: l' => if String.eqb a b then strip_prefix pre' l' else None
  | _ :: _, [] => None
  end.

(** [p.relative_to(other)]: the components of [p] below [other], or a
    [ValueError]. *)
Definition relative_to (p other : Path) : result Path :=
  if String.eqb (anchor p) (anchor other) then
    match strip_prefix (parts other) (parts p) with
    | Some rest => Return {| anchor := ""; parts := rest |}
    | None => Raise (ordinary "ValueError" "path is not in the subpath")
    end
  else Raise (ordinary "ValueError" "path is not in the subpath").

Definition is_relative_to (p other : Path) : bool :=
  match relative_to p other with Return _ => true | Raise _ => false end.

Fixpoint join_slash (l : list string) : string :=
  match l with
  | [] => ""
  | [w] => w
  | w :: l' => w +:+ "/" +:+ join_slash l'
  end.

(** [p.as_posix()] *)
Definition as_posix (p : Path) : string :=
  match parts p with
  | [] => if String.eqb (anchor p) "" then "." else anchor p
  | _ => anchor p +:+ join_slash (parts p)
  end.

(** ** The file system

    Entries are keyed by their absolute component list; the root directory
    (the empty list) always exists.  The kernel reads one, two or more
    leading slashes alike, so a path is located by its components, and its
    length is counted with one slash before each component.  A file holds
    text.  Not modelled: symbolic links, permissions, quotas, and the
    identity of a name with its surrogate-escaped spelling. *)

Inductive node := File (content : string) | Dir.

Abbreviation filesystem := (gmap (list string) node).

Inductive errno := ENOENT | ENOTDIR | EEXIST | EISDIR | ENAMETOOLONG | ENOTEMPTY.

(** The [OSError] subclass that CPython raises for an error number. *)
Definition os_error (e : errno) : exn :=
  match e with
  | ENOENT => ordinary "FileNotFoundError" "[Errno 2] No such file or directory"
  | ENOTDIR => ordinary "NotADirectoryError" "[Errno 20] Not a directory"
  | EEXIST => ordinary "FileExistsError" "[Errno 17] File exists"
  | EISDIR => ordinary "IsADirectoryError" "[Errno 21] Is a directory"
  | ENAMETOOLONG => ordinary "OSError" "[Errno 36] File name too long"
  | ENOTEMPTY => ordinary "OSError" "[Errno 39] Directory not empty"
  end.

(** Why a call on the file system fails: the error number of the kernel;
    the refusal of the path by CPython before any system call, a
    [ValueError] for a NUL byte and a [UnicodeEncodeError] (a subclass of
    [ValueError]) for a name that [os.fsencode] cannot encode; or the
    recursion limit of the interpreter, met by [Path.mkdir] on its way up
    through missing directories. *)
Inductive os_fault := Errno (e : errno) | NullByte | Unencodable | TooDeep.

Definition fault_exn (f : os_fault) : exn :=
  match f with
  | Errno e => os_error e
  | NullByte => ordinary "ValueError" "embedded null byte"
  | Unencodable =>
      ordinary "UnicodeEncodeError"
        "'utf-8' codec can't encode character: surrogates not allowed"
  | TooDeep =>
      ordinary "RecursionError"
        "maximum recursion depth exceeded while calling a Python object"
  end.

(** The limits of Linux on a file name and on a path, in bytes; the path
    limit counts the terminating NUL. *)
Definition NAME_MAX : nat := 255.
Definition PATH_MAX : nat := 4096.

Definition path_length (k : list string) : nat :=
  foldr (fun c n => S (os_length c + n)) O k.

(** What refuses a path before the kernel looks anything up: the encoder,
    then the NUL check of the path converter, then the copy of the path
    into the kernel. *)
Definition refusal (k : list string) : option os_fault :=
  if existsb (fun c => negb (bool_decide (is_Some (fsencode c)))) k
  then Some Unencodable
  else if existsb has_NUL k then Some NullByte
  else if (PATH_MAX <=? path_length k)%nat then Some (Errno ENAMETOOLONG)
  else None.

Definition fs_key (p : Path) : list string := parts p.

(** The entry at a location, if there is one. *)
Definition stat (fs : filesystem) (k : list string) : option node :=
  match k with [] => Some Dir | _ => fs !! k end.

(** [Path.is_file()], [Path.is_dir()] and [Path.exists()] at a location
    whose name the system has accepted: that of an entry found by a
    directory scan, or of the sandbox root, which was made when the module
    was loaded.  Nothing is raised there.  For a path from a caller see
    [path_exists] and [path_is_file] below. *)
Definition is_file (fs : filesystem) (k : list string) : bool :=
  match stat fs k with Some (File _) => true | _ => false end.

Definition is_dir (fs : filesystem) (k : list string) : bool :=
  match stat fs k with Some Dir => true | _ => false end.

Definition exists_ (fs : filesystem) (k : list string) : bool :=
  match stat fs k with Some _ => true | None => false end.

(** The walk of the kernel from [dir] along [rest] towards a location that
    holds no entry: the error at the first component that cannot be
    followed.  A component that is absent is looked up by the file system,
    which refuses a name longer than [NAME_MAX]. *)
Fixpoint walk_error (fs : filesystem) (dir rest : list string) : errno :=
  match rest with
  | [] => ENOENT
  | c :: rest' =>
      match fs !! (dir ++ [c]) with
      | Some Dir => walk_error fs (dir ++ [c]) rest'
      | Some (File _) => match rest' with [] => ENOENT | _ => ENOTDIR end
      | None => if (NAME_MAX <? os_length c)%nat then ENAMETOOLONG else ENOENT
      end
  end.

(** Why [os.stat] fails at a location that holds no entry.  An entry that
    exists was given a name that the system accepts, so the checks concern
    absent locations only. *)
Definition absent_fault (fs : filesystem) (k : list string) : os_fault :=
  match refusal k with
  | Some f => f
  | None => Errno (walk_error fs [] k)
  end.

(** Why no entry can be made at a location that holds none. *)
Definition create_fault (fs : filesystem) (k : list string) : option os_fault :=
  match refusal k with
  | Some f => Some f
  | None =>
      match stat fs (removelast k) with
      | None => Some (Errno (walk_error fs [] (removelast k)))
      | Some (File _) => Some (Errno ENOTDIR)
      | Some Dir =>
          if (NAME_MAX <? os_length (List.last k ""))%nat
          then Some (Errno ENAMETOOLONG) else None
      end
  end.

(** pathlib's [_ignore_error]: the faults of [os.stat] that [Path.exists],
    [Path.is_file] and [Path.is_dir] read as "no". *)
Definition ignored (f : os_fault) : bool :=
  match f with
  | Errno ENOENT | Errno ENOTDIR | NullByte | Unencodable => true
  | _ => false
  end.

(** [Path.exists()] *)
Definition path_exists (fs : filesystem) (k : list string) : result bool :=
  match stat fs k with
  | Some _ => Return true
  | None =>
      if ignored (absent_fault fs k) then Return false
      else Raise (fault_exn (absent_fault fs k))
  end.

(** [Path.is_file()] *)
Definition path_is_file (fs : filesystem) (k : list string) : result bool :=
  match stat fs k with
  | Some (File _) => Return true
  | Some Dir => Return false
  | None =>
      if ignored (absent_fault fs k) then Return false
      else Raise (fault_exn (absent_fault fs k))
  end.

(** [os.mkdir] *)
Definition os_mkdir (k : list string) (fs : filesystem) : os_fault + filesystem :=
  match stat fs k with
  | Some _ => inl (Errno EEXIST)
  | None =>
      match create_fault fs k with
      | Some f => inl f
      | None => inr (<[k := Dir]> fs)
      end
  end.

(** [Path.mkdir(parents=False, exist_ok=True)]: an [OSError] other than
    [FileNotFoundError] is passed over when the location is a directory.
    (Where the name is too long, [is_dir] raises that error once more; the
    outcome is the same.) *)
Definition mkdir_exist_ok (k : list string) (fs : filesystem) : os_fault + filesystem :=
  match os_mkdir k fs with
  | inr fs' => inr fs'
  | inl (Errno ENOENT) => inl (Errno ENOENT)
  | inl (Errno e) => if is_dir fs k then inr fs else inl (Errno e)
  | inl f => inl f
  end.

(** [Path.mkdir(parents=True, exist_ok=True)], by recursion over the
    reversed component list: on [ENOENT] the method calls itself on the
    parent and then makes the directory.  [depth] is the number of nested
    calls that the recursion limit of the interpreter leaves; the call
    that exceeds it raises [RecursionError].  A failure keeps the
    directories made before it. *)
Fixpoint mkdir_parents (depth : nat) (rk : list string) (fs : filesystem) {struct rk}
  : os_fault * filesystem + filesystem :=
  match depth with
  | O => inl (TooDeep, fs)
  | S depth' =>
      match os_mkdir (rev rk) fs with
      | inr fs' => inr fs'
      | inl (Errno ENOENT) =>
          match rk with
          | [] => inl (Errno ENOENT, fs)
          | _ :: rk' =>
              match mkdir_parents depth' rk' fs with
              | inr fs1 =>
                  match mkdir_exist_ok (rev rk) fs1 with
                  | inr fs2 => inr fs2
                  | inl f => inl (f, fs1)
                  end
              | inl e => inl e
              end
          end
      | inl (Errno e) => if is_dir fs (rev rk) then inr fs else inl (Errno e, fs)
      | inl f => inl (f, fs)
      end
  end.

(** [open(p, "w")] followed by a write of [content]: an existing file is
    truncated, a missing one is made. *)
Definition os_write (k : list string) (content : string) (fs : filesystem)
  : os_fault + filesystem :=
  match stat fs k with
  | Some Dir => inl (Errno EISDIR)
  | Some (File _) => inr (<[k := File content]> fs)
  | None =>
      match create_fault fs k with
      | Some f => inl f
      | None => inr (<[k := File content]> fs)
      end
  end.

(** [os.unlink] *)
Definition os_unlink (k : list string) (fs : filesystem) : os_fault + filesystem :=
  match stat fs k with
  | None => inl (absent_fault fs k)
  | Some Dir => inl (Errno EISDIR)
  | Some (File _) => inr (delete k fs)
  end.

(** [os.rmdir]: only a directory that holds no entry is removed. *)
Definition os_rmdir (k : list string) (fs : filesystem) : os_fault + filesystem :=
  match k with
  | [] => inl (Errno ENOTEMPTY)
  | _ =>
      match fs !! k with
      | None => inl (absent_fault fs k)
      | Some (File _) => inl (Errno ENOTDIR)
      | Some Dir =>
          if existsb (fun k' => bool_decide (k' <> [] /\ removelast k' = k))
                     (fst <$> map_to_list fs)
          then inl (Errno ENOTEMPTY)
          else inr (delete k fs)
      end
  end.

(** Text mode reads with universal newlines: a carriage return, alone or
    followed by a line feed, is returned as one line feed. *)
Fixpoint universal_newlines (s : string) : string :=
  match s with
  | String a (String b rest as tl) =>
      if Ascii.eqb a CR then
        if Ascii.eqb b LF then String LF (universal_newlines rest)
        else String LF (universal_newlines tl)
      else String a (universal_newlines tl)
  | String a "" => if Ascii.eqb a CR then nl else s
  | "" => ""
  end.

(** [Path.read_text(encoding="utf-8")] *)
Definition read_text (k : list string) (fs : filesystem) : result string :=
  match stat fs k with
  | None => Raise (fault_exn (absent_fault fs k))
  | Some Dir => Raise (os_error EISDIR)
  | Some (File c) => Return (universal_newlines c)
  end.

(** The fault of the UTF-8 encoder for a text that holds a surrogate. *)
Definition encode_error : exn :=
  ordinary "UnicodeEncodeError"
    "'utf-8' codec can't encode character: surrogates not allowed".

(** [Path.write_text(data, encoding="utf-8")]: the type of [data] is
    checked before the file is opened; the text is encoded when it is
    written, after the file has been opened and truncated. *)
Definition write_text (k : list string) (data : pyval) (fs : filesystem)
  : result unit * filesystem :=
  match data with
  | PStr s =>
      if has_surrogate s then
        match os_write k "" fs with
        | inr fs' => (Raise encode_error, fs')
        | inl f => (Raise (fault_exn f), fs)
        end
      else
        match os_write k s fs with
        | inr fs' => (Return tt, fs')
        | inl f => (Raise (fault_exn f), fs)
        end
  | _ => (Raise (ordinary "TypeError"
                   ("data must be str, not " +:+ type_name data)), fs)
  end.

Fixpoint is_prefix (pre l : list string) : bool :=
  match pre, l with
  | [], _ => true
  | a :: pre', b :: l' => (String.eqb a b && is_prefix pre' l')%bool
  | _ :: _, [] => false
  end.

(** Strictly below [dir]. *)
Definition below (dir k : list string) : bool :=
  (is_prefix dir k && (length dir <? length k)%nat)%bool.

(** [dir.glob("**/*")]: every entry strictly below [dir], in the order the
    directory scan delivers them; nothing when [dir] is no directory. *)
Definition glob_all (dir : Path) (fs : filesystem) : list Path :=
  if is_dir fs (fs_key dir) then
    (fun k => {| anchor := anchor dir; parts := k |}) <$>
      filter (fun k => below (fs_key dir) k = true) (fst <$> map_to_list fs)
  else [].

(** The prefixes of a component list: a location and its ancestors. *)
Fixpoint inits (l : list string) : list (list string) :=
  match l with
  | [] => [[]]
  | a :: l' => [] :: (cons a <$> inits l')
  end.

(** A write to [k] can succeed: neither its parent nor an ancestor of it is
    a regular file, and [k] itself is no directory. *)
Definition writable (fs : filesystem) (k : list string) : bool :=
  (forallb (fun a => negb (is_file fs a)) (inits (removelast k))
   && negb (is_dir fs k))%bool.

(** A name that the system accepts for a new entry: it can be encoded,
    holds no NUL byte, has no component above [NAME_MAX] bytes and is
    below [PATH_MAX] bytes in all. *)
Definition accepted (k : list string) : bool :=
  (bool_decide (refusal k = None)
   && forallb (fun c => (os_length c <=? NAME_MAX)%nat) k)%bool.

(** The lengths of a path are within the limits of the system. *)
Definition within_limits (k : list string) : bool :=
  ((path_length k <? PATH_MAX)%nat
   && forallb (fun c => (os_length c <=? NAME_MAX)%nat) k)%bool.

(** [fs'] is [fs] with directories added at prefixes of [target]. *)
Definition extends_dirs (target : list string) (fs fs' : filesystem) : Prop :=
  forall k, fs' !! k = fs !! k \/
            (fs !! k = None /\ fs' !! k = Some Dir /\ k `prefix_of` target).

(** ** Script execution

    What one call of [exec(code, env_globals, env_locals)] does: the state
    in which it leaves the two buffers that stand in for the standard
    streams, the bindings left in [env_locals], the exception that ended
    the script, if any, and what the script did outside the engine.  The
    namespaces give a script the module [json], and through
    [json.codecs.sys] and [json.codecs.open] the whole interpreter: it can
    close the buffers, write to the standard output of the process or
    close it, and act on the file system.  A script that ends the process
    itself counts as one that raised a fault outside [Exception].  A
    script that never returns is outside the model. *)

(** A call of a script on the file system. *)
Inductive syscall :=
| SysMkdir (k : list string)
| SysWrite (k : list string) (content : string)
| SysUnlink (k : list string)
| SysRmdir (k : list string).

(** A call that fails leaves the file system as it was.  A renaming or a
    copy is the series of calls that has its effect. *)
Definition do_call (fs : filesystem) (c : syscall) : filesystem :=
  let outcome :=
    match c with
    | SysMkdir k => os_mkdir k fs
    | SysWrite k content => os_write k content fs
    | SysUnlink k => os_unlink k fs
    | SysRmdir k => os_rmdir k fs
    end in
  match outcome with inr fs' => fs' | inl _ => fs end.

Definition apply_calls (fs : filesystem) (calls : list syscall) : filesystem :=
  foldl do_call fs calls.

Record exec_run := mkRun {
  run_stdout : option string;   (* what [stdout_buf] holds; [None] once closed *)
  run_stderr : option string;   (* what [stderr_buf] holds; [None] once closed *)
  run_locals : list (string * pyval);
                                (* a value that [json.dumps] does not encode (a
                                   set, a function, an integer of more than 4300
                                   digits, a cycle, a nesting beyond the recursion
                                   limit) is a [PObject] *)
  run_raised : option exn;
  run_calls : list syscall;     (* its calls on the file system, in order *)
  run_written : list string;    (* the text of the script that reached the
                                   standard output of the process, in order *)
  run_broken : option exn       (* when the script closed the standard output of
                                   the process or its descriptor: the fault with
                                   which a write to it fails from then on *)
}.

Definition empty_run : exec_run := mkRun (Some "") (Some "") [] None [] [] None.

(** The fault of a closed [io.StringIO]. *)
Definition closed_file : exn := ordinary "ValueError" "I/O operation on closed file".

(** The fault of a closed standard stream. *)
Definition closed_stream : exn := ordinary "ValueError" "I/O operation on closed file.".

(** ** Messages on the channel *)

(** What a call of [readline] in [read_message] delivers, by what
    [line.strip()] and [json.loads] make of it: a blank line, a line on
    which [json.loads] raises [JSONDecodeError], a line that it parses,
    or a fault other than [JSONDecodeError], raised by [readline] (a
    closed stream, bytes that are no UTF-8) or by [json.loads] (a nesting
    too deep, an integer of too many digits). *)
Inductive input_line :=
| Blank
| Malformed (text : string)
| Message (v : pyval)
| Failing (e : exn).

(** What standard output received: a message from [send_message], or
    text from a script. *)
Inductive output :=
| Sent (msg : pyval)
| Written (text : string).

(** The state in which the service reads a request.  Standard output
    accepts what is written: a handler that breaks it ends the loop, as
    [handle_call_tool] shows. *)
Record world := mkWorld {
  files : filesystem;      (* the file system *)
  sent : list output       (* what was written to standard output, oldest first *)
}.

(** How a function of the dispatcher ends: it returns, or an exception
    leaves it. *)
Inductive ending := Returns | Propagates (e : exn).

(** How the process ends. *)
Inductive termination := Finished | Crashed (e : exn).

(** [read_message], applied to what [readline] delivered ([None] at end
    of stream). *)
Definition read_message (line : option input_line) : result (option pyval) :=
  match line with
  | None => Return None
  | Some Blank => Return None
  | Some (Malformed _) => Return None
  | Some (Message PNone) => Return None
  | Some (Message v) => Return (Some v)
  | Some (Failing e) => Raise e
  end.

(** [send_message]: [json.dumps] raises before anything is written. *)
Definition send_message (msg : pyval) (w : world) : ending * world :=
  if serialisable msg
  then (Returns, {| files := files w; sent := sent w ++ [Sent msg] |})
  else (Propagates (ordinary "TypeError" "Object is not JSON serializable"), w).

(** [send_message] after a handler: once standard output is broken, the
    write raises. *)
Definition send_after (broken : option exn) (msg : pyval) (w : world)
  : ending * world :=
  match broken with
  | None => send_message msg w
  | Some e =>
      if serialisable msg then (Propagates e, w)
      else (Propagates (ordinary "TypeError" "Object is not JSON serializable"), w)
  end.

(** A tool handler acts on the file system and on standard output: it
    returns or raises, leaves a world, and may have broken standard
    output ([Some] of the fault of a write, then).  The handlers of the
    file store act on the file system only. *)
Definition handler := pyval -> world -> result pyval * world * option exn.
Definition file_tool := pyval -> filesystem -> result pyval * filesystem.

Definition on_files (tool : file_tool) : handler := fun params w =>
  let '(r, fs') := tool params (files w) in
  (r, {| files := fs'; sent := sent w |}, None).

Section Service.

  (** The directory that holds the script, an absolute path. *)
Variable script_dir : list string.

  (** The number of nested calls of [Path.mkdir] that the recursion limit
      of the interpreter leaves inside [tool_write_file]. *)
Variable mkdir_depth : nat.

  (** The interpreter behind [exec]: the run of a script, given the file
      system that it finds. *)
Variable py_exec : string -> filesystem -> exec_run.

  (** The numeric, plotting and GPU handlers ([simulate_kerr],
      [generate_noise], [plot_data], [chaos_parameters], [gpu_info]), by
      tool name: floating point, random and third-party code.  They do not
      touch the file system. *)
Variable collaborator : string -> pyval -> result pyval.

  (** [str(v)] for floats, containers and other objects. *)
Variable repr_other : pyval -> string.

Definition py_str (v : pyval) : string :=
    match v with
    | PStr s => s
    | PNone => "None"
    | PBool true => "True"
    | PBool false => "False"
    | PInt z => pretty z
    | _ => repr_other v
    end.

Definition SANDBOX_ROOT : Path :=
    joinpath {| anchor := "/"; parts := script_dir |} "sandbox".

Definition sandbox_path (rel : string) : Path :=
    joinpath SANDBOX_ROOT (remove_dotdot rel).

  (** The body of the loop of [reset_sandbox_dir]: a failed [unlink] is
      passed over.  The paths come from the directory scan and the root was
      made when the module was loaded (line 17), so [is_file], [exists] and
      [glob] meet no name that the system refuses: they are plain
      lookups. *)
Definition unlink_if_file (fs : filesystem) (p : Path) : filesystem :=
    if is_file fs (fs_key p) then
      match os_unlink (fs_key p) fs with
      | inr fs' => fs'
      | inl _ => fs
      end
    else fs.

Definition reset_sandbox_dir (fs : filesystem) : filesystem :=
    if exists_ fs (fs_key SANDBOX_ROOT) then
      foldl unlink_if_file fs (glob_all SANDBOX_ROOT fs)
    else fs.

  (** The dict that [run_sandboxed_python] returns: [getvalue] raises on a
      closed buffer. *)
Definition getvalues (r : exec_run) (stderr : option string) : result pyval :=
    match run_stdout r, stderr with
    | Some out, Some err =>
        Return (PDict [("stdout", PStr out);
                       ("stderr", PStr err);
                       ("result", default PNone (items_get "result" (run_locals r)))])
    | _, _ => Raise closed_file
    end.

Definition run_sandboxed_python (code : string) (w : world)
    : result pyval * world * option exn :=
    let r := py_exec code (files w) in
    let w' := {| files := apply_calls (files w) (run_calls r);
                 sent := sent w ++ (Written <$> run_written r) |} in
    (match run_raised r with
     | None => getvalues r (run_stderr r)
     | Some e =>
         if is_Exception e then
           (* traceback.print_exc(file=stderr_buf) *)
           match run_stderr r with
           | Some err => getvalues r (Some (err +:+ format_exc e))
           | None => Raise closed_file
           end
         else Raise e
     end, w', run_broken r).

Definition ok_true : pyval := PDict [("ok", PBool true)].

Definition tool_write_file : file_tool := fun params fs =>
    match py_get_none params "path" with
    | Raise e => (Raise e, fs)
    | Return rel_path =>
        match py_get_default params "content" (PStr "") with
        | Raise e => (Raise e, fs)
        | Return content =>
            match rel_path with
            | PStr rel =>
                let p := sandbox_path rel in
                match mkdir_parents mkdir_depth (rev (fs_key (parent p))) fs with
                | inl (f, fs1) => (Raise (fault_exn f), fs1)
                | inr fs1 =>
                    match write_text (fs_key p) content fs1 with
                    | (Return _, fs2) => (Return ok_true, fs2)
                    | (Raise e, fs2) => (Raise e, fs2)
                    end
                end
            | _ => (Raise (ordinary "ValueError" "path must be a string"), fs)
            end
        end
    end.

Definition tool_read_file : file_tool := fun params fs =>
    (rel_path ← py_get_none params "path";
     match rel_path with
     | PStr rel =>
         let p := sandbox_path rel in
         let not_found :=
           Raise (ordinary "FileNotFoundError" ("File not found: " +:+ rel)) in
         found ← path_exists fs (fs_key p);
         if negb found then not_found
         else regular ← path_is_file fs (fs_key p);
              if negb regular then not_found
              else content ← read_text (fs_key p) fs;
                   mret (PDict [("content", PStr content)])
     | _ => Raise (ordinary "ValueError" "path must be a string")
     end, fs).

  (** The body of the loop of [tool_list_files]. *)
Definition collect (fs : filesystem) (acc : result (list pyval)) (p : Path)
    : result (list pyval) :=
    files ← acc;
    if is_file fs (fs_key p) then
      rel ← relative_to p SANDBOX_ROOT;
      mret (files ++ [PStr (as_posix rel)])
    else mret files.

Definition list_names (fs : filesystem) : result (list pyval) :=
    foldl (collect fs) (Return []) (glob_all SANDBOX_ROOT fs).

Definition tool_list_files : file_tool := fun params fs =>
    (files ← list_names fs; mret (PDict [("files", PList files)]), fs).

Definition tool_reset_sandbox : file_tool := fun params fs =>
    (Return ok_true, reset_sandbox_dir fs).

Definition tool_run_python : handler := fun params w =>
    match py_get_none params "code" with
    | Raise e => (Raise e, w, None)
    | Return c =>
        match py_get_none params "python" with
        | Raise e => (Raise e, w, None)
        | Return p =>
            match py_or (py_or c p) (PStr "") with
            | PStr code => run_sandboxed_python code w
            | _ => (Raise (ordinary "ValueError" "code must be a string"), w, None)
            end
        end
    end.

Definition tool_collaborator (name : string) : handler := fun params w =>
    (collaborator name params, w, None).

Definition TOOLS : list (string * handler) :=
    [("run_python", tool_run_python);
     ("simulate_kerr", tool_collaborator "simulate_kerr");
     ("generate_noise", tool_collaborator "generate_noise");
     ("plot_data", tool_collaborator "plot_data");
     ("chaos_parameters", tool_collaborator "chaos_parameters");
     ("write_file", on_files tool_write_file);
     ("read_file", on_files tool_read_file);
     ("list_files", on_files tool_list_files);
     ("reset_sandbox", on_files tool_reset_sandbox);
     ("gpu_info", tool_collaborator "gpu_info")].

Fixpoint tools_get (name : string) (l : list (string * handler)) : option handler :=
    match l with
    | [] => None
    | (n, h) :: l' => if String.eqb name n then Some h else tools_get name l'
    end.

  (** [name in TOOLS]: hashing a list or a dict raises [TypeError]; a key
      of another type equals none of the registered strings. *)
Definition tools_lookup (name : pyval) : result (option handler) :=
    match name with
    | PStr s => Return (tools_get s TOOLS)
    | PList _ => Raise (ordinary "TypeError" "unhashable type: 'list'")
    | PDict _ => Raise (ordinary "TypeError" "unhashable type: 'dict'")
    | _ => Return None
    end.

Definition response (request_id : pyval) (field : string) (body : pyval) : pyval :=
    PDict [("jsonrpc", PStr "2.0"); ("id", request_id); (field, body)].

Definition rpc_error (code : Z) (message : string) : pyval :=
    PDict [("code", PInt code); ("message", PStr message)].

Definition rpc_error_data (code : Z) (message data : string) : pyval :=
    PDict [("code", PInt code); ("message", PStr message); ("data", PStr data)].

Definition tool_descriptor (name : string) : pyval :=
    PDict [("name", PStr name);
           ("description", PStr ("Tool: " +:+ name));
           ("inputSchema",
            PDict [("type", PStr "object");
                   ("properties", PDict []);
                   ("additionalProperties", PBool true)])].

Definition handle_list_tools (request_id : pyval) (w : world) : ending * world :=
    send_message
      (response request_id "result"
         (PDict [("tools", PList (tool_descriptor <$> (fst <$> TOOLS)))])) w.

Definition handle_call_tool (request_id params : pyval) (w : world)
    : ending * world :=
    match py_get_none params "name" with
    | Raise e => (Propagates e, w)
    | Return name =>
    match py_get_default params "arguments" (PDict []) with
    | Raise e => (Propagates e, w)
    | Return arguments =>
    match tools_lookup name with
    | Raise e => (Propagates e, w)
    | Return None =>
        send_message
          (response request_id "error"
             (rpc_error (-32601) ("Unknown tool: " +:+ py_str name))) w
    | Return (Some tool) =>
        let '(r, w', broken) := tool arguments w in
        let attempt :=
          match r with
          | Return result =>
              send_after broken (response request_id "result" result) w'
          | Raise e => (Propagates e, w')
          end in
        match attempt with
        | (Propagates e, w'') =>
            if is_Exception e then
              send_after broken
                (response request_id "error"
                   (rpc_error_data (-32000) ("Tool error: " +:+ exc_str e)
                      (format_exc e))) w''
            else (Propagates e, w'')
        | other => other
        end
    end end end.

Definition handle_initialize (request_id params : pyval) (w : world)
    : ending * world :=
    send_message
      (response request_id "result"
         (PDict [("protocolVersion", PStr "2024-11-05");
                 ("serverInfo",
                  PDict [("name", PStr "python-lab"); ("version", PStr "1.0.0")]);
                 ("capabilities", PDict [("tools", PDict [])])])) w.

  (** [method == s] *)
Definition str_is (v : pyval) (s : string) : bool :=
    match v with PStr t => String.eqb t s | _ => false end.

  (** The body of the loop of [main_loop] for one message. *)
Definition dispatch (msg : pyval) (w : world) : ending * world :=
    match py_get_none msg "id" with
    | Raise e => (Propagates e, w)
    | Return msg_id =>
    match py_get_none msg "method" with
    | Raise e => (Propagates e, w)
    | Return method =>
    match py_get_default msg "params" (PDict []) with
    | Raise e => (Propagates e, w)
    | Return params0 =>
        let params := py_or params0 (PDict []) in
        if str_is method "initialize" then handle_initialize msg_id params w
        else if (str_is method "list_tools" || str_is method "tools/list")%bool
        then handle_list_tools msg_id w
        else if (str_is method "call_tool" || str_is method "tools/call")%bool
        then handle_call_tool msg_id params w
        else
          send_message
            (response msg_id "error"
               (rpc_error (-32601) ("Unknown method: " +:+ py_str method))) w
    end end end.

  (** [main_loop], over what the calls of [readline] in [read_message]
      deliver, in order. *)
Fixpoint main_loop (stdin : list input_line) (w : world) : termination * world :=
    match read_message (head stdin) with
    | Raise e => (Crashed e, w)
    | Return None => (Finished, w)
    | Return (Some msg) =>
        match dispatch msg w with
        | (Propagates e, w') => (Crashed e, w')
        | (Returns, w') =>
            match stdin with
            | [] => (Finished, w')
            | _ :: rest => main_loop rest w'
            end
        end
    end.

  (** The locations of the files below the sandbox root. *)
Definition sandbox_files (fs : filesystem) : list (list string) :=
    fs_key <$> filter (fun p => is_file fs (fs_key p) = true) (glob_all SANDBOX_ROOT fs).

  (** The sandbox directory exists and holds no file. *)
Definition sandbox_empty (fs : filesystem) : Prop :=
    is_dir fs (fs_key SANDBOX_ROOT) = true /\ sandbox_files fs = [].

  (** The name under which [list_files] reports the file at the
      location that [path] resolves to. *)
Definition listed_name (path : string) : string :=
    join_slash (drop (length (fs_key SANDBOX_ROOT)) (fs_key (sandbox_path path))).

Definition write_request (path content : string) : pyval :=
    PDict [("path", PStr path); ("content", PStr content)].

Definition read_request (path : string) : pyval := PDict [("path", PStr path)].

Definition read_answer (content : string) : pyval :=
    PDict [("content", PStr content)].

Definition list_answer (names : list string) : pyval :=
    PDict [("files", PList (PStr <$> names))].

  (** A series of [write_file] calls, each acknowledged. *)
Fixpoint write_all (ws : list (string * string)) (fs : filesystem)
    : option filesystem :=
    match ws with
    | [] => Some fs
    | (path, content) :: ws' =>
        match tool_write_file (write_request path content) fs with
        | (Return _, fs') => write_all ws' fs'
        | (Raise _, _) => None
        end
    end.

End Service.

(** A carriage return occurs in [s]. *)
Fixpoint has_CR (s : string) : bool :=
  match s with
  | "" => false
  | String c s' => (Ascii.eqb c CR || has_CR s')%bool
  end.

(** A slash occurs in [s]. *)
Fixpoint has_slash (s : string) : bool :=
  match s with
  | "" => false
  | String c s' => (Ascii.eqb c slash || has_slash s')%bool
  end.

(** [hash(v)] succeeds. *)
Definition hashable (v : pyval) : bool :=
  match v with PList _ | PDict _ => false | _ => true end.

(** The world after [send_message] has written one more message. *)
Definition push (w : world) (msg : pyval) : world :=
  {| files := files w; sent := (sent w ++ [Sent msg])%list |}.

(** The messages of [send_message] among what was written. *)
Definition messages (out : list output) : list pyval :=
  omap (fun o => match o with Sent m => Some m | Written _ => None end) out.

(** The message object holds [v] under [key]; a missing key reads as
    [None], as [msg.get(key)] does. *)
Definition field_is (items : list (string * pyval)) (key : string) (v : pyval) : Prop :=
  ((key, v) ∈ items) \/ ((key ∉ items.*1) /\ v = PNone).

(** [method in ("call_tool", "tools/call")] *)
Definition is_call (method : pyval) : bool :=
  match method with
  | PStr m => (String.eqb m "call_tool" || String.eqb m "tools/call")%bool
  | _ => false
  end.

(** The fault of [tool_run_python] for a value that is no string. *)
Definition code_must_be_string : exn := ordinary "ValueError" "code must be a string".

(** The result object of a run that wrote nothing and bound no result. *)
Definition empty_answer : pyval :=
  PDict [("stdout", PStr ""); ("stderr", PStr ""); ("result", PNone)].

(** Requests as [json.loads] delivers them. *)
Definition request (id : pyval) (method : string) (params : pyval) : pyval :=
  PDict [("jsonrpc", PStr "2.0"); ("id", id); ("method", PStr method);
         ("params", params)].

Definition call_request (id : pyval) (tool : string) (arguments : pyval) : pyval :=
  request id "tools/call" (PDict [("name", PStr tool); ("arguments", arguments)]).

(** ** A small interpreter for straight-line scripts

    An instance of the interpreter behind [exec] for scripts made of lines
    of the forms [NAME = expr], [print(atom)], [expr],
    [json.codecs.sys.exit()], [json.codecs.sys.stdout.close()],
    [json.codecs.sys.stderr.close()],
    [json.codecs.sys.__stdout__.write('text')],
    [json.codecs.sys.__stdout__.close()] and
    [json.codecs.open('/path', 'w').write('text')], where an expression is
    an atom or [atom // atom], an atom is a name or a decimal literal (of a
    number below ten to the power 4300, with no zero in front of another
    digit than zero), a text is made of letters, digits, spaces, dots and
    slashes, and a path is absolute and has no empty, [.] or [..]
    component.  On this fragment it follows CPython under the namespaces
    that [run_sandboxed_python] builds.  Text outside the fragment is given
    the run of a syntax error. *)

Module MiniPy.

Inductive token :=
  | TInt (n : Z) | TName (s : string) | TSym (s : string) | TStr (s : string).

Inductive pending := NoToken | Digits (n : Z) | Ident (s : string) | Quoted (s : string).

  (** The first integer that a decimal literal cannot denote: 4300 digits
      are the limit of the conversion. *)
Definition int_limit : Z := Eval vm_compute in (10 ^ 4300)%Z.

Definition flush (p : pending) : list token :=
    match p with
    | NoToken | Quoted _ => []
    | Digits n => [TInt n]
    | Ident s => [TName s]
    end.

Definition quoted (p : pending) : bool :=
    match p with Quoted _ => true | _ => false end.

Definition is_digit (c : ascii) : bool :=
    let n := nat_of_ascii c in ((48 <=? n) && (n <=? 57))%nat.

Definition is_letter (c : ascii) : bool :=
    let n := nat_of_ascii c in
    (((65 <=? n) && (n <=? 90)) || ((97 <=? n) && (n <=? 122)) || (n =? 95))%nat.

Definition digit_value (c : ascii) : Z := Z.of_nat (nat_of_ascii c) - 48.

Definition is_symbol (c : ascii) : bool :=
    (Ascii.eqb c "="%char || Ascii.eqb c "("%char || Ascii.eqb c ")"%char
     || Ascii.eqb c "."%char || Ascii.eqb c ","%char)%bool.

  (** The characters of a quoted text. *)
Definition is_plain (c : ascii) : bool :=
    (is_letter c || is_digit c || Ascii.eqb c " "%char || Ascii.eqb c "."%char
     || Ascii.eqb c slash)%bool.

  (** One character, given the token being read. *)
Definition lex_char (c : ascii) (p : pending) : option (list token * pending) :=
    match p with
    | Quoted s =>
        if Ascii.eqb c "'"%char then Some ([TStr s], NoToken)
        else if is_plain c then Some ([], Quoted (s +:+ String c ""))
        else None
    | _ =>
        if is_digit c then
          match p with
          | Digits n =>
              (* [00] is a literal, [07] is none *)
              if ((n =? 0) && negb (digit_value c =? 0))%Z then None
              else if (int_limit <=? 10 * n + digit_value c)%Z then None
              else Some ([], Digits (10 * n + digit_value c))
          | Ident s => Some ([], Ident (s +:+ String c ""))
          | _ => Some ([], Digits (digit_value c))
          end
        else if is_letter c then
          match p with
          | Digits _ => None
          | Ident s => Some ([], Ident (s +:+ String c ""))
          | _ => Some ([], Ident (String c ""))
          end
        else if Ascii.eqb c " "%char then Some (flush p, NoToken)
        else if Ascii.eqb c "'"%char then
          match p with NoToken => Some ([], Quoted "") | _ => None end
        else if is_symbol c then Some ((flush p ++ [TSym (String c "")])%list, NoToken)
        else None
    end.

Fixpoint tokenize (s : string) (p : pending) : option (list token) :=
    match s with
    | "" => if quoted p then None else Some (flush p)
    | String a (String b rest as tl) =>
        if (Ascii.eqb a slash && Ascii.eqb b slash && negb (quoted p))%bool then
          ts ← tokenize rest NoToken; Some (flush p ++ TSym "//" :: ts)%list
        else
          '(out, p') ← lex_char a p; ts ← tokenize tl p'; Some (out ++ ts)%list
    | String a tl =>
        '(out, p') ← lex_char a p; ts ← tokenize tl p'; Some (out ++ ts)%list
    end.

Inductive atom := Lit (n : Z) | Name (x : string).
Inductive expr := Atom (a : atom) | FloorDiv (a b : atom).
Inductive stmt :=
  | Assign (x : string) (e : expr)
  | PrintCall (a : atom)
  | Bare (e : expr)
  | SysExit
  | CloseStdout
  | CloseStderr
  | ChannelWrite (text : string)
  | ChannelClose
  | FileWrite (k : list string) (text : string).

Definition parse_atom (t : token) : option atom :=
    match t with
    | TInt n => Some (Lit n)
    | TName x => Some (Name x)
    | _ => None
    end.

Definition parse_expr (ts : list token) : option expr :=
    match ts with
    | [t] => Atom <$> parse_atom t
    | [t1; TSym "//"; t2] => a ← parse_atom t1; b ← parse_atom t2; Some (FloorDiv a b)
    | _ => None
    end.

  (** The location of an absolute path without empty, [.] or [..]
      component. *)
Definition absolute_key (path : string) : option (list string) :=
    match split_slash path with
    | "" :: w :: ws =>
        if forallb (fun c => (is_component c && negb (String.eqb c ".."))%bool) (w :: ws)
        then Some (w :: ws) else None
    | _ => None
    end.

Definition parse_stmt (ts : list token) : option stmt :=
    match ts with
    | TName x :: TSym "=" :: e => Assign x <$> parse_expr e
    | [TName "print"; TSym "("; t; TSym ")"] => PrintCall <$> parse_atom t
    | [TName "json"; TSym "."; TName "codecs"; TSym "."; TName "sys"; TSym ".";
       TName "exit"; TSym "("; TSym ")"] => Some SysExit
    | [TName "json"; TSym "."; TName "codecs"; TSym "."; TName "sys"; TSym ".";
       TName "stdout"; TSym "."; TName "close"; TSym "("; TSym ")"] => Some CloseStdout
    | [TName "json"; TSym "."; TName "codecs"; TSym "."; TName "sys"; TSym ".";
       TName "stderr"; TSym "."; TName "close"; TSym "("; TSym ")"] => Some CloseStderr
    | [TName "json"; TSym "."; TName "codecs"; TSym "."; TName "sys"; TSym ".";
       TName "__stdout__"; TSym "."; TName "write"; TSym "("; TStr text; TSym ")"] =>
        Some (ChannelWrite text)
    | [TName "json"; TSym "."; TName "codecs"; TSym "."; TName "sys"; TSym ".";
       TName "__stdout__"; TSym "."; TName "close"; TSym "("; TSym ")"] =>
        Some ChannelClose
    | [TName "json"; TSym "."; TName "codecs"; TSym "."; TName "open"; TSym "(";
       TStr path; TSym ","; TStr "w"; TSym ")"; TSym "."; TName "write"; TSym "(";
       TStr text; TSym ")"] =>
        k ← absolute_key path; Some (FileWrite k text)
    | _ => Bare <$> parse_expr ts
    end.

  (** [s.split(LF)] *)
Fixpoint lines (s : string) : list string :=
    match s with
    | "" => [""]
    | String c s' =>
        if Ascii.eqb c LF then "" :: lines s'
        else match lines s' with
             | [] => [String c ""]
             | w :: ws => String c w :: ws
             end
    end.

  (** The statements of a script, with their line numbers; [None] when
      some line is not of the fragment (an indented line among them). *)
Fixpoint parse_lines (ls : list string) (lineno : nat) : option (list (nat * stmt)) :=
    match ls with
    | [] => Some []
    | l :: ls' =>
        ts ← tokenize l NoToken;
        match ts with
        | [] => parse_lines ls' (S lineno)
        | _ =>
            if starts_with " "%char l then None
            else st ← parse_stmt ts;
                 rest ← parse_lines ls' (S lineno);
                 Some ((lineno, st) :: rest)
        end
    end.

  (** The names of [env_globals]: the modules and helpers that
      [ALLOWED_MODULES] always holds, and the restricted builtins. *)
Definition global_names : list string :=
    ["math"; "random"; "json";
     "kerr_isco_radius"; "gravitational_redshift"; "sample_orbit_radii";
     "generate_chaos_parameters"; "generate_noise_field";
     "abs"; "min"; "max"; "sum"; "len"; "range"; "print"].

Definition quote : string := String "034"%char "".

Definition raised_at (lineno : nat) (ty msg : string) : exn :=
    {| exc_kind_of := Ordinary; exc_type := ty; exc_str := msg;
       exc_frames := "  File " +:+ quote +:+ "<string>" +:+ quote +:+ ", line "
                     +:+ pretty lineno +:+ ", in <module>" +:+ nl |}.

Definition eval_atom (lineno : nat) (locals : list (string * pyval)) (a : atom)
    : result pyval :=
    match a with
    | Lit n => Return (PInt n)
    | Name x =>
        match items_get x locals with
        | Some v => Return v
        | None =>
            if bool_decide (x ∈ global_names) then Return (PObject x)
            else Raise (raised_at lineno "NameError"
                          ("name '" +:+ x +:+ "' is not defined"))
        end
    end.

Definition eval_expr (lineno : nat) (locals : list (string * pyval)) (e : expr)
    : result pyval :=
    match e with
    | Atom a => eval_atom lineno locals a
    | FloorDiv a b =>
        x ← eval_atom lineno locals a;
        y ← eval_atom lineno locals b;
        match x, y with
        | PInt m, PInt n =>
            if (n =? 0)%Z
            then Raise (raised_at lineno "ZeroDivisionError"
                          "integer division or modulo by zero")
            else Return (PInt (m / n))
        | _, _ => Raise (raised_at lineno "TypeError"
                           "unsupported operand type(s) for //")
        end
    end.

  (** [locals[x] = v] *)
Definition bind (x : string) (v : pyval) (locals : list (string * pyval))
    : list (string * pyval) :=
    (x, v) :: filter (fun kv => negb (String.eqb (fst kv) x) = true) locals.

  (** [str(v)] for what [print] is given here. *)
Definition show (v : pyval) : string :=
    match v with
    | PInt z => pretty z
    | PObject d => "<" +:+ d +:+ ">"
    | _ => ""
    end.

  (** The run of a program from the state [r], in the file system [fs]. *)
Fixpoint run (prog : list (nat * stmt)) (fs : filesystem) (r : exec_run) : exec_run :=
    match prog with
    | [] => r
    | (lineno, st) :: prog' =>
        let fail e :=
          mkRun (run_stdout r) (run_stderr r) (run_locals r) (Some e)
                (run_calls r) (run_written r) (run_broken r) in
        match st with
        | Assign x e =>
            match eval_expr lineno (run_locals r) e with
            | Return v =>
                run prog' fs
                    (mkRun (run_stdout r) (run_stderr r) (bind x v (run_locals r)) None
                           (run_calls r) (run_written r) (run_broken r))
            | Raise err => fail err
            end
        | PrintCall a =>
            match eval_atom lineno (run_locals r) a with
            | Return v =>
                match run_stdout r with
                | Some out =>
                    run prog' fs
                        (mkRun (Some (out +:+ show v +:+ nl)) (run_stderr r)
                               (run_locals r) None (run_calls r) (run_written r)
                               (run_broken r))
                | None =>
                    fail (raised_at lineno "ValueError" "I/O operation on closed file")
                end
            | Raise err => fail err
            end
        | Bare e =>
            match eval_expr lineno (run_locals r) e with
            | Return _ => run prog' fs r
            | Raise err => fail err
            end
        | SysExit => fail (mkExn Exiting "SystemExit" "" "")
        | CloseStdout =>
            run prog' fs
                (mkRun None (run_stderr r) (run_locals r) None
                       (run_calls r) (run_written r) (run_broken r))
        | CloseStderr =>
            run prog' fs
                (mkRun (run_stdout r) None (run_locals r) None
                       (run_calls r) (run_written r) (run_broken r))
        | ChannelWrite text =>
            match run_broken r with
            | None =>
                run prog' fs
                    (mkRun (run_stdout r) (run_stderr r) (run_locals r) None
                           (run_calls r) (run_written r ++ [text]) None)
            | Some _ =>
                fail (raised_at lineno "ValueError" "I/O operation on closed file.")
            end
        | ChannelClose =>
            run prog' fs
                (mkRun (run_stdout r) (run_stderr r) (run_locals r) None
                       (run_calls r) (run_written r) (Some closed_stream))
        | FileWrite k text =>
            match os_write k text fs with
            | inr fs' =>
                run prog' fs'
                    (mkRun (run_stdout r) (run_stderr r) (run_locals r) None
                           (run_calls r ++ [SysWrite k text]) (run_written r)
                           (run_broken r))
            | inl f =>
                fail (raised_at lineno (exc_type (fault_exn f)) (exc_str (fault_exn f)))
            end
        end
    end.

Definition py_exec (code : string) (fs : filesystem) : exec_run :=
    match parse_lines (lines code) 1 with
    | Some prog => run prog fs empty_run
    | None =>
        mkRun (Some "") (Some "") [] (Some (ordinary "SyntaxError" "invalid syntax"))
              [] [] None
    end.

  (** The collaborators are absent from this instance: each call faults. *)
Definition collaborator (name : string) (params : pyval) : result pyval :=
    Raise (ordinary "RuntimeError" (name +:+ " is not available")).

Definition repr_other (v : pyval) : string := "<" +:+ type_name v +:+ ">".

End MiniPy.


(** ** Further notions used by the properties *)

(** Every entry lies in a directory: its parent is the root or an entry
    that is a directory. *)
Definition well_formed (fs : filesystem) : Prop :=
  forall (k : list string) (n : node),
    fs !! k = Some n -> is_dir fs (removelast k) = true.

(** The result of [handle_initialize]. *)
Definition initialize_result : pyval :=
  PDict [("protocolVersion", PStr "2024-11-05");
         ("serverInfo",
          PDict [("name", PStr "python-lab"); ("version", PStr "1.0.0")]);
         ("capabilities", PDict [("tools", PDict [])])].

(** The method names that [main_loop] routes. *)
Definition routed_methods : list string :=
  ["initialize"; "list_tools"; "tools/list"; "call_tool"; "tools/call"].

(** The three shapes of what [send_message] writes: a result, an error for
    an unknown method or tool, an error for a handler fault. *)
Definition is_response (r : pyval) : Prop :=
  exists id : pyval,
    (exists body : pyval, r = response id "result" body) \/
    (exists message : string, r = response id "error" (rpc_error (-32601) message)) \/
    (exists message data : string,
        r = response id "error" (rpc_error_data (-32000) message data)).

(** The world that a script leaves: its calls on the file system are made,
    its text is on standard output. *)
Definition script_world (py_exec : string -> filesystem -> exec_run)
    (code : string) (w : world) : world :=
  {| files := apply_calls (files w) (run_calls (py_exec code (files w)));
     sent := sent w ++ (Written <$> run_written (py_exec code (files w))) |}.

(** What was written by a function of the dispatcher for the request with
    this id: when it returns, text of a script, if any, and then one
    response that carries the id; when an exception leaves it, text of a
    script at most. *)
Definition answers (id : pyval) (w : world) (out : ending * world) : Prop :=
  match out with
  | (Returns, w') =>
      exists (texts : list string) (field : string) (body : pyval),
        sent w' = sent w ++ (Written <$> texts) ++ [Sent (response id field body)] /\
        is_response (response id field body)
  | (Propagates _, w') =>
      exists texts : list string, sent w' = sent w ++ (Written <$> texts)
  end.

(** Why a [tools/call] is left by an exception: params that are no object,
    a name that cannot be hashed, or a handler that raised a fault outside
    [Exception] or broke standard output, [e] being the fault of the write
    then. *)
Definition call_left (registry : list (string * handler))
    (params : pyval) (w : world) (e : exn) (w' : world) : Prop :=
  (forall d : list (string * pyval), params <> PDict d) \/
  (exists d : list (string * pyval),
      params = PDict d /\ hashable (default PNone (items_get "name" d)) = false) \/
  (exists (d : list (string * pyval)) (s : string) (tool : handler)
          (r : result pyval) (broken : option exn),
      params = PDict d /\
      items_get "name" d = Some (PStr s) /\
      tools_get s registry = Some tool /\
      tool (default (PDict []) (items_get "arguments" d)) w = (r, w', broken) /\
      ((r = Raise e /\ is_Exception e = false) \/ broken = Some e)).

(** The surrogate U+D800, as the JSON escape [\ud800] delivers it. *)
Definition lone_surrogate : string :=
  String "237"%char (String "160"%char (String "128"%char "")).

(** A name of 300 bytes. *)
Definition long_name : string := String.concat "" (repeat "aaaaaaaaaa" 30).

(** * Proof automation *)

(** Unfold the dict accessors and the monad on concrete keys. *)
Ltac py_simpl :=
  cbn [py_get_none py_get_default py_get mbind result_mbind result_bind mret
       result_mret items_get String.eqb Ascii.eqb Bool.eqb from_option
       Datatypes.id].

(** ** A concrete installation

    The script lives in [/srv/lab]; the sandbox directory exists and is
    empty; scripts are run by [MiniPy]. *)

Module Demo.

Definition script_dir : list string := ["srv"; "lab"].

  (** Room for 900 nested calls of [Path.mkdir]. *)
Definition mkdir_depth : nat := 900.

Definition fs0 : filesystem :=
    <[ ["srv"; "lab"; "sandbox"] := Dir ]>
      (<[ ["srv"; "lab"] := Dir ]> (<[ ["srv"] := Dir ]> ∅)).

Definition w0 : world := {| files := fs0; sent := [] |}.

Definition step : pyval -> world -> ending * world :=
    dispatch script_dir mkdir_depth MiniPy.py_exec MiniPy.collaborator MiniPy.repr_other.

Definition loop : list input_line -> world -> termination * world :=
    main_loop script_dir mkdir_depth MiniPy.py_exec MiniPy.collaborator MiniPy.repr_other.

Definition registry : list (string * handler) :=
    TOOLS script_dir mkdir_depth MiniPy.py_exec MiniPy.collaborator.

Definition write_file : file_tool := tool_write_file script_dir mkdir_depth.
Definition read_file : file_tool := tool_read_file script_dir.
Definition list_files : file_tool := tool_list_files script_dir.
Definition reset : file_tool := tool_reset_sandbox script_dir.
Definition run_python : handler := tool_run_python MiniPy.py_exec.

  (** [1//0] on the given line of a script *)
Definition division_by_zero (lineno : nat) : exn :=
    MiniPy.raised_at lineno "ZeroDivisionError" "integer division or modulo by zero".

Definition system_exit : exn := mkExn Exiting "SystemExit" "" "".

Definition file_not_found (path : string) : exn :=
    ordinary "FileNotFoundError" ("File not found: " +:+ path).

End Demo.


(** * Path resolution *)

Lemma remove_dotdot_cons2 a b rest :
  remove_dotdot (String a (String b rest)) =
    if (Ascii.eqb a dot && Ascii.eqb b dot)%bool then remove_dotdot rest
    else String a (remove_dotdot (String b rest)).
Proof. reflexivity. Qed.

Lemma has_dotdot_cons2 a b rest :
  has_dotdot (String a (String b rest)) =
    ((Ascii.eqb a dot && Ascii.eqb b dot) || has_dotdot (String b rest))%bool.
Proof. reflexivity. Qed.

Lemma remove_dotdot_cons_other a s :
  a ≠ dot -> remove_dotdot (String a s) = String a (remove_dotdot s).
Proof.
  intros Ha. destruct s as [|b rest]; [reflexivity|].
  rewrite remove_dotdot_cons2.
  destruct (Ascii.eqb_spec a dot) as [->|_]; [congruence | reflexivity].
Qed.

Lemma remove_dotdot_spec n :
  forall s, (String.length s <= n)%nat ->
    has_dotdot (remove_dotdot s) = false /\
    (starts_with dot (remove_dotdot s) = true -> starts_with dot s = true).
Proof.
  induction n as [|n IH]; intros s Hlen.
  - destruct s; [split; [reflexivity | intros H; exact H] | cbn in Hlen; lia].
  - destruct s as [|a [|b rest]].
    + split; [reflexivity | intros H; exact H].
    + split; [reflexivity | intros H; exact H].
    + rewrite remove_dotdot_cons2.
      destruct (Ascii.eqb_spec a dot) as [->|Ha]; cbn [andb].
      * destruct (Ascii.eqb_spec b dot) as [->|Hb].
        -- destruct (IH rest) as [H1 _]; [cbn in Hlen; lia|].
           split; [exact H1 | intros _; reflexivity].
        -- destruct (IH (String b rest)) as [H1 H2]; [cbn in Hlen; cbn; lia|].
           split; [|intros _; reflexivity].
           rewrite remove_dotdot_cons_other in * by exact Hb.
           rewrite has_dotdot_cons2, H1.
           destruct (Ascii.eqb_spec b dot); [congruence|].
           now rewrite andb_false_r.
      * destruct (IH (String b rest)) as [H1 H2]; [cbn in Hlen; cbn; lia|].
        split.
        -- destruct (remove_dotdot (String b rest)) as [|c tl] eqn:E;
             [reflexivity|].
           rewrite has_dotdot_cons2, H1.
           destruct (Ascii.eqb_spec a dot); [congruence | reflexivity].
        -- cbn [starts_with]. intros H. exact H.
Qed.

(** After the replacement no [".."] is left in the string. *)
Lemma remove_dotdot_clean s : has_dotdot (remove_dotdot s) = false.
Proof. exact (proj1 (remove_dotdot_spec (String.length s) s (le_n _))). Qed.

Lemma split_slash_nonempty s : split_slash s ≠ [].
Proof.
  destruct s as [|c s]; cbn; [discriminate|].
  destruct (Ascii.eqb c slash); [discriminate|].
  destruct (split_slash s); discriminate.
Qed.

Lemma split_slash_head_dot s w ws :
  split_slash s = w :: ws -> starts_with dot w = true -> starts_with dot s = true.
Proof.
  destruct s as [|c s]; cbn.
  - intros [= <- <-]. discriminate.
  - destruct (Ascii.eqb c slash).
    + intros [= <- <-]. discriminate.
    + destruct (split_slash s); intros [= <- <-]; cbn; auto.
Qed.

Lemma split_slash_no_parent s :
  has_dotdot s = false -> ".." ∉ split_slash s.
Proof.
  induction s as [|c s IH]; intros Hs.
  - cbn. intros H. apply list_elem_of_In in H. cbn in H. intuition discriminate.
  - assert (Htl : has_dotdot s = false).
    { destruct s as [|b rest]; [reflexivity|].
      cbn [has_dotdot] in Hs. now apply orb_false_elim in Hs. }
    specialize (IH Htl). cbn [split_slash].
    destruct (Ascii.eqb c slash).
    + intros H. apply elem_of_cons in H as [H|H]; [discriminate | auto].
    + destruct (split_slash s) as [|w ws] eqn:E.
      * intros H. apply elem_of_cons in H as [H|H]; [discriminate|].
        now apply not_elem_of_nil in H.
      * intros H. apply elem_of_cons in H as [H|H].
        -- injection H as <- <-.
           pose proof (split_slash_head_dot s _ _ E eq_refl) as Hd.
           destruct s as [|b rest]; [discriminate|].
           cbn [has_dotdot] in Hs. cbn in Hd.
           apply orb_false_elim in Hs as [Hs _].
           rewrite Hd in Hs. discriminate.
        -- apply IH. now right.
Qed.

Section Confinement.

Variable script_dir : list string.

Lemma SANDBOX_ROOT_eq :
    SANDBOX_ROOT script_dir =
      {| anchor := "/"; parts := (script_dir ++ ["sandbox"])%list |}.
  Proof. reflexivity. Qed.

  (** No component of a resolved path is the parent-directory marker
      beyond those of the root itself. *)
Lemma sandbox_path_no_parent rel :
    ".." ∉ parts (parse_path (remove_dotdot rel)).
  Proof.
    cbn. intros H. apply list_elem_of_filter in H as [_ H].
    revert H. apply split_slash_no_parent, remove_dotdot_clean.
  Qed.

Lemma strip_prefix_app (l r : list string) : strip_prefix l (l ++ r)%list = Some r.
  Proof.
    induction l as [|a l IH]; cbn; [reflexivity|].
    now rewrite String.eqb_refl.
  Qed.

  (** When the stripped string does not begin with a slash, the resolved
      path lies under the root. *)
Lemma sandbox_path_confined rel :
    starts_with slash (remove_dotdot rel) = false ->
    sandbox_path script_dir rel =
      {| anchor := "/";
         parts := (parts (SANDBOX_ROOT script_dir)
                   ++ parts (parse_path (remove_dotdot rel)))%list |} /\
    is_relative_to (sandbox_path script_dir rel) (SANDBOX_ROOT script_dir) = true.
  Proof.
    intros H.
    assert (Hroot : anchor (parse_path (remove_dotdot rel)) = "").
    { cbn. unfold root_of. destruct (remove_dotdot rel) as [|c s]; [reflexivity|].
      cbn in *. now rewrite H. }
    assert (Heq : sandbox_path script_dir rel =
      {| anchor := "/";
         parts := (parts (SANDBOX_ROOT script_dir)
                   ++ parts (parse_path (remove_dotdot rel)))%list |}).
    { unfold sandbox_path, joinpath. now rewrite Hroot. }
    split; [exact Heq|].
    rewrite Heq. unfold is_relative_to, relative_to.
    rewrite SANDBOX_ROOT_eq. cbn [anchor parts].
    now rewrite strip_prefix_app.
  Qed.

End Confinement.

(** C1 (path confinement).  The spec's own input ["../../etc/passwd"] loses
    its two markers and becomes ["//etc/passwd"], an anchored path: joined
    to the root it replaces it, so the resolved path is [//etc/passwd],
    which is not relative to the sandbox root and whose location is not
    below it, wherever the script is installed. *)
Theorem sandbox_path_escapes_root (script_dir : list string) :
  remove_dotdot "../../etc/passwd" = "//etc/passwd" /\
  sandbox_path script_dir "../../etc/passwd"
    = {| anchor := "//"; parts := ["etc"; "passwd"] |} /\
  is_relative_to (sandbox_path script_dir "../../etc/passwd")
                 (SANDBOX_ROOT script_dir) = false /\
  below (fs_key (SANDBOX_ROOT script_dir))
        (fs_key (sandbox_path script_dir "../../etc/passwd")) = false.
Proof.
  split; [reflexivity|]. split; [reflexivity|]. split; [reflexivity|].
  change (below (script_dir ++ ["sandbox"])%list ["etc"; "passwd"] = false).
  unfold below.
  destruct script_dir as [|a l]; [reflexivity|].
  replace (length ((a :: l) ++ ["sandbox"])%list <? length ["etc"; "passwd"])%nat
    with false; [apply andb_false_r|].
  symmetry. apply Nat.ltb_ge. rewrite length_app. cbn. lia.
Qed.


(** * The dispatcher *)

(** Under distinct keys, the item that a message holds is the one that
    [get] finds. *)
Lemma items_get_field (items : list (string * pyval)) (key : string) (v : pyval) :
  NoDup items.*1 -> field_is items key v -> default PNone (items_get key items) = v.
Proof.
  intros Hnd [Hin | [Hout ->]].
  - induction items as [|[k' v'] items IH]; [now apply not_elem_of_nil in Hin|].
    cbn [fmap list_fmap fst] in Hnd. apply NoDup_cons in Hnd as [Hk Hnd].
    cbn [items_get]. apply elem_of_cons in Hin as [[= <- <-] | Hin].
    + now rewrite String.eqb_refl.
    + destruct (String.eqb_spec key k') as [->|_]; [|now apply IH].
      exfalso. apply Hk. apply list_elem_of_fmap. now exists (k', v).
  - induction items as [|[k' v'] items IH]; [reflexivity|].
    cbn [fmap list_fmap fst] in Hout. apply not_elem_of_cons in Hout as [Hne Hout].
    cbn [items_get]. destruct (String.eqb_spec key k') as [->|_]; [congruence|].
    apply IH; [|exact Hout]. cbn [fmap list_fmap fst] in Hnd.
    now apply NoDup_cons in Hnd as [_ Hnd].
Qed.

Section Dispatcher.

Variable script_dir : list string.
Variable mkdir_depth : nat.
Variable py_exec : string -> filesystem -> exec_run.
Variable collaborator : string -> pyval -> result pyval.
Variable repr_other : pyval -> string.

Local Abbreviation handle_call :=
    (handle_call_tool script_dir mkdir_depth py_exec collaborator repr_other).
Local Abbreviation step := (dispatch script_dir mkdir_depth py_exec collaborator repr_other).
Local Abbreviation loop := (main_loop script_dir mkdir_depth py_exec collaborator repr_other).
Local Abbreviation registry := (TOOLS script_dir mkdir_depth py_exec collaborator).

Lemma send_message_ok msg w :
    serialisable msg = true -> send_message msg w = (Returns, push w msg).
  Proof. intros H. unfold send_message. now rewrite H. Qed.

Lemma send_message_cases msg w :
    (send_message msg w = (Returns, push w msg)) \/
    (exists e, send_message msg w = (Propagates e, w) /\ is_Exception e = true).
  Proof.
    unfold send_message. destruct (serialisable msg); [now left|].
    right. eexists. split; reflexivity.
  Qed.

Lemma serialisable_response id field body :
    serialisable (response id field body) = (serialisable id && serialisable body)%bool.
  Proof. cbn. now rewrite andb_true_r. Qed.

  (** One turn of the loop. *)
Lemma main_loop_step line rest w :
    loop (line :: rest) w =
      match read_message (Some line) with
      | Raise e => (Crashed e, w)
      | Return None => (Finished, w)
      | Return (Some msg) =>
          match step msg w with
          | (Propagates e, w') => (Crashed e, w')
          | (Returns, w') => loop rest w'
          end
      end.
  Proof. reflexivity. Qed.

  (** C3 (malformed input).  [read_message] returns [None] for a line
      that does not parse, as it does at end of stream, and [main_loop]
      leaves its loop on [None]: the lines after a malformed one are never
      read.  The same request is answered when it comes first. *)
Theorem malformed_line_stops_service text rest w :
    loop (Malformed text :: rest) w = (Finished, w) /\
    loop [Malformed "not json";
          Message (request (PInt 1) "initialize" (PDict []))] w = (Finished, w) /\
    exists r, loop [Message (request (PInt 1) "initialize" (PDict []))] w
              = (Finished, push w r).
  Proof.
    split; [reflexivity|]. split; [reflexivity|].
    eexists. reflexivity.
  Qed.

  (** A blank line ends the loop in the same way. *)
Lemma blank_line_stops_service rest w : loop (Blank :: rest) w = (Finished, w).
  Proof. reflexivity. Qed.

  (** A fault of [readline], or one of [json.loads] that is no
      [JSONDecodeError], leaves [read_message] and ends the process. *)
Lemma failing_line_ends_process e rest w : loop (Failing e :: rest) w = (Crashed e, w).
  Proof. reflexivity. Qed.

Lemma handle_call_unknown id d w :
    let name := default PNone (items_get "name" d) in
    hashable name = true ->
    (forall s, name = PStr s -> tools_get s registry = None) ->
    serialisable id = true ->
    handle_call id (PDict d) w =
      (Returns,
       push w (response id "error"
                 (rpc_error (-32601) ("Unknown tool: " +:+ py_str repr_other name)))).
  Proof.
    intros name Hh Hn Hid. unfold handle_call_tool.
    py_simpl.
    fold name.
    assert (Hl : tools_lookup script_dir mkdir_depth py_exec collaborator name = Return None).
    { destruct name eqn:E; try reflexivity; try discriminate.
      unfold tools_lookup. now rewrite (Hn s eq_refl). }
    rewrite Hl. apply send_message_ok.
    rewrite serialisable_response, Hid. reflexivity.
  Qed.

Lemma dispatch_call id method params w :
    method = "tools/call" \/ method = "call_tool" ->
    step (request id method params) w = handle_call id (py_or params (PDict [])) w.
  Proof. intros [-> | ->]; reflexivity. Qed.

Lemma py_or_dict d : py_or (PDict d) (PDict []) = PDict d.
  Proof. destruct d; reflexivity. Qed.


  (** A list or a dict as [name] cannot be hashed: the membership test
      raises outside the [try], and nothing is sent. *)
Lemma unhashable_name_propagates id d w :
    hashable (default PNone (items_get "name" d)) = false ->
    exists e, handle_call id (PDict d) w = (Propagates e, w).
  Proof.
    intros H. unfold handle_call_tool.
    py_simpl.
    destruct (default PNone (items_get "name" d)); try discriminate;
      eexists; reflexivity.
  Qed.

Lemma handle_call_raised id d s tool e w1 w :
    items_get "name" d = Some (PStr s) ->
    tools_get s registry = Some tool ->
    tool (default (PDict []) (items_get "arguments" d)) w = (Raise e, w1, None) ->
    handle_call id (PDict d) w =
      if is_Exception e then
        send_message
          (response id "error"
             (rpc_error_data (-32000) ("Tool error: " +:+ exc_str e) (format_exc e)))
          w1
      else (Propagates e, w1).
  Proof.
    intros Hn Ht Hr. unfold handle_call_tool.
    py_simpl.
    rewrite Hn. change (default PNone (Some (PStr s))) with (PStr s).
    unfold tools_lookup. rewrite Ht, Hr. reflexivity.
  Qed.

Lemma handle_call_returned id d s tool result w1 w :
    items_get "name" d = Some (PStr s) ->
    tools_get s registry = Some tool ->
    tool (default (PDict []) (items_get "arguments" d)) w = (Return result, w1, None) ->
    serialisable id = true ->
    serialisable result = true ->
    handle_call id (PDict d) w = (Returns, push w1 (response id "result" result)).
  Proof.
    intros Hn Ht Hr Hid Hres. unfold handle_call_tool.
    py_simpl.
    rewrite Hn. change (default PNone (Some (PStr s))) with (PStr s).
    unfold tools_lookup. rewrite Ht, Hr. cbn [send_after].
    rewrite send_message_ok; [reflexivity|].
    rewrite serialisable_response, Hid, Hres. reflexivity.
  Qed.

  (** A handler that has broken standard output: neither response can be
      written, and the call is left by the fault of the write, or by the
      fault of the handler when that is outside [Exception]. *)
Lemma broken_output_leaves_call id d s tool r w1 e0 w :
    items_get "name" d = Some (PStr s) ->
    tools_get s registry = Some tool ->
    tool (default (PDict []) (items_get "arguments" d)) w = (r, w1, Some e0) ->
    serialisable id = true ->
    handle_call id (PDict d) w =
      (Propagates match r with
                  | Raise e1 => if is_Exception e1 then e0 else e1
                  | Return _ => e0
                  end, w1).
  Proof.
    intros Hn Ht Hr Hid. unfold handle_call_tool.
    py_simpl.
    rewrite Hn. change (default PNone (Some (PStr s))) with (PStr s).
    unfold tools_lookup. rewrite Ht, Hr. cbn [send_after].
    assert (Hserr : forall e : exn,
               serialisable
                 (response id "error"
                    (rpc_error_data (-32000) ("Tool error: " +:+ exc_str e)
                       (format_exc e))) = true)
      by (intros e; rewrite serialisable_response, Hid; reflexivity).
    destruct r as [res|e1].
    - destruct (serialisable (response id "result" res)).
      + destruct (is_Exception e0); [rewrite Hserr|]; reflexivity.
      + cbn [is_Exception ordinary exc_kind_of]. now rewrite Hserr.
    - destruct (is_Exception e1); [rewrite Hserr|]; reflexivity.
  Qed.

  (** C2 (handler faults), as amended.  When the handler of a registered
      tool raises an instance of [Exception], the request is answered by
      one error response with code -32000 whose message is
      ["Tool error: "] followed by [str(e)] and whose data is the formatted
      traceback, written after whatever the handler did, and the loop goes
      on with the next line.  The handler has left standard output as the
      stream that it was. *)
Theorem handler_fault_becomes_error id d s tool e w1 method rest w :
    let arguments := default (PDict []) (items_get "arguments" d) in
    let answer :=
      response id "error"
        (rpc_error_data (-32000) ("Tool error: " +:+ exc_str e) (format_exc e)) in
    let w' := push w1 answer in
    (method = "tools/call" \/ method = "call_tool") ->
    items_get "name" d = Some (PStr s) ->
    tools_get s registry = Some tool ->
    tool arguments w = (Raise e, w1, None) ->
    is_Exception e = true ->
    serialisable id = true ->
    step (request id method (PDict d)) w = (Returns, w') /\
    loop (Message (request id method (PDict d)) :: rest) w = loop rest w'.
  Proof.
    intros arguments answer w' Hm Hn Ht Hr He Hid.
    assert (Hstep : step (request id method (PDict d)) w = (Returns, w')).
    { rewrite (dispatch_call _ _ _ _ Hm), py_or_dict.
      rewrite (handle_call_raised id d s tool e w1 w Hn Ht Hr), He.
      rewrite send_message_ok; [reflexivity|].
      rewrite serialisable_response, Hid. reflexivity. }
    split; [exact Hstep|].
    rewrite main_loop_step.
    change (read_message (Some (Message (request id method (PDict d)))))
      with (Return (Some (request id method (PDict d)))).
    cbv beta iota. now rewrite Hstep.
  Qed.

Lemma append_nonempty s t : t <> "" -> s +:+ t <> "".
  Proof. destruct s; cbn; [auto | discriminate]. Qed.

Lemma format_exc_nonempty e : format_exc e <> "".
  Proof. discriminate. Qed.

Local Abbreviation after_script := (script_world py_exec).

Lemma run_sandboxed_python_world code w :
    snd (fst (run_sandboxed_python py_exec code w)) = after_script code w.
  Proof. reflexivity. Qed.

Lemma run_sandboxed_python_raised code e out err w :
    let r := py_exec code (files w) in
    run_raised r = Some e ->
    is_Exception e = true ->
    run_stdout r = Some out ->
    run_stderr r = Some err ->
    run_sandboxed_python py_exec code w =
      (Return (PDict [("stdout", PStr out);
                      ("stderr", PStr (err +:+ format_exc e));
                      ("result", default PNone (items_get "result" (run_locals r)))]),
       after_script code w, run_broken r).
  Proof.
    intros r Hr He Ho Hs. unfold run_sandboxed_python, getvalues. fold r.
    now rewrite Hr, He, Hs, Ho.
  Qed.

Lemma tool_run_python_code code w :
    tool_run_python py_exec (PDict [("code", PStr code)]) w =
      run_sandboxed_python py_exec code w.
  Proof.
    unfold tool_run_python.
    py_simpl.
    destruct code; reflexivity.
  Qed.

  (** C4 (script faults), as amended.  When a script ends by raising an
      instance of [Exception] and has left both buffers open, the engine
      returns a result object whose stderr is what the script wrote there
      followed by the traceback, hence not empty, and whose result is the
      value that the script had bound to [result] when it faulted, null
      when it had bound none.  When that value and the request id are
      serialisable and the script has left the standard output of the
      process open, the call is answered by a success response. *)
Theorem faulting_script_is_captured code e out err id w :
    let r := py_exec code (files w) in
    let value := default PNone (items_get "result" (run_locals r)) in
    let stderr := err +:+ format_exc e in
    let answer :=
      PDict [("stdout", PStr out); ("stderr", PStr stderr); ("result", value)] in
    run_raised r = Some e ->
    is_Exception e = true ->
    run_stdout r = Some out ->
    run_stderr r = Some err ->
    run_sandboxed_python py_exec code w
      = (Return answer, after_script code w, run_broken r) /\
    stderr <> "" /\
    (items_get "result" (run_locals r) = None -> value = PNone) /\
    (serialisable id = true -> serialisable value = true -> run_broken r = None ->
     step (call_request id "run_python" (PDict [("code", PStr code)])) w
       = (Returns, push (after_script code w) (response id "result" answer))).
  Proof.
    intros r value stderr answer Hr He Ho Hs.
    pose proof (run_sandboxed_python_raised code e out err w Hr He Ho Hs) as Hrun.
    split; [exact Hrun|].
    split; [apply append_nonempty, format_exc_nonempty|].
    split; [intros H; subst value; now rewrite H|].
    intros Hid Hv Hb. fold r in Hrun. rewrite Hb in Hrun. unfold call_request.
    rewrite (dispatch_call _ _ _ _ (or_introl eq_refl)), py_or_dict.
    apply (handle_call_returned id
             [("name", PStr "run_python");
              ("arguments", PDict [("code", PStr code)])]
             "run_python" (tool_run_python py_exec)
             answer (after_script code w) w eq_refl eq_refl).
    - change (default (PDict []) (items_get "arguments" _))
        with (PDict [("code", PStr code)]).
      now rewrite tool_run_python_code, Hrun.
    - exact Hid.
    - subst answer. cbn. now rewrite Hv.
  Qed.

Lemma getvalues_not_parameter_fault r stderr :
    getvalues r stderr <> Raise code_must_be_string.
  Proof.
    unfold getvalues. destruct (run_stdout r), stderr; discriminate.
  Qed.

Lemma run_sandboxed_python_not_parameter_fault code w w' broken :
    run_sandboxed_python py_exec code w <> (Raise code_must_be_string, w', broken).
  Proof.
    unfold run_sandboxed_python. intros [= H _ _]. revert H.
    destruct (run_raised (py_exec code (files w))) as [e|];
      [|apply getvalues_not_parameter_fault].
    destruct (is_Exception e) eqn:He.
    - destruct (run_stderr (py_exec code (files w)));
        [apply getvalues_not_parameter_fault | discriminate].
    - intros [= ->]. discriminate.
  Qed.

  (** C10 (falsy code argument), as amended.  When [code] is falsy and
      [python] is absent or falsy too, the empty script is run and the
      call returns empty stdout, empty stderr and a null result.  The
      "code must be a string" fault is raised only when the value selected
      by [code or python] is truthy and no string. *)
Theorem falsy_code_runs_empty_script d w :
    let c := default PNone (items_get "code" d) in
    let p := default PNone (items_get "python" d) in
    py_exec "" (files w) = empty_run ->
    truthy c = false ->
    truthy p = false ->
    tool_run_python py_exec (PDict d) w = (Return empty_answer, w, None) /\
    (forall d' w' broken,
       let v := py_or (default PNone (items_get "code" d'))
                      (default PNone (items_get "python" d')) in
       tool_run_python py_exec (PDict d') w = (Raise code_must_be_string, w', broken) ->
       truthy v = true /\ is_str v = false).
  Proof.
    intros c p Hexec Hc Hp. split.
    - unfold tool_run_python.
      py_simpl.
      fold c p. unfold py_or. rewrite Hc, Hp.
      cbn [truthy String.eqb negb]. unfold run_sandboxed_python.
      rewrite Hexec. destruct w as [fs out]. cbn. now rewrite app_nil_r.
    - intros d' w' broken v. unfold tool_run_python.
      py_simpl.
      fold v. unfold py_or at 1.
      destruct (truthy v) eqn:Hv.
      + destruct v; try (intros _; split; reflexivity).
        intros H. now apply run_sandboxed_python_not_parameter_fault in H.
      + cbn [truthy String.eqb negb].
        intros H. now apply run_sandboxed_python_not_parameter_fault in H.
  Qed.

  (** ** What a dispatch writes *)

  (** The handlers of the registry: the engine, a collaborator, or a
      handler of the file store. *)
Lemma registry_cases (s : string) (tool : handler) :
    tools_get s registry = Some tool ->
    (s = "run_python" /\ tool = tool_run_python py_exec) \/
    (exists name : string, tool = tool_collaborator collaborator name) \/
    (s = "write_file" /\ tool = on_files (tool_write_file script_dir mkdir_depth)) \/
    (s = "reset_sandbox" /\ tool = on_files (tool_reset_sandbox script_dir)) \/
    (s = "read_file" /\ tool = on_files (tool_read_file script_dir)) \/
    (s = "list_files" /\ tool = on_files (tool_list_files script_dir)).
  Proof.
    unfold TOOLS. cbn [tools_get].
    repeat match goal with
           | |- context [String.eqb s ?t] =>
               destruct (String.eqb_spec s t) as [->|_];
               [cbv iota; intros [= <-];
                first [ left; split; reflexivity
                      | right; left; eexists; reflexivity
                      | right; right; left; split; reflexivity
                      | right; right; right; left; split; reflexivity
                      | right; right; right; right; left; split; reflexivity
                      | right; right; right; right; right; split; reflexivity ] |]
           end.
    discriminate.
  Qed.

Lemma on_files_sent (tool : file_tool) (args : pyval) (w : world) :
    sent (snd (fst (on_files tool args w))) = sent w.
  Proof. unfold on_files. now destruct (tool args (files w)). Qed.

Lemma on_files_files (tool : file_tool) (args : pyval) (w : world) :
    files (snd (fst (on_files tool args w))) = snd (tool args (files w)).
  Proof. unfold on_files. now destruct (tool args (files w)). Qed.

Lemma tool_run_python_world (args : pyval) (w : world) :
    snd (fst (tool_run_python py_exec args w)) = w \/
    exists code : string,
      snd (fst (tool_run_python py_exec args w)) = after_script code w.
  Proof.
    unfold tool_run_python.
    destruct (py_get_none args "code") as [c|e]; [|now left].
    destruct (py_get_none args "python") as [p|e]; [|now left].
    destruct (py_or (py_or c p) (PStr "")); try (now left).
    right. eexists. reflexivity.
  Qed.

  (** A handler writes no message: only a script adds to standard output,
      and what it adds is its own text. *)
Lemma registry_writes (s : string) (tool : handler) (args : pyval) (w : world) :
    tools_get s registry = Some tool ->
    exists texts : list string,
      sent (snd (fst (tool args w))) = sent w ++ (Written <$> texts).
  Proof.
    intros Ht.
    destruct (registry_cases s tool Ht)
      as [[_ ->] | [[name ->] | [[_ ->] | [[_ ->] | [[_ ->] | [_ ->]]]]]];
      try (exists []; rewrite on_files_sent; cbn; now rewrite app_nil_r).
    - destruct (tool_run_python_world args w) as [-> | [code ->]].
      + exists []. cbn. now rewrite app_nil_r.
      + eexists. reflexivity.
    - exists []. cbn. now rewrite app_nil_r.
  Qed.

Lemma is_response_result (id body : pyval) : is_response (response id "result" body).
  Proof. exists id. left. now exists body. Qed.

Lemma is_response_unknown (id : pyval) (message : string) :
    is_response (response id "error" (rpc_error (-32601) message)).
  Proof. exists id. right. left. now exists message. Qed.

Lemma is_response_fault (id : pyval) (message data : string) :
    is_response (response id "error" (rpc_error_data (-32000) message data)).
  Proof. exists id. right. right. now exists message, data. Qed.

Lemma send_response_answers id field body texts w0 w :
    sent w = sent w0 ++ (Written <$> texts) ->
    is_response (response id field body) ->
    answers id w0 (send_message (response id field body) w).
  Proof.
    intros Hs Hr. unfold send_message.
    destruct (serialisable (response id field body)); cbn.
    - exists texts, field, body. rewrite Hs, <- app_assoc. auto.
    - now exists texts.
  Qed.

Lemma send_response_answers_0 id field body w :
    is_response (response id field body) ->
    answers id w (send_message (response id field body) w).
  Proof.
    apply (send_response_answers id field body []). cbn. now rewrite app_nil_r.
  Qed.

Lemma send_after_answers broken id field body texts w0 w :
    sent w = sent w0 ++ (Written <$> texts) ->
    is_response (response id field body) ->
    answers id w0 (send_after broken (response id field body) w).
  Proof.
    intros Hs Hr. destruct broken as [e|]; [|now apply (send_response_answers _ _ _ texts)].
    cbn [send_after]. destruct (serialisable (response id field body)); now exists texts.
  Qed.

  (** On a broken standard output, [send_message] raises. *)
Lemma send_after_broken e0 msg w :
    exists e, send_after (Some e0) msg w = (Propagates e, w) /\
              (serialisable msg = true -> e = e0) /\
              (serialisable msg = false -> is_Exception e = true).
  Proof.
    cbn [send_after]. destruct (serialisable msg); eexists; split; try reflexivity;
      split; try reflexivity; discriminate.
  Qed.

Lemma handle_call_answers id params w : answers id w (handle_call id params w).
  Proof.
    unfold handle_call_tool.
    destruct (py_get_none params "name") as [name|e];
      [|exists []; cbn; now rewrite app_nil_r].
    destruct (py_get_default params "arguments" (PDict [])) as [args|e];
      [|exists []; cbn; now rewrite app_nil_r].
    destruct (tools_lookup script_dir mkdir_depth py_exec collaborator name) as [[tool|]|e] eqn:El;
      [| apply send_response_answers_0, is_response_unknown
       | exists []; cbn; now rewrite app_nil_r].
    assert (Ht : exists s, tools_get s registry = Some tool).
    { destruct name; try discriminate. exists s. now injection El. }
    destruct Ht as [s Ht].
    destruct (registry_writes s tool args w Ht) as [texts Hw].
    destruct (tool args w) as [[r w1] broken]. cbn [fst snd] in Hw.
    destruct r as [res|e].
    - pose proof (send_after_answers broken id "result" res texts w w1 Hw
                    (is_response_result id res)) as Ha.
      destruct (send_after broken (response id "result" res) w1) as [[|e] w2] eqn:E;
        [exact Ha|].
      assert (w2 = w1) as ->.
      { destruct broken as [e0|]; cbn [send_after] in E.
        - destruct (serialisable (response id "result" res)); now injection E.
        - unfold send_message in E.
          destruct (serialisable (response id "result" res)); now injection E. }
      destruct (is_Exception e); [|exact Ha].
      now apply (send_after_answers _ _ _ _ texts), is_response_fault.
    - destruct (is_Exception e);
        [now apply (send_after_answers _ _ _ _ texts), is_response_fault
        | now exists texts].
  Qed.

Lemma dispatch_method (items : list (string * pyval)) (w : world) :
    let id := default PNone (items_get "id" items) in
    let method := default PNone (items_get "method" items) in
    let params := py_or (default (PDict []) (items_get "params" items)) (PDict []) in
    step (PDict items) w =
      if str_is method "initialize" then handle_initialize id params w
      else if (str_is method "list_tools" || str_is method "tools/list")%bool
      then handle_list_tools script_dir mkdir_depth py_exec collaborator id w
      else if (str_is method "call_tool" || str_is method "tools/call")%bool
      then handle_call id params w
      else send_message
             (response id "error"
                (rpc_error (-32601) ("Unknown method: " +:+ py_str repr_other method))) w.
  Proof. reflexivity. Qed.

Lemma dispatch_answers (items : list (string * pyval)) (w : world) :
    answers (default PNone (items_get "id" items)) w (step (PDict items) w).
  Proof.
    rewrite dispatch_method. cbv zeta.
    destruct (str_is _ "initialize");
      [apply send_response_answers_0, is_response_result|].
    destruct (str_is _ "list_tools" || str_is _ "tools/list")%bool;
      [apply send_response_answers_0, is_response_result|].
    destruct (str_is _ "call_tool" || str_is _ "tools/call")%bool;
      [apply handle_call_answers | apply send_response_answers_0, is_response_unknown].
  Qed.

Local Abbreviation call_fails := (call_left registry).

Lemma handle_call_propagates id params e w w' :
    serialisable id = true ->
    handle_call id params w = (Propagates e, w') ->
    call_fails params w e w'.
  Proof.
    intros Hid. unfold handle_call_tool, call_left.
    destruct params as [|b|z|f|t|l|d|o];
      try (intros _; left; intros d; discriminate).
    py_simpl.
    destruct (default PNone (items_get "name" d)) as [|b|z|f|s|l|d'|o] eqn:En;
      cbn [tools_lookup];
      try (rewrite send_message_ok
             by (rewrite serialisable_response, Hid; reflexivity);
           discriminate);
      try (intros _; right; left; exists d; rewrite En; split; reflexivity).
    destruct (tools_get s registry) as [tool|] eqn:Et.
    2:{ rewrite send_message_ok by (rewrite serialisable_response, Hid; reflexivity).
        discriminate. }
    destruct (tool (default (PDict []) (items_get "arguments" d)) w)
      as [[r w1] broken] eqn:Er.
    assert (Hname : items_get "name" d = Some (PStr s))
      by (destruct (items_get "name" d); [cbn in En; now subst | discriminate]).
    assert (Hserr : forall e0 : exn,
               serialisable
                 (response id "error"
                    (rpc_error_data (-32000) ("Tool error: " +:+ exc_str e0)
                       (format_exc e0))) = true)
      by (intros e0; rewrite serialisable_response, Hid; reflexivity).
    destruct broken as [e0|]; cbn [send_after].
    - intros H.
      assert (Hfinal : e = match r with
                           | Raise e1 => if is_Exception e1 then e0 else e1
                           | Return _ => e0
                           end /\ w' = w1).
      { revert H. destruct r as [res|e1].
        - destruct (serialisable (response id "result" res)).
          + destruct (is_Exception e0); [rewrite Hserr|]; now intros [= <- <-].
          + cbn [is_Exception ordinary exc_kind_of]. rewrite Hserr.
            now intros [= <- <-].
        - destruct (is_Exception e1); [rewrite Hserr|]; now intros [= <- <-]. }
      destruct Hfinal as [He ->].
      right. right. exists d, s, tool, r, (Some e0).
      split; [reflexivity|]. split; [exact Hname|]. split; [exact Et|].
      split; [exact Er|].
      destruct r as [res|e1]; [right; now subst|].
      destruct (is_Exception e1) eqn:He1; subst e; [now right | now left].
    - destruct r as [res|e1].
      + destruct (send_message_cases (response id "result" res) w1)
          as [H | (e2 & H & He2)]; rewrite H; [discriminate|].
        rewrite He2.
        rewrite send_message_ok by apply Hserr.
        discriminate.
      + destruct (is_Exception e1) eqn:He1.
        * rewrite send_message_ok by apply Hserr.
          discriminate.
        * intros [= <- <-]. right. right. exists d, s, tool, (Raise e1), None.
          split; [reflexivity|]. split; [exact Hname|]. split; [exact Et|].
          split; [exact Er|]. now left.
  Qed.

Lemma str_is_call (method : pyval) :
    (str_is method "call_tool" || str_is method "tools/call")%bool = is_call method.
  Proof. destruct method; reflexivity. Qed.


End Dispatcher.

(** * The file system operations *)

Lemma stat_lookup (fs : filesystem) (k : list string) : k <> [] -> stat fs k = fs !! k.
Proof. destruct k; [congruence | reflexivity]. Qed.

Lemma is_file_lookup (fs : filesystem) (k : list string) :
  is_file fs k = true <-> exists c, k <> [] /\ fs !! k = Some (File c).
Proof.
  unfold is_file. destruct k as [|a k]; cbn.
  - split; [discriminate | intros (c & H & _); congruence].
  - destruct (fs !! (a :: k)) as [[c|]|]; split; try discriminate.
    + intros _. exists c. split; [discriminate | reflexivity].
    + reflexivity.
    + intros (c & _ & [=]).
    + intros (c & _ & [=]).
Qed.

Lemma removelast_snoc (l : list string) a : removelast (l ++ [a]) = l.
Proof. apply removelast_last. Qed.

Lemma length_removelast_S (k : list string) :
  k <> [] -> length k = S (length (removelast k)).
Proof.
  induction k as [|a k IH]; [congruence|]. intros _.
  destruct k as [|b k]; [reflexivity|].
  change (removelast (a :: b :: k)) with (a :: removelast (b :: k)).
  cbn [length]. f_equal. apply IH. discriminate.
Qed.

Lemma removelast_not_prefix (k : list string) :
  k <> [] -> ~ k `prefix_of` removelast k.
Proof.
  intros Hk H. apply prefix_length in H.
  rewrite (length_removelast_S k Hk) in H. lia.
Qed.

Lemma snoc_not_prefix (l : list string) a : ~ (l ++ [a]) `prefix_of` l.
Proof.
  intros H. apply prefix_length in H. rewrite length_app in H. cbn in H. lia.
Qed.

Lemma extends_dirs_refl (target : list string) (fs : filesystem) : extends_dirs target fs fs.
Proof. intros k. now left. Qed.

Lemma extends_dirs_insert (target k : list string) (fs : filesystem) :
  fs !! k = None -> k `prefix_of` target -> extends_dirs target fs (<[k := Dir]> fs).
Proof.
  intros Hk Hp k2. destruct (decide (k = k2)) as [<-|Hne].
  - right. rewrite lookup_insert_eq. auto.
  - left. now rewrite lookup_insert_ne.
Qed.

Lemma extends_dirs_trans (t1 t2 : list string) (fs1 fs2 fs3 : filesystem) :
  t1 `prefix_of` t2 ->
  extends_dirs t1 fs1 fs2 -> extends_dirs t2 fs2 fs3 -> extends_dirs t2 fs1 fs3.
Proof.
  intros Hp H12 H23 k.
  destruct (H23 k) as [E23 | (N2 & D3 & P3)], (H12 k) as [E12 | (N1 & D2 & P2)].
  - left. congruence.
  - right. rewrite E23. split; [exact N1|]. split; [exact D2|].
    now transitivity t1.
  - right. rewrite <- E12. auto.
  - congruence.
Qed.

Lemma extends_dirs_is_file (target : list string) (fs fs' : filesystem) (k : list string) :
  extends_dirs target fs fs' -> is_file fs' k = is_file fs k.
Proof.
  intros H. unfold is_file. destruct k as [|a k]; [reflexivity|]. cbn.
  destruct (H (a :: k)) as [-> | (-> & -> & _)]; reflexivity.
Qed.

Lemma extends_dirs_is_dir (target : list string) (fs fs' : filesystem) (k : list string) :
  extends_dirs target fs fs' -> is_dir fs k = true -> is_dir fs' k = true.
Proof.
  intros H. unfold is_dir. destruct k as [|a k]; [auto|]. cbn.
  destruct (H (a :: k)) as [-> | (-> & -> & _)]; auto.
Qed.

Lemma extends_dirs_outside (target : list string) (fs fs' : filesystem) (k : list string) :
  extends_dirs target fs fs' -> ~ k `prefix_of` target -> fs' !! k = fs !! k.
Proof. intros H Hn. destruct (H k) as [E | (_ & _ & P)]; [exact E | tauto]. Qed.

(** Where an entry can be made, the name was not refused, the parent is a
    directory and the last component is within [NAME_MAX]. *)
Lemma create_fault_None (fs : filesystem) (k : list string) :
  create_fault fs k = None ->
  refusal k = None /\ is_dir fs (removelast k) = true /\
  (os_length (List.last k "") <= NAME_MAX)%nat.
Proof.
  unfold create_fault, is_dir. destruct (refusal k); [discriminate|].
  destruct (stat fs (removelast k)) as [[c|]|]; try discriminate.
  destruct (Nat.ltb_spec NAME_MAX (os_length (List.last k ""))); [discriminate|].
  auto.
Qed.

Lemma os_mkdir_inr (k : list string) (fs fs' : filesystem) :
  os_mkdir k fs = inr fs' ->
  fs' = <[k := Dir]> fs /\ fs !! k = None /\ k <> [].
Proof.
  unfold os_mkdir. destruct (stat fs k) eqn:E; [discriminate|].
  destruct (create_fault fs k); [discriminate|]. intros [= <-].
  destruct k as [|a k]; [cbn in E; discriminate|]. auto.
Qed.

Lemma is_dir_insert_dir (k : list string) (fs : filesystem) : is_dir (<[k := Dir]> fs) k = true.
Proof.
  unfold is_dir. destruct k as [|a k]; [reflexivity|]. cbn.
  now rewrite lookup_insert_eq.
Qed.

Lemma is_dir_insert_other (k k2 : list string) (v : node) (fs : filesystem) :
  k <> k2 -> is_dir (<[k := v]> fs) k2 = is_dir fs k2.
Proof.
  intros Hne. unfold is_dir. destruct k2 as [|a k2]; [reflexivity|]. cbn.
  now rewrite lookup_insert_ne.
Qed.

Lemma mkdir_exist_ok_inr (k : list string) (fs fs' : filesystem) :
  mkdir_exist_ok k fs = inr fs' ->
  is_dir fs' k = true /\ extends_dirs k fs fs'.
Proof.
  unfold mkdir_exist_ok. destruct (os_mkdir k fs) as [f|fs2] eqn:E.
  - destruct f as [e| | |]; [|discriminate|discriminate|discriminate].
    destruct e; try discriminate;
      (destruct (is_dir fs k) eqn:D; [|discriminate]);
      intros [= <-]; split; auto using extends_dirs_refl.
  - intros [= <-]. apply os_mkdir_inr in E as (-> & Hk & _).
    split; [apply is_dir_insert_dir | now apply extends_dirs_insert].
Qed.

(** What a successful [mkdir(parents=True, exist_ok=True)] leaves. *)
Lemma mkdir_parents_inr rk :
  forall (depth : nat) (fs fs' : filesystem),
    mkdir_parents depth rk fs = inr fs' ->
    is_dir fs' (rev rk) = true /\ extends_dirs (rev rk) fs fs'.
Proof.
  induction rk as [|a rk IH]; intros [|depth] fs fs'; try discriminate.
  - cbn. intros [= <-]. split; [reflexivity | apply extends_dirs_refl].
  - cbn [mkdir_parents].
    destruct (os_mkdir (rev (a :: rk)) fs) as [f|fs2] eqn:E.
    + destruct f as [e| | |]; [|discriminate|discriminate|discriminate].
      destruct e;
        try (destruct (is_dir fs (rev (a :: rk))) eqn:D; [|discriminate];
             intros [= <-]; split; [exact D | apply extends_dirs_refl]).
      destruct (mkdir_parents depth rk fs) as [[f1 fs1]|fs1] eqn:E1; [discriminate|].
      destruct (mkdir_exist_ok (rev (a :: rk)) fs1) as [f2|fs2] eqn:E2;
        [discriminate|].
      intros [= <-]. apply mkdir_exist_ok_inr in E2 as [Hd He].
      split; [exact Hd|].
      destruct (IH _ _ _ E1) as [_ He1].
      eapply extends_dirs_trans; [|exact He1|exact He].
      cbn. now apply prefix_app_r.
    + intros [= <-]. apply os_mkdir_inr in E as (-> & Hk & _).
      split; [apply is_dir_insert_dir | now apply extends_dirs_insert].
Qed.

(** A call that succeeds had room for itself. *)
Lemma mkdir_parents_room (depth : nat) (rk : list string) (fs fs' : filesystem) :
  mkdir_parents depth rk fs = inr fs' -> depth <> O.
Proof. destruct depth; [destruct rk; discriminate | discriminate]. Qed.

Lemma inits_prefix (a l : list string) : a `prefix_of` l -> a ∈ inits l.
Proof.
  revert a. induction l as [|x l IH]; intros a Ha.
  - apply prefix_nil_inv in Ha as ->. cbn. now left.
  - destruct a as [|y a]; cbn; [now left|].
    right. apply prefix_cons_inv_1 in Ha as Hxy. subst y.
    apply prefix_cons_inv_2 in Ha.
    apply list_elem_of_fmap. exists a. split; [reflexivity | now apply IH].
Qed.

Lemma writable_spec (fs : filesystem) (k : list string) :
  writable fs k = true ->
  (forall a, a `prefix_of` removelast k -> is_file fs a = false) /\
  is_dir fs k = false.
Proof.
  unfold writable. intros H. apply andb_prop in H as [H1 H2].
  split; [|now apply negb_true_iff].
  intros a Ha. rewrite forallb_forall in H1.
  apply negb_true_iff, H1, list_elem_of_In, inits_prefix, Ha.
Qed.

Lemma path_length_app (a b : list string) :
  path_length (a ++ b) = (path_length a + path_length b)%nat.
Proof.
  induction a as [|c a IH]; [reflexivity|]. cbn [app path_length foldr].
  fold (path_length (a ++ b)) (path_length a). rewrite IH. lia.
Qed.

Lemma refusal_None (k : list string) :
  refusal k = None <->
  existsb (fun c => negb (bool_decide (is_Some (fsencode c)))) k = false /\
  existsb has_NUL k = false /\
  (path_length k < PATH_MAX)%nat.
Proof.
  unfold refusal.
  destruct (existsb (fun c => negb (bool_decide (is_Some (fsencode c)))) k);
    [split; [discriminate | intros [[=] _]]|].
  destruct (existsb has_NUL k); [split; [discriminate | intros (_ & [=] & _)]|].
  destruct (Nat.leb_spec PATH_MAX (path_length k)).
  - split; [discriminate | intros (_ & _ & Hlt); lia].
  - split; auto.
Qed.

Lemma refusal_prefix (a k : list string) :
  a `prefix_of` k -> refusal k = None -> refusal a = None.
Proof.
  intros [b ->]. rewrite !refusal_None, !existsb_app, path_length_app.
  intros (H1 & H2 & H3).
  apply orb_false_elim in H1 as [H1 _]. apply orb_false_elim in H2 as [H2 _].
  repeat split; [exact H1 | exact H2 | lia].
Qed.

Lemma accepted_spec (k : list string) :
  accepted k = true <->
  refusal k = None /\ forallb (fun c => (os_length c <=? NAME_MAX)%nat) k = true.
Proof.
  unfold accepted. rewrite andb_true_iff, bool_decide_eq_true. reflexivity.
Qed.

Lemma accepted_prefix (a k : list string) :
  a `prefix_of` k -> accepted k = true -> accepted a = true.
Proof.
  intros Hp. rewrite !accepted_spec. intros [H1 H2].
  split; [exact (refusal_prefix _ _ Hp H1)|].
  destruct Hp as [b ->]. rewrite forallb_app in H2.
  now apply andb_prop in H2 as [H2 _].
Qed.

Lemma snoc_nonempty (l : list string) a : l ++ [a] <> [].
Proof. intros H. now apply app_nil in H as [_ [=]]. Qed.

(** Where no file is in the way and the names are short, a walk can only
    end at a missing entry. *)
Lemma walk_error_short (fs : filesystem) (rest : list string) :
  forall dir : list string,
    (forall a, a `prefix_of` dir ++ rest -> is_file fs a = false) ->
    forallb (fun c => (os_length c <=? NAME_MAX)%nat) rest = true ->
    walk_error fs dir rest = ENOENT.
Proof.
  induction rest as [|c rest IH]; intros dir Hf Hs; [reflexivity|].
  cbn [forallb] in Hs. apply andb_prop in Hs as [Hc Hs].
  cbn [walk_error]. destruct (fs !! (dir ++ [c])) as [[x|]|] eqn:E.
  - destruct rest as [|c' rest]; [reflexivity|]. exfalso.
    assert (H : is_file fs (dir ++ [c]) = false).
    { apply Hf. exists (c' :: rest). now rewrite <- app_assoc. }
    unfold is_file in H. rewrite (stat_lookup _ _ (snoc_nonempty dir c)), E in H.
    discriminate.
  - apply IH; [|exact Hs]. intros a Ha. apply Hf.
    now rewrite <- app_assoc in Ha.
  - apply Nat.leb_le in Hc.
    destruct (Nat.ltb_spec NAME_MAX (os_length c)); [lia | reflexivity].
Qed.

(** Missing directories are no obstacle: the call succeeds when the name
    is one that the system accepts, neither the target nor one of its
    ancestors is a regular file, and the recursion limit leaves room for
    one call per component. *)
Lemma mkdir_parents_succeeds rk :
  forall (depth : nat) (fs : filesystem),
    (length rk < depth)%nat ->
    accepted (rev rk) = true ->
    (forall a, a `prefix_of` rev rk -> is_file fs a = false) ->
    exists fs', mkdir_parents depth rk fs = inr fs'.
Proof.
  induction rk as [|x rk IH]; intros [|depth] fs Hdepth Hacc Hfiles;
    try (cbn in Hdepth; lia).
  - exists fs. reflexivity.
  - cbn [mkdir_parents].
    assert (Hself : is_file fs (rev (x :: rk)) = false) by now apply Hfiles.
    assert (Hpre : rev rk `prefix_of` rev (x :: rk))
      by (cbn; now apply prefix_app_r).
    assert (Hpar : removelast (rev (x :: rk)) = rev rk)
      by (cbn; apply removelast_snoc).
    assert (Hlast : List.last (rev (x :: rk)) "" = x) by (cbn; apply last_last).
    pose proof (accepted_prefix _ _ Hpre Hacc) as Hacc'.
    apply accepted_spec in Hacc as [Href Hshort].
    assert (Hx : (os_length x <= NAME_MAX)%nat).
    { cbn [rev] in Hshort. rewrite forallb_app in Hshort.
      apply andb_prop in Hshort as [_ Hshort]. cbn in Hshort.
      rewrite andb_true_r in Hshort. now apply Nat.leb_le. }
    assert (Hcreate : forall fs1 : filesystem,
               is_dir fs1 (rev rk) = true -> create_fault fs1 (rev (x :: rk)) = None).
    { intros fs1 Hd. unfold create_fault. rewrite Href, Hpar.
      unfold is_dir in Hd. destruct (stat fs1 (rev rk)) as [[c|]|]; try discriminate.
      rewrite Hlast. destruct (Nat.ltb_spec NAME_MAX (os_length x)); [lia|reflexivity]. }
    unfold os_mkdir at 1.
    destruct (stat fs (rev (x :: rk))) as [[c|]|] eqn:Es.
    + unfold is_file in Hself. now rewrite Es in Hself.
    + unfold is_dir. rewrite Es. now exists fs.
    + destruct (is_dir fs (rev rk)) eqn:Ed.
      * rewrite (Hcreate fs Ed). eauto.
      * assert (Hwalk : create_fault fs (rev (x :: rk)) = Some (Errno ENOENT)).
        { unfold create_fault. rewrite Href, Hpar.
          unfold is_dir in Ed. destruct (stat fs (rev rk)) as [[c|]|] eqn:Ep.
          - assert (Hf : is_file fs (rev rk) = false) by now apply Hfiles.
            unfold is_file in Hf. now rewrite Ep in Hf.
          - discriminate.
          - rewrite walk_error_short; [reflexivity | |].
            + intros a Ha. apply Hfiles. cbn [app] in Ha.
              now transitivity (rev rk).
            + now apply accepted_spec in Hacc' as [_ H]. }
        rewrite Hwalk.
        destruct (IH depth fs ltac:(cbn in Hdepth; lia) Hacc') as [fs1 H1].
        { intros a Ha. apply Hfiles. now transitivity (rev rk). }
        rewrite H1. destruct (mkdir_parents_inr _ _ _ _ H1) as [Hd He].
        unfold mkdir_exist_ok, os_mkdir.
        assert (Hs1 : stat fs1 (rev (x :: rk)) = None).
        { assert (Hne : rev (x :: rk) <> []) by (cbn; apply snoc_nonempty).
          rewrite (stat_lookup _ _ Hne).
          rewrite (extends_dirs_outside _ _ _ _ He).
          - now rewrite <- (stat_lookup _ _ Hne).
          - cbn. apply snoc_not_prefix. }
        rewrite Hs1, (Hcreate fs1 Hd). eauto.
Qed.

Lemma os_write_inr (k : list string) (c : string) (fs fs' : filesystem) :
  os_write k c fs = inr fs' ->
  fs' = <[k := File c]> fs /\ k <> [] /\ fs !! k <> Some Dir.
Proof.
  unfold os_write. destruct (stat fs k) as [[c'|]|] eqn:E; try discriminate.
  - intros [= <-]. destruct k as [|a k]; [discriminate|]. cbn in E.
    repeat split; congruence.
  - destruct (create_fault fs k); [discriminate|]. intros [= <-].
    destruct k as [|a k]; [cbn in E; discriminate|]. cbn in E.
    repeat split; congruence.
Qed.

Lemma universal_newlines_id s : has_CR s = false -> universal_newlines s = s.
Proof.
  induction s as [|a s IH]; [reflexivity|].
  cbn [has_CR]. intros H. apply orb_false_elim in H as [Ha Hs].
  destruct s as [|b rest].
  - cbn. now rewrite Ha.
  - change (universal_newlines (String a (String b rest)))
      with (if Ascii.eqb a CR
            then if Ascii.eqb b LF then String LF (universal_newlines rest)
                 else String LF (universal_newlines (String b rest))
            else String a (universal_newlines (String b rest))).
    rewrite Ha. now rewrite (IH Hs).
Qed.

(** * The file store *)

Section FileStore.

Variable script_dir : list string.
Variable mkdir_depth : nat.

Local Abbreviation root := (SANDBOX_ROOT script_dir).
Local Abbreviation resolve := (sandbox_path script_dir).
Local Abbreviation write_file := (tool_write_file script_dir mkdir_depth).
Local Abbreviation read_file := (tool_read_file script_dir).
Local Abbreviation list_files := (tool_list_files script_dir).
Local Abbreviation reset := (tool_reset_sandbox script_dir).

Lemma write_file_eq (path content : string) (fs : filesystem) :
    write_file (write_request path content) fs =
      match mkdir_parents mkdir_depth (rev (removelast (fs_key (resolve path)))) fs with
      | inl (f, fs1) => (Raise (fault_exn f), fs1)
      | inr fs1 =>
          if has_surrogate content then
            match os_write (fs_key (resolve path)) "" fs1 with
            | inr fs2 => (Raise encode_error, fs2)
            | inl f => (Raise (fault_exn f), fs1)
            end
          else
            match os_write (fs_key (resolve path)) content fs1 with
            | inr fs2 => (Return ok_true, fs2)
            | inl f => (Raise (fault_exn f), fs1)
            end
      end.
  Proof.
    unfold tool_write_file, write_request.
    py_simpl.
    change (fs_key (parent (resolve path))) with (removelast (fs_key (resolve path))).
    destruct (mkdir_parents _ _ fs) as [[f fs1]|fs1]; [reflexivity|].
    unfold write_text. destruct (has_surrogate content).
    - destruct (os_write _ "" fs1); reflexivity.
    - destruct (os_write _ content fs1); reflexivity.
  Qed.

Lemma write_file_inv (path content : string) (fs : filesystem) (r : pyval) (fs' : filesystem) :
    write_file (write_request path content) fs = (Return r, fs') ->
    r = ok_true /\
    exists fs1,
      mkdir_parents mkdir_depth (rev (removelast (fs_key (resolve path)))) fs
        = inr fs1 /\
      os_write (fs_key (resolve path)) content fs1 = inr fs'.
  Proof.
    rewrite write_file_eq.
    destruct (mkdir_parents _ _ fs) as [[f fs1]|fs1]; [discriminate|].
    destruct (has_surrogate content).
    - destruct (os_write _ "" fs1); discriminate.
    - destruct (os_write _ content fs1) as [e|fs2] eqn:E; [discriminate|].
      intros [= <- <-]. eauto.
  Qed.

  (** Only text that UTF-8 can encode is acknowledged. *)
Lemma write_file_encodable (path content : string) (fs : filesystem) (r : pyval)
        (fs' : filesystem) :
    write_file (write_request path content) fs = (Return r, fs') ->
    has_surrogate content = false.
  Proof.
    rewrite write_file_eq.
    destruct (mkdir_parents _ _ fs) as [[f fs1]|fs1]; [discriminate|].
    destruct (has_surrogate content); [|reflexivity].
    destruct (os_write _ "" fs1); discriminate.
  Qed.

Lemma read_file_stored (path content : string) (fs : filesystem) :
    fs_key (resolve path) <> [] ->
    fs !! fs_key (resolve path) = Some (File content) ->
    read_file (read_request path) fs =
      (Return (read_answer (universal_newlines content)), fs).
  Proof.
    intros Hk Hl. unfold tool_read_file, read_request.
    py_simpl.
    unfold path_exists, path_is_file, read_text.
    rewrite (stat_lookup _ _ Hk), Hl. reflexivity.
  Qed.

  (** A write that is acknowledged is read back, up to the newline
      translation of text mode. *)
Lemma write_read_core (path content : string) (fs : filesystem) (r : pyval) (fs' : filesystem) :
    write_file (write_request path content) fs = (Return r, fs') ->
    read_file (read_request path) fs' =
      (Return (read_answer (universal_newlines content)), fs').
  Proof.
    intros H. apply write_file_inv in H as (_ & fs1 & _ & Hw).
    apply os_write_inr in Hw as (-> & Hk & _).
    apply read_file_stored; [exact Hk | apply lookup_insert_eq].
  Qed.

Lemma write_file_succeeds (path content : string) (fs : filesystem) :
    (length (fs_key (resolve path)) <= mkdir_depth)%nat ->
    accepted (fs_key (resolve path)) = true ->
    writable fs (fs_key (resolve path)) = true ->
    has_surrogate content = false ->
    exists fs', write_file (write_request path content) fs = (Return ok_true, fs') /\
                is_dir fs' (removelast (fs_key (resolve path))) = true.
  Proof.
    intros Hdepth Hacc H Hc. apply writable_spec in H as [Hanc Hdir].
    set (k := fs_key (resolve path)) in *.
    assert (Hk : k <> []) by (intros E; rewrite E in Hdir; discriminate).
    assert (Hpre : removelast k `prefix_of` k).
    { exists [List.last k ""]. now apply app_removelast_last. }
    destruct (mkdir_parents_succeeds (rev (removelast k)) mkdir_depth fs) as [fs1 H1].
    { rewrite length_rev. rewrite (length_removelast_S k Hk) in Hdepth. lia. }
    { rewrite rev_involutive. exact (accepted_prefix _ _ Hpre Hacc). }
    { rewrite rev_involutive. exact Hanc. }
    destruct (mkdir_parents_inr _ _ _ _ H1) as [Hd He].
    rewrite rev_involutive in Hd, He.
    rewrite write_file_eq. fold k. rewrite H1, Hc.
    assert (Hne : k <> removelast k).
    { intros E. apply (f_equal length) in E.
      rewrite (length_removelast_S k Hk) in E. lia. }
    assert (Hl : fs1 !! k = fs !! k).
    { apply (extends_dirs_outside _ _ _ _ He), removelast_not_prefix, Hk. }
    assert (Hnd : fs1 !! k <> Some Dir).
    { rewrite Hl. intros E. unfold is_dir in Hdir.
      rewrite (stat_lookup _ _ Hk), E in Hdir. discriminate. }
    exists (<[k := File content]> fs1). split.
    - unfold os_write. rewrite (stat_lookup _ _ Hk).
      destruct (fs1 !! k) as [[c|]|]; [reflexivity | congruence |].
      unfold create_fault. apply accepted_spec in Hacc as [Href Hshort].
      rewrite Href. unfold is_dir in Hd.
      destruct (stat fs1 (removelast k)) as [[c|]|]; try discriminate.
      assert (Hlast : (os_length (List.last k "") <= NAME_MAX)%nat).
      { rewrite (app_removelast_last "" Hk), forallb_app in Hshort.
        apply andb_prop in Hshort as [_ Hshort]. cbn in Hshort.
        rewrite andb_true_r in Hshort. now apply Nat.leb_le. }
      destruct (Nat.ltb_spec NAME_MAX (os_length (List.last k ""))); [lia | reflexivity].
    - rewrite is_dir_insert_other; [exact Hd | exact Hne].
  Qed.


  (** C9 (aliasing).  Two caller paths that are equal once every [".."]
      is removed resolve to the same path: a write through either has the
      same effect, what is written through one is read back through the
      other, and a successful read returns the same through both. *)
Theorem stripped_equal_paths_alias (p1 p2 : string) :
    remove_dotdot p1 = remove_dotdot p2 ->
    resolve p1 = resolve p2 /\
    (forall (content : string) (fs : filesystem),
        write_file (write_request p1 content) fs
        = write_file (write_request p2 content) fs) /\
    (forall (content : string) (fs : filesystem) (r : pyval) (fs' : filesystem),
        write_file (write_request p1 content) fs = (Return r, fs') ->
        read_file (read_request p2) fs'
        = (Return (read_answer (universal_newlines content)), fs')) /\
    (forall (fs : filesystem) (r : pyval),
        read_file (read_request p1) fs = (Return r, fs) ->
        read_file (read_request p2) fs = (Return r, fs)).
  Proof.
    intros H.
    assert (Hres : resolve p1 = resolve p2) by (unfold sandbox_path; now rewrite H).
    split; [exact Hres|].
    assert (Hw : forall (content : string) (fs : filesystem),
               write_file (write_request p1 content) fs
               = write_file (write_request p2 content) fs).
    { intros content fs. now rewrite !write_file_eq, Hres. }
    split; [exact Hw|]. split.
    - intros content fs r fs' H1. rewrite Hw in H1.
      exact (write_read_core _ _ _ _ _ H1).
    - intros fs r. unfold tool_read_file, read_request. py_simpl.
      rewrite Hres.
      destruct (path_exists fs (fs_key (resolve p2))) as [[|]|e];
        cbn [negb]; try discriminate.
      destruct (path_is_file fs (fs_key (resolve p2))) as [[|]|e];
        cbn [negb]; try discriminate.
      auto.
  Qed.

End FileStore.

(** * Listing and reset *)

Lemma strip_prefix_is_prefix (pre l : list string) :
  is_prefix pre l = true -> strip_prefix pre l = Some (drop (length pre) l).
Proof.
  revert l. induction pre as [|a pre IH]; intros l; [reflexivity|].
  destruct l as [|b l]; [discriminate|]. cbn.
  destruct (String.eqb a b); [apply IH | discriminate].
Qed.

Lemma strip_prefix_Some (pre l rest : list string) :
  strip_prefix pre l = Some rest -> l = pre ++ rest /\ is_prefix pre l = true.
Proof.
  revert l. induction pre as [|a pre IH]; intros l; cbn.
  - intros [= ->]. auto.
  - destruct l as [|b l]; [discriminate|].
    destruct (String.eqb_spec a b) as [->|]; [|discriminate].
    intros H. apply IH in H as [-> H]. auto.
Qed.

Lemma is_prefix_app (pre rest : list string) : is_prefix pre (pre ++ rest) = true.
Proof.
  induction pre as [|a pre IH]; [reflexivity|]. cbn.
  now rewrite String.eqb_refl.
Qed.

Lemma is_prefix_drop (pre l : list string) :
  is_prefix pre l = true -> l = pre ++ drop (length pre) l.
Proof.
  intros H. apply strip_prefix_is_prefix in H.
  now apply strip_prefix_Some in H as [H _].
Qed.

Lemma keys_elem (fs : filesystem) (k : list string) :
  k ∈ (fst <$> map_to_list fs) <-> is_Some (fs !! k).
Proof.
  rewrite list_elem_of_fmap. split.
  - intros ([k' n] & -> & H). apply elem_of_map_to_list in H. now exists n.
  - intros [n H]. exists (k, n). split; [reflexivity|].
    now apply elem_of_map_to_list.
Qed.

Lemma is_file_delete (k k' : list string) (fs : filesystem) :
  is_file (delete k fs) k' = (is_file fs k' && negb (bool_decide (k = k')))%bool.
Proof.
  unfold is_file. destruct k' as [|a k']; [reflexivity|]. cbn.
  case_bool_decide as E.
  - rewrite E, lookup_delete_eq. now rewrite andb_false_r.
  - rewrite lookup_delete_ne by exact E. now rewrite andb_true_r.
Qed.

Lemma is_dir_delete_file (k k' : list string) (fs : filesystem) :
  is_file fs k = true -> is_dir (delete k fs) k' = is_dir fs k'.
Proof.
  intros Hf. apply is_file_lookup in Hf as (c & Hk & Hl).
  unfold is_dir. destruct k' as [|a k']; [reflexivity|]. cbn.
  destruct (decide (k = a :: k')) as [E|E].
  - rewrite <- E, lookup_delete_eq, Hl. reflexivity.
  - now rewrite lookup_delete_ne.
Qed.

Section Listing.

Variable script_dir : list string.
Variable mkdir_depth : nat.

Local Abbreviation root := (SANDBOX_ROOT script_dir).
Local Abbreviation resolve := (sandbox_path script_dir).
Local Abbreviation write_file := (tool_write_file script_dir mkdir_depth).
Local Abbreviation list_files := (tool_list_files script_dir).
Local Abbreviation reset := (tool_reset_sandbox script_dir).
Local Abbreviation files_of := (sandbox_files script_dir).
Local Abbreviation name_of := (fun k : list string =>
                                   join_slash (drop (length (fs_key root)) k)).

Lemma unlink_if_file_eq (fs : filesystem) (p : Path) :
    unlink_if_file fs p =
      if is_file fs (fs_key p) then delete (fs_key p) fs else fs.
  Proof.
    unfold unlink_if_file, os_unlink.
    destruct (is_file fs (fs_key p)) eqn:E; [|reflexivity].
    unfold is_file in E. destruct (stat fs (fs_key p)) as [[c|]|]; try discriminate.
    reflexivity.
  Qed.

Lemma reset_loop_is_file (l : list Path) :
    forall (fs : filesystem) (k : list string),
      is_file (foldl unlink_if_file fs l) k = true -> is_file fs k = true.
  Proof.
    induction l as [|p l IH]; intros fs k; [auto|].
    cbn [foldl]. intros H. apply IH in H. rewrite unlink_if_file_eq in H.
    destruct (is_file fs (fs_key p)); [|exact H].
    rewrite is_file_delete in H. now apply andb_prop in H as [H _].
  Qed.

Lemma reset_loop_is_dir (l : list Path) :
    forall (fs : filesystem) (k : list string),
      is_dir (foldl unlink_if_file fs l) k = is_dir fs k.
  Proof.
    induction l as [|p l IH]; intros fs k; [reflexivity|].
    cbn [foldl]. rewrite IH, unlink_if_file_eq.
    destruct (is_file fs (fs_key p)) eqn:E; [|reflexivity].
    now apply is_dir_delete_file.
  Qed.

Lemma reset_loop_deletes (l : list Path) :
    forall (fs : filesystem) (p : Path),
      p ∈ l -> is_file (foldl unlink_if_file fs l) (fs_key p) = false.
  Proof.
    induction l as [|q l IH]; intros fs p Hp.
    - now apply not_elem_of_nil in Hp.
    - cbn [foldl]. apply elem_of_cons in Hp as [->|Hp]; [|now apply IH].
      destruct (is_file (foldl unlink_if_file (unlink_if_file fs q) l) (fs_key q))
        eqn:E; [|reflexivity].
      apply reset_loop_is_file in E. rewrite unlink_if_file_eq in E.
      destruct (is_file fs (fs_key q)) eqn:F; [|congruence].
      rewrite is_file_delete, bool_decide_eq_true_2 in E by reflexivity.
      now rewrite andb_false_r in E.
  Qed.

Lemma sandbox_files_elem (fs : filesystem) (k : list string) :
    k ∈ files_of fs <->
    is_dir fs (fs_key root) = true /\ below (fs_key root) k = true /\
    is_file fs k = true.
  Proof.
    unfold sandbox_files, glob_all.
    destruct (is_dir fs (fs_key root)) eqn:D.
    - rewrite list_elem_of_fmap. split.
      + intros (p & -> & Hp). apply list_elem_of_filter in Hp as [Hf Hp].
        apply list_elem_of_fmap in Hp as (k & -> & Hk).
        apply list_elem_of_filter in Hk as [Hb _]. auto.
      + intros (_ & Hb & Hf).
        exists {| anchor := anchor root; parts := k |}. split; [reflexivity|].
        apply list_elem_of_filter. split; [exact Hf|].
        apply list_elem_of_fmap. exists k. split; [reflexivity|].
        apply list_elem_of_filter. split; [exact Hb|].
        apply keys_elem. apply is_file_lookup in Hf as (c & _ & Hl). eauto.
    - cbn. split; [intros H; now apply not_elem_of_nil in H | intros [[=] _]].
  Qed.

Lemma sandbox_files_NoDup (fs : filesystem) : NoDup (files_of fs).
  Proof.
    unfold sandbox_files, glob_all.
    destruct (is_dir fs (fs_key root)); [|constructor].
    apply NoDup_fmap_2_strong.
    - intros p q Hp Hq E.
      apply list_elem_of_filter in Hp as [_ Hp], Hq as [_ Hq].
      apply list_elem_of_fmap in Hp as (k1 & -> & _), Hq as (k2 & -> & _).
      cbn in E. now subst.
    - apply NoDup_filter, NoDup_fmap_2; [|apply NoDup_filter, NoDup_fst_map_to_list].
      intros k1 k2 [=]. assumption.
  Qed.

  (** After a reset no file is left below the root. *)
Lemma reset_empties (fs : filesystem) :
    files_of (reset_sandbox_dir script_dir fs) = [].
  Proof.
    apply elem_of_nil_inv. intros k Hk.
    apply sandbox_files_elem in Hk as (Hd & Hb & Hf).
    unfold reset_sandbox_dir in *.
    destruct (exists_ fs (fs_key root)) eqn:E.
    - rewrite reset_loop_is_dir in Hd.
      pose proof (reset_loop_is_file _ _ _ Hf) as Hf0.
      assert (Hin : {| anchor := anchor root; parts := k |} ∈ glob_all root fs).
      { unfold glob_all. rewrite Hd.
        apply list_elem_of_fmap. exists k. split; [reflexivity|].
        apply list_elem_of_filter. split; [exact Hb|].
        apply keys_elem. apply is_file_lookup in Hf0 as (c & _ & Hl). eauto. }
      apply (reset_loop_deletes _ fs) in Hin. cbn [fs_key parts] in Hin. congruence.
    - unfold exists_ in E. unfold is_dir in Hd.
      destruct (stat fs (fs_key root)); discriminate.
  Qed.

Lemma below_drop_nonempty (k : list string) :
    below (fs_key root) k = true -> drop (length (fs_key root)) k <> [].
  Proof.
    unfold below. intros H. apply andb_prop in H as [_ H].
    apply Nat.ltb_lt in H. intros E. apply drop_nil_inv in E. lia.
  Qed.

Lemma collect_glob_entry (fs : filesystem) (acc : list pyval) (k : list string) :
    below (fs_key root) k = true ->
    collect script_dir fs (Return acc) {| anchor := anchor root; parts := k |} =
      Return (if is_file fs k then acc ++ [PStr (name_of k)] else acc).
  Proof.
    intros Hb. unfold collect. cbn [mbind result_mbind result_bind fs_key parts].
    destruct (is_file fs k); [|reflexivity].
    pose proof (below_drop_nonempty k Hb) as Hne.
    unfold below in Hb. apply andb_prop in Hb as [Hp _].
    unfold relative_to. cbn [anchor parts]. unfold fs_key in *.
    rewrite String.eqb_refl, (strip_prefix_is_prefix _ _ Hp).
    cbn [mbind result_mbind result_bind mret result_mret].
    unfold as_posix. cbn [anchor parts].
    destruct (drop (length (parts root)) k) eqn:Ed; [congruence|].
    reflexivity.
  Qed.

Lemma collect_loop (fs : filesystem) (ks : list (list string)) :
    forall acc : list pyval,
      Forall (fun k => below (fs_key root) k = true) ks ->
      foldl (collect script_dir fs) (Return acc)
            ((fun k => {| anchor := anchor root; parts := k |}) <$> ks) =
        Return (acc ++ (PStr <$> (name_of <$> filter (fun k => is_file fs k = true) ks))).
  Proof.
    induction ks as [|k ks IH]; intros acc Hall.
    - cbn. now rewrite app_nil_r.
    - apply Forall_cons in Hall as [Hk Hall].
      cbn [fmap list_fmap foldl]. rewrite (collect_glob_entry fs acc k Hk).
      rewrite filter_cons. destruct (is_file fs k) eqn:E.
      + rewrite decide_True by reflexivity.
        rewrite (IH _ Hall). cbn [fmap list_fmap]. now rewrite <- app_assoc.
      + rewrite decide_False by discriminate. apply (IH _ Hall).
  Qed.

Lemma sandbox_files_filter (fs : filesystem) :
    files_of fs =
      if is_dir fs (fs_key root) then
        filter (fun k => is_file fs k = true)
               (filter (fun k => below (fs_key root) k = true) (fst <$> map_to_list fs))
      else [].
  Proof.
    unfold sandbox_files, glob_all. destruct (is_dir fs (fs_key root)); [|reflexivity].
    induction (filter (fun k => below (fs_key root) k = true) (fst <$> map_to_list fs))
      as [|k ks IH]; [reflexivity|].
    cbn [fmap list_fmap]. rewrite !filter_cons. cbn [fs_key parts].
    destruct (decide (is_file fs k = true)); cbn [fmap list_fmap]; now rewrite <- IH.
  Qed.

  (** What [list_files] returns: the names of the files below the root. *)
Lemma list_files_eq (params : pyval) (fs : filesystem) :
    list_files params fs = (Return (list_answer (name_of <$> files_of fs)), fs).
  Proof.
    unfold tool_list_files, list_names, list_answer.
    rewrite sandbox_files_filter. unfold glob_all.
    destruct (is_dir fs (fs_key root)); [|reflexivity].
    rewrite collect_loop; [reflexivity|].
    apply Forall_forall. intros k Hk. now apply list_elem_of_filter in Hk as [Hk _].
  Qed.

End Listing.

Lemma split_slash_clean (s : string) :
  Forall (fun w => has_slash w = false) (split_slash s).
Proof.
  induction s as [|c s IH]; cbn [split_slash].
  - repeat constructor.
  - destruct (Ascii.eqb c slash) eqn:E.
    + constructor; [reflexivity | exact IH].
    + destruct (split_slash s) as [|w ws].
      * repeat constructor. cbn [has_slash]. now rewrite E.
      * apply Forall_cons in IH as [Hw Hws].
        constructor; [cbn [has_slash]; now rewrite E, Hw | exact Hws].
Qed.

Lemma split_slash_word (w : string) : has_slash w = false -> split_slash w = [w].
Proof.
  induction w as [|c w IH]; [reflexivity|]. cbn [has_slash split_slash].
  intros H. apply orb_false_elim in H as [Hc Hw].
  now rewrite Hc, (IH Hw).
Qed.

Lemma split_slash_app (w s : string) :
  has_slash w = false ->
  split_slash (w +:+ String slash s) = w :: split_slash s.
Proof.
  induction w as [|c w IH]; [reflexivity|].
  change (String c w +:+ String slash s) with (String c (w +:+ String slash s)).
  cbn [has_slash split_slash].
  intros H. apply orb_false_elim in H as [Hc Hw].
  now rewrite Hc, (IH Hw).
Qed.

Lemma split_join_slash (l : list string) :
  l <> [] -> Forall (fun w => has_slash w = false) l ->
  split_slash (join_slash l) = l.
Proof.
  induction l as [|w l IH]; [congruence|]. intros _ H.
  apply Forall_cons in H as [Hw Hl].
  destruct l as [|w' l]; [now apply split_slash_word|].
  change (join_slash (w :: w' :: l)) with (w +:+ String slash (join_slash (w' :: l))).
  rewrite (split_slash_app _ _ Hw). f_equal. now apply IH.
Qed.

Lemma join_slash_inj (l1 l2 : list string) :
  l1 <> [] -> l2 <> [] ->
  Forall (fun w => has_slash w = false) l1 ->
  Forall (fun w => has_slash w = false) l2 ->
  join_slash l1 = join_slash l2 -> l1 = l2.
Proof.
  intros N1 N2 H1 H2 E.
  rewrite <- (split_join_slash l1 N1 H1), <- (split_join_slash l2 N2 H2).
  now rewrite E.
Qed.

Lemma is_file_insert_file (k k' : list string) (c : string) (fs : filesystem) :
  k <> [] ->
  is_file (<[k := File c]> fs) k' = (bool_decide (k = k') || is_file fs k')%bool.
Proof.
  intros Hk. unfold is_file. destruct k' as [|a k'].
  - cbn. now rewrite bool_decide_eq_false_2.
  - cbn. case_bool_decide as E.
    + rewrite E, lookup_insert_eq. reflexivity.
    + now rewrite lookup_insert_ne.
Qed.

Section Writes.

Variable script_dir : list string.
Variable mkdir_depth : nat.

Local Abbreviation root := (SANDBOX_ROOT script_dir).
Local Abbreviation resolve := (sandbox_path script_dir).
Local Abbreviation write_file := (tool_write_file script_dir mkdir_depth).
Local Abbreviation list_files := (tool_list_files script_dir).
Local Abbreviation reset := (tool_reset_sandbox script_dir).
Local Abbreviation files_of := (sandbox_files script_dir).
Local Abbreviation name_of := (fun k : list string =>
                                   join_slash (drop (length (fs_key root)) k)).
Local Abbreviation key_of := (fun path : string => fs_key (resolve path)).

Lemma parse_path_clean (s : string) :
    Forall (fun w => has_slash w = false) (parts (parse_path s)).
  Proof.
    cbn [parse_path parts]. apply Forall_forall. intros w Hw.
    apply list_elem_of_filter in Hw as [_ Hw]. revert w Hw.
    apply Forall_forall, split_slash_clean.
  Qed.

Lemma resolved_suffix_clean (path : string) :
    Forall (fun w => has_slash w = false)
           (drop (length (fs_key root)) (key_of path)).
  Proof.
    unfold sandbox_path, joinpath.
    destruct (String.eqb (anchor (parse_path (remove_dotdot path))) "").
    - cbn [fs_key parts]. rewrite drop_app_length. apply parse_path_clean.
    - apply Forall_drop, parse_path_clean.
  Qed.

Lemma is_relative_to_prefix (path : string) :
    is_relative_to (resolve path) root = true ->
    anchor (resolve path) = anchor root /\
    is_prefix (fs_key root) (key_of path) = true.
  Proof.
    unfold is_relative_to, relative_to.
    destruct (String.eqb_spec (anchor (resolve path)) (anchor root)) as [E|];
      [|discriminate].
    destruct (strip_prefix (parts root) (parts (resolve path))) eqn:S;
      [|discriminate].
    intros _. split; [exact E|]. now apply strip_prefix_Some in S as [_ S].
  Qed.

  (** The files after an acknowledged write: the target, and those that
      were there. *)
Lemma write_file_files (path content : string) (fs : filesystem) (r : pyval)
        (fs' : filesystem) :
    write_file (write_request path content) fs = (Return r, fs') ->
    (forall k : list string,
        is_file fs' k = (bool_decide (key_of path = k) || is_file fs k)%bool) /\
    (forall k : list string, is_dir fs k = true -> is_dir fs' k = true) /\
    is_dir fs (key_of path) = false.
  Proof.
    intros H. apply write_file_inv in H as (_ & fs1 & Hm & Hw).
    apply (mkdir_parents_inr _ _ _ _) in Hm as [_ He].
    apply os_write_inr in Hw as (-> & Hk & Hnd).
    assert (Hnd1 : is_dir fs1 (key_of path) = false).
    { unfold is_dir. rewrite (stat_lookup _ _ Hk).
      destruct (fs1 !! key_of path) as [[c|]|]; congruence. }
    split; [|split].
    - intros k. rewrite (is_file_insert_file _ _ _ _ Hk).
      now rewrite (extends_dirs_is_file _ _ _ k He).
    - intros k Hd. apply (extends_dirs_is_dir _ _ _ _ He) in Hd.
      rewrite is_dir_insert_other; [exact Hd|]. intros E. congruence.
    - destruct (is_dir fs (key_of path)) eqn:D; [|reflexivity].
      apply (extends_dirs_is_dir _ _ _ _ He) in D. congruence.
  Qed.

Lemma write_all_files (ws : list (string * string)) :
    forall fs fs' : filesystem,
      write_all script_dir mkdir_depth ws fs = Some fs' ->
      is_dir fs (fs_key root) = true ->
      (forall k : list string,
          is_file fs' k = true <->
          k ∈ (key_of <$> ws.*1) \/ is_file fs k = true) /\
      is_dir fs' (fs_key root) = true /\
      (forall w, w ∈ ws -> key_of w.1 <> fs_key root).
  Proof.
    induction ws as [|[path content] ws IH]; intros fs fs' H Hroot.
    - injection H as <-. split; [|split; [exact Hroot|]].
      + intros k. cbn. split; [auto|].
        intros [Hk|Hk]; [now apply not_elem_of_nil in Hk | exact Hk].
      + intros w Hw. now apply not_elem_of_nil in Hw.
    - cbn [write_all] in H.
      destruct (write_file (write_request path content) fs) as [[r|e] fs1] eqn:E;
        [|discriminate].
      destruct (write_file_files _ _ _ _ _ E) as (Hf & Hd & Hnd).
      destruct (IH _ _ H (Hd _ Hroot)) as (IHf & IHd & IHk).
      split; [|split; [exact IHd|]].
      + intros k. rewrite IHf, Hf. cbn [fmap list_fmap fst].
        rewrite elem_of_cons, orb_true_iff, bool_decide_eq_true.
        cbn [fst]. split; intros [H1|H1]; auto.
        * destruct H1 as [H1|H1]; auto.
        * destruct H1 as [H1|H1]; auto.
      + intros w Hw. apply elem_of_cons in Hw as [->|Hw]; [|now apply IHk].
        cbn [fst]. intros Ek. rewrite Ek in Hnd. congruence.
  Qed.

Lemma is_prefix_below (k : list string) :
    is_prefix (fs_key root) k = true -> k <> fs_key root ->
    below (fs_key root) k = true.
  Proof.
    intros Hp Hne. unfold below. rewrite Hp. cbn [andb].
    apply Nat.ltb_lt. apply is_prefix_drop in Hp.
    destruct (drop (length (fs_key root)) k) as [|x rest] eqn:E.
    - rewrite app_nil_r in Hp. congruence.
    - rewrite Hp, length_app. cbn. lia.
  Qed.


End Writes.

(** * The results at concrete inputs *)

Lemma pair_from_parts {A B : Type} (p : A * B) (a : A) (b : B) :
  fst p = a -> snd p = b -> p = (a, b).
Proof. destruct p. cbn. congruence. Qed.

Lemma read_file_snd (script_dir : list string) (params : pyval) (fs : filesystem) :
  snd (tool_read_file script_dir params fs) = fs.
Proof. reflexivity. Qed.

Lemma list_files_snd (script_dir : list string) (params : pyval) (fs : filesystem) :
  snd (tool_list_files script_dir params fs) = fs.
Proof. reflexivity. Qed.

Lemma triple_from_parts {A B C : Type} (p : A * B * C) (a : A) (b : B) (c : C) :
  fst (fst p) = a -> snd (fst p) = b -> snd p = c -> p = (a, b, c).
Proof. destruct p as [[? ?] ?]. cbn. congruence. Qed.

Lemma on_files_snd (tool : file_tool) (args : pyval) (w : world) :
  snd (fst (on_files tool args w))
  = {| files := snd (tool args (files w)); sent := sent w |}.
Proof. unfold on_files. now destruct (tool args (files w)). Qed.

Lemma on_files_fst (tool : file_tool) (args : pyval) (w : world) :
  fst (fst (on_files tool args w)) = fst (tool args (files w)).
Proof. unfold on_files. now destruct (tool args (files w)). Qed.

Lemma on_files_intact (tool : file_tool) (args : pyval) (w : world) :
  snd (on_files tool args w) = None.
Proof. unfold on_files. now destruct (tool args (files w)). Qed.

Lemma write_all_cons (script_dir : list string) (mkdir_depth : nat)
      (path content : string) (ws : list (string * string)) (fs : filesystem) :
  fst (tool_write_file script_dir mkdir_depth (write_request path content) fs)
    = Return ok_true ->
  write_all script_dir mkdir_depth ((path, content) :: ws) fs
  = write_all script_dir mkdir_depth ws
      (snd (tool_write_file script_dir mkdir_depth (write_request path content) fs)).
Proof.
  intros H. cbn [write_all].
  destruct (tool_write_file script_dir mkdir_depth (write_request path content) fs)
    as [r fs'].
  cbn in H. now subst r.
Qed.

(** The world that a script leaves when it makes no call and writes no
    text. *)
Lemma script_world_quiet (py_exec : string -> filesystem -> exec_run)
      (code : string) (w : world) :
  run_calls (py_exec code (files w)) = [] ->
  run_written (py_exec code (files w)) = [] ->
  script_world py_exec code w = w.
Proof.
  intros Hc Hw. unfold script_world. rewrite Hc, Hw. destruct w as [fs out].
  cbn. now rewrite app_nil_r.
Qed.

(** C2: a [read_file] of a missing file is answered by an error response
    with code -32000. *)
Lemma handler_fault_becomes_error_witness :
  Demo.step (call_request (PInt 3) "read_file" (PDict [("path", PStr "missing.txt")]))
            Demo.w0
  = (Returns,
     push Demo.w0
       (response (PInt 3) "error"
          (rpc_error_data (-32000) "Tool error: File not found: missing.txt"
             (format_exc (Demo.file_not_found "missing.txt"))))).
Proof.
  refine (proj1 (handler_fault_becomes_error
                   Demo.script_dir Demo.mkdir_depth MiniPy.py_exec MiniPy.collaborator
                   MiniPy.repr_other (PInt 3)
                   [("name", PStr "read_file");
                    ("arguments", PDict [("path", PStr "missing.txt")])]
                   "read_file" (on_files Demo.read_file)
                   (Demo.file_not_found "missing.txt")
                   Demo.w0 "tools/call" [] Demo.w0 _ _ _ _ _ _)).
  - left; reflexivity.
  - reflexivity.
  - reflexivity.
  - apply triple_from_parts.
    + rewrite on_files_fst. vm_compute; reflexivity.
    + rewrite on_files_snd. reflexivity.
    + apply on_files_intact.
  - reflexivity.
  - reflexivity.
Defined.

(** C2 as stated fails: the script [json.codecs.sys.exit()] raises
    [SystemExit], which no [except Exception] clause catches; no response
    is written, the process ends, and the next request is never read. *)
Lemma exiting_fault_ends_process :
  Demo.loop
    [Message (call_request (PInt 1) "run_python"
                (PDict [("code", PStr "json.codecs.sys.exit()")]));
     Message (request (PInt 2) "initialize" (PDict []))]
    Demo.w0
  = (Crashed Demo.system_exit, Demo.w0).
Proof. vm_compute; reflexivity. Qed.

(** C4: [1//0] is reported in stderr, with a null result, in a success
    response. *)
Lemma faulting_script_is_captured_witness :
  run_sandboxed_python MiniPy.py_exec "1//0" Demo.w0
  = (Return (PDict [("stdout", PStr "");
                    ("stderr", PStr (format_exc (Demo.division_by_zero 1)));
                    ("result", PNone)]),
     Demo.w0, None) /\
  format_exc (Demo.division_by_zero 1) <> "" /\
  Demo.step (call_request (PInt 1) "run_python" (PDict [("code", PStr "1//0")]))
            Demo.w0
  = (Returns,
     push Demo.w0
       (response (PInt 1) "result"
          (PDict [("stdout", PStr "");
                  ("stderr", PStr (format_exc (Demo.division_by_zero 1)));
                  ("result", PNone)]))).
Proof.
  assert (E : script_world MiniPy.py_exec "1//0" Demo.w0 = Demo.w0)
    by (apply script_world_quiet; reflexivity).
  destruct (faulting_script_is_captured
              Demo.script_dir Demo.mkdir_depth MiniPy.py_exec
                  MiniPy.collaborator MiniPy.repr_other
              "1//0" (Demo.division_by_zero 1) "" "" (PInt 1) Demo.w0)
    as (H1 & H2 & _ & H4).
  - vm_compute; reflexivity.
  - reflexivity.
  - reflexivity.
  - reflexivity.
  - rewrite E in H1, H4. split; [exact H1|]. split; [exact H2|].
    apply H4; reflexivity.
Defined.

(** A script that closes the standard output of the process and then
    divides by zero: the engine returns its result object, neither
    response can be written, and the process ends with the fault of the
    write; the next request is never read.  When the script closes its
    stderr as well, the engine raises an instance of [Exception], and the
    process ends in the same way. *)
Lemma closed_channel_ends_process :
  let code := "json.codecs.sys.__stdout__.close()" +:+ nl +:+ "1//0" in
  let code' := "json.codecs.sys.__stdout__.close()" +:+ nl +:+
               "json.codecs.sys.stderr.close()" +:+ nl +:+ "1//0" in
  (fst (fst (run_sandboxed_python MiniPy.py_exec code Demo.w0))
     = Return (PDict [("stdout", PStr "");
                      ("stderr", PStr (format_exc (Demo.division_by_zero 2)));
                      ("result", PNone)]) /\
   Demo.loop
     [Message (call_request (PInt 1) "run_python" (PDict [("code", PStr code)]));
      Message (request (PInt 2) "initialize" (PDict []))]
     Demo.w0
   = (Crashed closed_stream, Demo.w0)) /\
  (fst (fst (run_sandboxed_python MiniPy.py_exec code' Demo.w0)) = Raise closed_file /\
   Demo.loop
     [Message (call_request (PInt 1) "run_python" (PDict [("code", PStr code')]));
      Message (request (PInt 2) "initialize" (PDict []))]
     Demo.w0
   = (Crashed closed_stream, Demo.w0)).
Proof. repeat split; vm_compute; reflexivity. Qed.

(** C4 as stated fails: a script that binds [result] and then divides by
    zero returns a non-empty stderr and the result 42, not null. *)
Lemma faulting_script_keeps_result :
  run_raised (MiniPy.py_exec ("result = 42" +:+ nl +:+ "1//0") Demo.fs0)
    = Some (Demo.division_by_zero 2) /\
  fst (fst (run_sandboxed_python MiniPy.py_exec ("result = 42" +:+ nl +:+ "1//0")
              Demo.w0))
    = Return (PDict [("stdout", PStr "");
                     ("stderr", PStr (format_exc (Demo.division_by_zero 2)));
                     ("result", PInt 42)]).
Proof. split; vm_compute; reflexivity. Qed.





(** What C6 leaves out, at concrete inputs: a NUL byte in the path, a
    component of 300 bytes and a surrogate in the content are refused, the
    last after the file has been made empty; and a read of a name too long
    is an [OSError], not "File not found". *)
Lemma refused_names_and_contents :
  fst (Demo.write_file (write_request (String "b" (String NUL "")) "x") Demo.fs0)
    = Raise (ordinary "ValueError" "embedded null byte") /\
  fst (Demo.write_file (write_request long_name "x") Demo.fs0)
    = Raise (os_error ENAMETOOLONG) /\
  (let fs1 := snd (Demo.write_file (write_request "a.txt" "old") Demo.fs0) in
   fst (Demo.write_file (write_request "a.txt" lone_surrogate) fs1) = Raise encode_error /\
   snd (Demo.write_file (write_request "a.txt" lone_surrogate) fs1)
     !! ["srv"; "lab"; "sandbox"; "a.txt"] = Some (File "")) /\
  fst (Demo.read_file (read_request long_name) Demo.fs0) = Raise (os_error ENAMETOOLONG) /\
  fst (Demo.read_file (read_request (String "b" (String NUL ""))) Demo.fs0)
    = Raise (Demo.file_not_found (String "b" (String NUL ""))).
Proof. repeat split; vm_compute; reflexivity. Qed.




(** C9: ["a..b"] and ["ab"] denote one file: what is written through
    the first is read through the second. *)
Lemma stripped_equal_paths_alias_witness :
  remove_dotdot "a..b" = remove_dotdot "ab" /\
  sandbox_path Demo.script_dir "a..b" = sandbox_path Demo.script_dir "ab" /\
  exists fs',
    Demo.write_file (write_request "a..b" "x") Demo.fs0 = (Return ok_true, fs') /\
    Demo.read_file (read_request "ab") fs' = (Return (read_answer "x"), fs').
Proof.
  destruct (stripped_equal_paths_alias Demo.script_dir Demo.mkdir_depth "a..b" "ab")
    as (H1 & _ & H3 & _).
  - reflexivity.
  - split; [reflexivity|]. split; [exact H1|].
    destruct (Demo.write_file (write_request "a..b" "x") Demo.fs0) as [r fs'] eqn:E.
    assert (Hr : r = Return ok_true)
      by (change r with (fst (r, fs')); rewrite <- E; vm_compute; reflexivity).
    subst r. exists fs'. split; [reflexivity|].
    exact (H3 "x" Demo.fs0 ok_true fs' E).
Defined.

(** C10: the number 0 as [code] runs the empty script. *)
Lemma falsy_code_runs_empty_script_witness :
  Demo.run_python (PDict [("code", PInt 0)]) Demo.w0
  = (Return empty_answer, Demo.w0, None).
Proof.
  refine (proj1 (falsy_code_runs_empty_script
                   MiniPy.py_exec [("code", PInt 0)] Demo.w0 _ _ _)).
  - reflexivity.
  - reflexivity.
  - reflexivity.
Defined.

(** C10 as stated fails: with the falsy [code] 0 and the [python]
    argument 7, the "code must be a string" fault is raised. *)
Lemma falsy_code_with_python_faults :
  truthy (PInt 0) = false /\ is_str (PInt 0) = false /\
  Demo.run_python (PDict [("code", PInt 0); ("python", PInt 7)]) Demo.w0
    = (Raise code_must_be_string, Demo.w0, None).
Proof. repeat split. Qed.

(** C1, on the file system: a write through ["../../etc/passwd"] is
    acknowledged and stores the content at [/etc/passwd]; nothing appears
    in the sandbox. *)
Lemma escaping_write_lands_outside :
  let fs' := snd (Demo.write_file (write_request "../../etc/passwd" "x") Demo.fs0) in
  fst (Demo.write_file (write_request "../../etc/passwd" "x") Demo.fs0)
    = Return ok_true /\
  fs' !! ["etc"; "passwd"] = Some (File "x") /\
  fst (Demo.list_files PNone fs') = Return (list_answer []).
Proof. repeat split; vm_compute; reflexivity. Qed.

(** * Further properties of path resolution *)

Lemma remove_dotdot_fixed (s : string) : has_dotdot s = false -> remove_dotdot s = s.
Proof.
  induction s as [|a s IH]; [reflexivity|].
  destruct s as [|b rest]; [reflexivity|].
  rewrite has_dotdot_cons2, remove_dotdot_cons2.
  intros H. apply orb_false_elim in H as [H1 H2].
  rewrite H1. now rewrite (IH H2).
Qed.

(** X1.  What [rel.replace("..", "")] returns holds no [".."]; replacing
    again changes nothing; and no component of the path parsed from it is
    the parent-directory marker. *)
Theorem remove_dotdot_idempotent (s : string) :
  has_dotdot (remove_dotdot s) = false /\
  remove_dotdot (remove_dotdot s) = remove_dotdot s /\
  ".." ∉ parts (parse_path (remove_dotdot s)).
Proof.
  split; [apply remove_dotdot_clean|].
  split; [apply remove_dotdot_fixed, remove_dotdot_clean|].
  apply sandbox_path_no_parent.
Qed.

(** X2.  When the stripped caller path does not begin with a slash, the
    resolved path is the root followed by the components of the stripped
    path: it is relative to the sandbox root, none of the added components
    is [".."], and its location is the root or lies below it. *)
Theorem relative_path_stays_in_sandbox (script_dir : list string) (rel : string) :
  starts_with slash (remove_dotdot rel) = false ->
  is_relative_to (sandbox_path script_dir rel) (SANDBOX_ROOT script_dir) = true /\
  fs_key (sandbox_path script_dir rel)
    = fs_key (SANDBOX_ROOT script_dir) ++ parts (parse_path (remove_dotdot rel)) /\
  ".." ∉ parts (parse_path (remove_dotdot rel)).
Proof.
  intros H. destruct (sandbox_path_confined script_dir rel H) as [E R].
  split; [exact R|]. split; [now rewrite E | apply sandbox_path_no_parent].
Qed.

Lemma relative_path_stays_in_sandbox_witness :
  starts_with slash (remove_dotdot "a/../b.txt") = false /\
  is_relative_to (sandbox_path Demo.script_dir "a/../b.txt")
                 (SANDBOX_ROOT Demo.script_dir) = true /\
  fs_key (sandbox_path Demo.script_dir "a/../b.txt")
    = ["srv"; "lab"; "sandbox"; "a"; "b.txt"].
Proof.
  destruct (relative_path_stays_in_sandbox Demo.script_dir "a/../b.txt")
    as (H1 & H2 & _).
  - reflexivity.
  - split; [reflexivity|]. split; [exact H1|]. rewrite H2. reflexivity.
Defined.

(** * Further properties of the dispatcher *)

Lemma tools_get_elem (s : string) (l : list (string * handler)) :
  s ∈ l.*1 <-> tools_get s l <> None.
Proof.
  induction l as [|[n h] l IH]; cbn [tools_get fmap list_fmap fst].
  - split; [intros H; now apply not_elem_of_nil in H | congruence].
  - rewrite elem_of_cons. destruct (String.eqb_spec s n) as [->|Hne].
    + split; [discriminate | now left].
    + rewrite IH. split; [intros [H|H]; [congruence | exact H] | now right].
Qed.

Section MoreDispatcher.

Variable script_dir : list string.
Variable mkdir_depth : nat.
Variable py_exec : string -> filesystem -> exec_run.
Variable collaborator : string -> pyval -> result pyval.
Variable repr_other : pyval -> string.

Local Abbreviation handle_call :=
  (handle_call_tool script_dir mkdir_depth py_exec collaborator repr_other).
Local Abbreviation step := (dispatch script_dir mkdir_depth py_exec collaborator repr_other).
Local Abbreviation loop := (main_loop script_dir mkdir_depth py_exec collaborator repr_other).
Local Abbreviation registry := (TOOLS script_dir mkdir_depth py_exec collaborator).
Local Abbreviation after_script := (script_world py_exec).

(** X3.  A [tools/list] request (under either method name, whatever its
    params) is answered by one result that lists a descriptor per
    registered tool, ten of them, no name twice; a name is listed exactly
    when [tools/call] finds a handler for it.  The file system is as
    before. *)
Theorem listed_tools_are_the_registry
        (items : list (string * pyval)) (method : string) (w : world) :
  let id := default PNone (items_get "id" items) in
  let names := registry.*1 in
  items_get "method" items = Some (PStr method) ->
  (method = "tools/list" \/ method = "list_tools") ->
  serialisable id = true ->
  step (PDict items) w
    = (Returns,
       push w (response id "result"
                 (PDict [("tools", PList (tool_descriptor <$> names))]))) /\
  length names = 10%nat /\
  NoDup names /\
  (forall s : string, s ∈ names <-> tools_get s registry <> None).
Proof.
  intros id names Hm Hmethod Hid. split; [|split; [reflexivity|split]].
  - rewrite dispatch_method. fold id. rewrite Hm.
    change (default PNone (Some (PStr method))) with (PStr method).
    destruct Hmethod as [-> | ->]; cbn [str_is String.eqb Ascii.eqb Bool.eqb orb];
      unfold handle_list_tools;
      (rewrite send_message_ok; [reflexivity|]);
      rewrite serialisable_response, Hid; reflexivity.
  - subst names. apply (bool_decide_unpack _). vm_compute. reflexivity.
  - intros s. apply tools_get_elem.
Qed.

(** X4.  A message whose [method] is none of the five routed names (a
    string, another value, or none at all) is answered by one error
    response with code -32601 that names the method; the file system is as
    before. *)
Theorem unknown_method_error (items : list (string * pyval)) (w : world) :
  let id := default PNone (items_get "id" items) in
  let method := default PNone (items_get "method" items) in
  (forall s : string, method = PStr s -> s ∉ routed_methods) ->
  serialisable id = true ->
  step (PDict items) w
    = (Returns,
       push w (response id "error"
                 (rpc_error (-32601)
                    ("Unknown method: " +:+ py_str repr_other method)))) /\
  (forall s : string,
      method = PStr s -> py_str repr_other method = s).
Proof.
  intros id method Hm Hid. split.
  - rewrite dispatch_method. fold id method.
    assert (Hno : forall s, s ∈ routed_methods -> str_is method s = false).
    { intros s Hs. unfold str_is. destruct method as [| | | |t| | |] eqn:E; try reflexivity.
      destruct (String.eqb_spec t s) as [->|]; [|reflexivity].
      exfalso. now apply (Hm s). }
    rewrite !Hno by (apply (bool_decide_unpack _); vm_compute; reflexivity).
    cbn [orb]. apply send_message_ok.
    rewrite serialisable_response, Hid. reflexivity.
  - intros s ->. reflexivity.
Qed.

(** X5.  An [initialize] request is answered by the same fixed result
    whatever its params (an object or not) and whatever happened before;
    the file system is as before. *)
Theorem initialize_is_stateless (items : list (string * pyval)) (w : world) :
  let id := default PNone (items_get "id" items) in
  items_get "method" items = Some (PStr "initialize") ->
  serialisable id = true ->
  step (PDict items) w = (Returns, push w (response id "result" initialize_result)).
Proof.
  intros id Hm Hid. rewrite dispatch_method. fold id. rewrite Hm.
  change (default PNone (Some (PStr "initialize"))) with (PStr "initialize").
  cbn [str_is String.eqb Ascii.eqb Bool.eqb]. unfold handle_initialize.
  apply send_message_ok. rewrite serialisable_response, Hid. reflexivity.
Qed.

Lemma dispatch_not_dict (msg : pyval) (w : world) :
  (forall items, msg <> PDict items) -> exists e, step msg w = (Propagates e, w).
Proof.
  intros H. destruct msg; try (eexists; reflexivity). now destruct (H d).
Qed.

Lemma messages_app (a b : list output) : messages (a ++ b) = messages a ++ messages b.
Proof. apply omap_app. Qed.

Lemma messages_written (texts : list string) : messages (Written <$> texts) = [].
Proof. induction texts as [|t texts IH]; [reflexivity | exact IH]. Qed.


(** X7.  A blank line, a line that is no JSON, or the JSON null ends the
    loop as the end of input does: what follows it is never read, and the
    outcome is that of the lines before it. *)
Theorem unreadable_line_is_end_of_input
        (pre : list input_line) (bad : input_line) (rest : list input_line) :
  forall w : world,
    read_message (Some bad) = Return None ->
    loop (pre ++ bad :: rest) w = loop pre w.
Proof.
  induction pre as [|line pre IH]; intros w Hbad.
  - cbn [app]. rewrite main_loop_step, Hbad. reflexivity.
  - cbn [app]. rewrite !main_loop_step.
    destruct (read_message (Some line)) as [[msg|]|e0]; [|reflexivity|reflexivity].
    destruct (step msg w) as [[|e] w1]; [now apply IH | reflexivity].
Qed.

(** X8.  When a handler returns a value that [json.dumps] rejects, the
    fault of [send_message] is caught by the same [except] clause: the
    request is answered by one error response with code -32000, and what
    the handler did to the file system and to standard output stays.  The
    handler has left standard output as the stream that it was. *)
Theorem unserialisable_result_becomes_error
        (id : pyval) (d : list (string * pyval)) (s : string) (tool : handler)
        (result : pyval) (w1 w : world) :
  items_get "name" d = Some (PStr s) ->
  tools_get s registry = Some tool ->
  tool (default (PDict []) (items_get "arguments" d)) w = (Return result, w1, None) ->
  serialisable result = false ->
  serialisable id = true ->
  exists message data : string,
    handle_call id (PDict d) w
    = (Returns,
       push w1 (response id "error" (rpc_error_data (-32000) message data))).
Proof.
  intros Hn Ht Hr Hres Hid. unfold handle_call_tool. py_simpl.
  rewrite Hn. change (default PNone (Some (PStr s))) with (PStr s).
  unfold tools_lookup. rewrite Ht, Hr. cbn [send_after].
  unfold send_message at 1.
  rewrite serialisable_response, Hid, Hres. cbn [andb].
  cbn [is_Exception ordinary exc_kind_of].
  eexists _, _. rewrite send_message_ok; [reflexivity|].
  rewrite serialisable_response, Hid. reflexivity.
Qed.

(** X9.  A script that closes one of the two buffers it is given turns the
    call into a tool error, where the engine is meant to report script
    faults in its result: when the script ends normally or by an instance
    of [Exception] and [stdout_buf] or [stderr_buf] is closed, the engine
    itself raises [ValueError]; and when the script has left the standard
    output of the process open, the [run_python] call is answered by one
    error response with code -32000 and the message
    ["Tool error: I/O operation on closed file"], written after what the
    script did. *)
Theorem closed_buffer_becomes_tool_error (id : pyval) (code : string) (w : world) :
  let r := py_exec code (files w) in
  (forall e : exn, run_raised r = Some e -> is_Exception e = true) ->
  (run_stdout r = None \/ run_stderr r = None) ->
  run_broken r = None ->
  serialisable id = true ->
  run_sandboxed_python py_exec code w
    = (Raise closed_file, after_script code w, None) /\
  exists data : string,
    step (call_request id "run_python" (PDict [("code", PStr code)])) w
    = (Returns,
       push (after_script code w)
         (response id "error"
            (rpc_error_data (-32000) "Tool error: I/O operation on closed file" data))).
Proof.
  intros r Hexc Hclosed Hb Hid.
  assert (Hrun : run_sandboxed_python py_exec code w
                 = (Raise closed_file, after_script code w, None)).
  { unfold run_sandboxed_python, script_world. fold r. rewrite Hb. do 2 f_equal.
    unfold getvalues.
    destruct (run_raised r) as [e|] eqn:Er.
    - rewrite (Hexc e eq_refl).
      destruct (run_stderr r) as [err|]; [|reflexivity].
      destruct Hclosed as [-> | [=]]. reflexivity.
    - destruct Hclosed as [-> | ->]; [reflexivity|].
      now destruct (run_stdout r). }
  split; [exact Hrun|].
  exists (format_exc closed_file). unfold call_request.
  rewrite (dispatch_call _ _ _ _ _ _ _ _ _ (or_introl eq_refl)), py_or_dict.
  rewrite (handle_call_raised _ _ _ _ _ id
             [("name", PStr "run_python");
              ("arguments", PDict [("code", PStr code)])]
             "run_python" (tool_run_python py_exec) closed_file (after_script code w) w
             eq_refl eq_refl).
  - cbn [is_Exception closed_file ordinary exc_kind_of exc_str].
    apply send_message_ok. rewrite serialisable_response, Hid. reflexivity.
  - change (default (PDict []) (items_get "arguments" _))
      with (PDict [("code", PStr code)]).
    now rewrite tool_run_python_code.
Qed.

End MoreDispatcher.

(** * Further properties of the file store *)

Lemma removelast_neq (k : list string) : k <> [] -> k <> removelast k.
Proof.
  intros Hk E. apply (f_equal length) in E.
  rewrite (length_removelast_S k Hk) in E. lia.
Qed.

Lemma is_dir_root (fs : filesystem) : is_dir fs [] = true.
Proof. reflexivity. Qed.

Lemma is_dir_lookup (fs : filesystem) (k : list string) :
  k <> [] -> is_dir fs k = true -> fs !! k = Some Dir.
Proof.
  intros Hk. unfold is_dir. rewrite (stat_lookup _ _ Hk).
  destruct (fs !! k) as [[c|]|]; congruence.
Qed.

Lemma well_formed_insert_dir (fs : filesystem) (k : list string) :
  well_formed fs -> is_dir fs (removelast k) = true ->
  well_formed (<[k := Dir]> fs).
Proof.
  intros Hwf Hp k2 n H. destruct (decide (k = k2)) as [<-|Hne].
  - destruct k as [|a k']; [reflexivity|].
    rewrite is_dir_insert_other; [exact Hp | now apply removelast_neq].
  - rewrite lookup_insert_ne in H by exact Hne. apply Hwf in H.
    destruct (decide (k = removelast k2)) as [->|Hne2].
    + apply is_dir_insert_dir.
    + now rewrite is_dir_insert_other.
Qed.

Lemma well_formed_insert_file (fs : filesystem) (k : list string) (c : string) :
  well_formed fs -> is_dir fs (removelast k) = true -> is_dir fs k = false ->
  well_formed (<[k := File c]> fs).
Proof.
  intros Hwf Hp Hd k2 n H.
  assert (Hk : k <> []) by (intros ->; discriminate).
  destruct (decide (k = k2)) as [<-|Hne].
  - rewrite is_dir_insert_other; [exact Hp | now apply removelast_neq].
  - rewrite lookup_insert_ne in H by exact Hne. apply Hwf in H.
    rewrite is_dir_insert_other; [exact H|]. intros ->. congruence.
Qed.

Lemma well_formed_delete_file (fs : filesystem) (k : list string) :
  well_formed fs -> is_file fs k = true -> well_formed (delete k fs).
Proof.
  intros Hwf Hf k2 n H. rewrite (is_dir_delete_file _ _ _ Hf).
  destruct (decide (k = k2)) as [<-|Hne].
  - now rewrite lookup_delete_eq in H.
  - rewrite lookup_delete_ne in H by exact Hne. now apply Hwf in H.
Qed.

Lemma os_mkdir_parent (k : list string) (fs fs' : filesystem) :
  os_mkdir k fs = inr fs' -> is_dir fs (removelast k) = true.
Proof.
  unfold os_mkdir. destruct (stat fs k); [discriminate|].
  destruct (create_fault fs k) eqn:E; [discriminate|]. intros _.
  now apply create_fault_None in E as (_ & E & _).
Qed.

Lemma os_mkdir_well_formed (k : list string) (fs fs' : filesystem) :
  well_formed fs -> os_mkdir k fs = inr fs' -> well_formed fs'.
Proof.
  intros Hwf H. pose proof (os_mkdir_parent _ _ _ H) as Hp.
  apply os_mkdir_inr in H as (-> & _ & _). now apply well_formed_insert_dir.
Qed.

Lemma mkdir_exist_ok_well_formed (k : list string) (fs fs' : filesystem) :
  well_formed fs -> mkdir_exist_ok k fs = inr fs' -> well_formed fs'.
Proof.
  intros Hwf. unfold mkdir_exist_ok.
  destruct (os_mkdir k fs) as [f|fs2] eqn:E.
  - destruct f as [e| | |]; [|discriminate|discriminate|discriminate].
    destruct e; try discriminate;
      (destruct (is_dir fs k); [|discriminate]); now intros [= <-].
  - intros [= <-]. eapply os_mkdir_well_formed; eauto.
Qed.

(** [mkdir(parents=True)] keeps the file system well formed, whether it
    succeeds or fails half way. *)
Lemma mkdir_parents_well_formed (rk : list string) :
  forall (depth : nat) (fs : filesystem),
    well_formed fs ->
    match mkdir_parents depth rk fs with
    | inr fs' => well_formed fs'
    | inl (_, fs') => well_formed fs'
    end.
Proof.
  induction rk as [|a rk IH]; intros [|depth] fs Hwf; try exact Hwf.
  cbn [mkdir_parents].
  destruct (os_mkdir (rev (a :: rk)) fs) as [f|fs2] eqn:E.
  - destruct f as [e| | |]; [|exact Hwf|exact Hwf|exact Hwf].
    destruct e; try (destruct (is_dir fs (rev (a :: rk))); exact Hwf).
    specialize (IH depth fs Hwf).
    destruct (mkdir_parents depth rk fs) as [[f1 fs1]|fs1]; [exact IH|].
    destruct (mkdir_exist_ok (rev (a :: rk)) fs1) as [f2|fs3] eqn:E2; [exact IH|].
    exact (mkdir_exist_ok_well_formed _ _ _ IH E2).
  - exact (os_mkdir_well_formed _ _ _ Hwf E).
Qed.

Lemma os_write_well_formed (k : list string) (c : string) (fs fs' : filesystem) :
  well_formed fs -> os_write k c fs = inr fs' -> well_formed fs'.
Proof.
  intros Hwf H.
  assert (Hp : is_dir fs (removelast k) = true).
  { revert H. unfold os_write.
    destruct (stat fs k) as [[c'|]|] eqn:E; try discriminate.
    - intros _. destruct k as [|a k]; [discriminate|]. cbn in E.
      exact (Hwf _ _ E).
    - destruct (create_fault fs k) eqn:Ec; [discriminate|]. intros _.
      now apply create_fault_None in Ec as (_ & Ec & _). }
  apply os_write_inr in H as (-> & Hk & Hnd).
  apply well_formed_insert_file; [exact Hwf | exact Hp |].
  destruct (is_dir fs k) eqn:D; [|reflexivity].
  now apply is_dir_lookup in D.
Qed.

Lemma os_unlink_well_formed (k : list string) (fs fs' : filesystem) :
  well_formed fs -> os_unlink k fs = inr fs' -> well_formed fs'.
Proof.
  intros Hwf. unfold os_unlink.
  destruct (stat fs k) as [[c|]|] eqn:E; try discriminate.
  intros [= <-]. apply well_formed_delete_file; [exact Hwf|].
  unfold is_file. now rewrite E.
Qed.

Lemma os_rmdir_well_formed (k : list string) (fs fs' : filesystem) :
  well_formed fs -> os_rmdir k fs = inr fs' -> well_formed fs'.
Proof.
  intros Hwf. unfold os_rmdir. destruct k as [|a k]; [discriminate|].
  destruct (fs !! (a :: k)) as [[c|]|] eqn:E; try discriminate.
  destruct (existsb _ _) eqn:Ex; [discriminate|]. intros [= <-].
  intros k2 n H.
  destruct (decide (a :: k = k2)) as [<-|Hne]; [now rewrite lookup_delete_eq in H|].
  rewrite lookup_delete_ne in H by exact Hne.
  pose proof (Hwf _ _ H) as Hd.
  destruct k2 as [|b k2]; [reflexivity|].
  assert (Hp : removelast (b :: k2) <> a :: k).
  { intros Hp.
    assert (Hin : existsb (fun k' => bool_decide (k' <> [] /\ removelast k' = a :: k))
                          (fst <$> map_to_list fs) = true).
    { apply existsb_exists. exists (b :: k2). split.
      - apply list_elem_of_In, keys_elem. eauto.
      - apply bool_decide_eq_true. split; [discriminate | exact Hp]. }
    congruence. }
  unfold is_dir in *. destruct (removelast (b :: k2)) as [|x l] eqn:Er; [reflexivity|].
  cbn in *. rewrite lookup_delete_ne by congruence. exact Hd.
Qed.

(** Whatever calls a script makes, the file system stays well formed. *)
Lemma apply_calls_well_formed (calls : list syscall) :
  forall fs : filesystem, well_formed fs -> well_formed (apply_calls fs calls).
Proof.
  induction calls as [|c calls IH]; intros fs Hwf; [exact Hwf|].
  cbn [apply_calls foldl]. apply IH. unfold do_call.
  destruct c as [k|k content|k|k].
  - destruct (os_mkdir k fs) eqn:E; [exact Hwf | eapply os_mkdir_well_formed; eauto].
  - destruct (os_write k content fs) eqn:E;
      [exact Hwf | eapply os_write_well_formed; eauto].
  - destruct (os_unlink k fs) eqn:E; [exact Hwf | eapply os_unlink_well_formed; eauto].
  - destruct (os_rmdir k fs) eqn:E; [exact Hwf | eapply os_rmdir_well_formed; eauto].
Qed.

(** In a well-formed file system an existing directory needs no making. *)
Lemma mkdir_parents_existing (depth : nat) (k : list string) (fs : filesystem) :
  depth <> O -> is_dir fs k = true -> mkdir_parents depth (rev k) fs = inr fs.
Proof.
  intros Hdepth Hd. destruct depth as [|depth]; [congruence|].
  destruct (rev k) as [|a rk] eqn:Er.
  - reflexivity.
  - cbn [mkdir_parents]. rewrite <- Er, rev_involutive.
    unfold os_mkdir. unfold is_dir in Hd.
    destruct (stat fs k) as [[c|]|] eqn:Es; try discriminate.
    unfold is_dir. now rewrite Es.
Qed.

Lemma reset_loop_outside (l : list Path) :
  forall (fs : filesystem) (k : list string),
    (forall p, p ∈ l -> fs_key p <> k) ->
    foldl unlink_if_file fs l !! k = fs !! k.
Proof.
  induction l as [|p l IH]; intros fs k Hk; [reflexivity|].
  cbn [foldl]. rewrite IH by (intros q Hq; apply Hk; now right).
  rewrite unlink_if_file_eq. destruct (is_file fs (fs_key p)); [|reflexivity].
  apply lookup_delete_ne, Hk. now left.
Qed.

Lemma reset_loop_well_formed (l : list Path) :
  forall fs : filesystem,
    well_formed fs -> well_formed (foldl unlink_if_file fs l).
Proof.
  induction l as [|p l IH]; intros fs Hwf; [exact Hwf|].
  cbn [foldl]. apply IH. rewrite unlink_if_file_eq.
  destruct (is_file fs (fs_key p)) eqn:E; [|exact Hwf].
  now apply well_formed_delete_file.
Qed.

(** Within the length limits, no walk ends at a name too long. *)
Lemma walk_error_within (fs : filesystem) (rest : list string) :
  forall dir : list string,
    forallb (fun c => (os_length c <=? NAME_MAX)%nat) rest = true ->
    walk_error fs dir rest = ENOENT \/ walk_error fs dir rest = ENOTDIR.
Proof.
  induction rest as [|c rest IH]; intros dir Hs; [now left|].
  cbn [forallb] in Hs. apply andb_prop in Hs as [Hc Hs].
  cbn [walk_error]. destruct (fs !! (dir ++ [c])) as [[x|]|].
  - destruct rest; auto.
  - now apply IH.
  - apply Nat.leb_le in Hc.
    destruct (Nat.ltb_spec NAME_MAX (os_length c)); [lia | now left].
Qed.

(** Within the length limits, [os.stat] at a location without entry fails
    in a way that pathlib reads as "no". *)
Lemma absent_fault_ignored (fs : filesystem) (k : list string) :
  within_limits k = true -> ignored (absent_fault fs k) = true.
Proof.
  unfold within_limits. intros H. apply andb_prop in H as [Hlen Hshort].
  apply Nat.ltb_lt in Hlen.
  unfold absent_fault, refusal.
  destruct (existsb (fun c => negb (bool_decide (is_Some (fsencode c)))) k);
    [reflexivity|].
  destruct (existsb has_NUL k); [reflexivity|].
  destruct (Nat.leb_spec PATH_MAX (path_length k)); [lia|].
  destruct (walk_error_within fs k [] Hshort) as [-> | ->]; reflexivity.
Qed.

Section MoreFileStore.

Variable script_dir : list string.
Variable mkdir_depth : nat.

Local Abbreviation root := (SANDBOX_ROOT script_dir).
Local Abbreviation resolve := (sandbox_path script_dir).
Local Abbreviation write_file := (tool_write_file script_dir mkdir_depth).
Local Abbreviation read_file := (tool_read_file script_dir).
Local Abbreviation list_files := (tool_list_files script_dir).
Local Abbreviation reset := (reset_sandbox_dir script_dir).
Local Abbreviation key_of path := (fs_key (sandbox_path script_dir path)).

Lemma glob_all_below (fs : filesystem) (p : Path) :
  p ∈ glob_all root fs -> below (fs_key root) (fs_key p) = true.
Proof.
  unfold glob_all. destruct (is_dir fs (fs_key root)).
  - intros H. apply list_elem_of_fmap in H as (k & -> & Hk).
    now apply list_elem_of_filter in Hk as [Hk _].
  - intros H. now apply not_elem_of_nil in H.
Qed.

Lemma write_file_well_formed (params : pyval) (fs : filesystem) :
  well_formed fs -> well_formed (snd (write_file params fs)).
Proof.
  intros Hwf. unfold tool_write_file.
  destruct (py_get_none params "path") as [rel_path|e]; [|exact Hwf].
  destruct (py_get_default params "content" (PStr "")) as [content|e]; [|exact Hwf].
  destruct rel_path; try exact Hwf.
  pose proof (mkdir_parents_well_formed
                (rev (fs_key (parent (resolve s)))) mkdir_depth fs Hwf) as Hwf1.
  destruct (mkdir_parents _ _ fs) as [[f fs1]|fs1]; [exact Hwf1|].
  unfold write_text. destruct content; try exact Hwf1.
  destruct (has_surrogate s0).
  - destruct (os_write _ _ fs1) as [e|fs2] eqn:E2; [exact Hwf1|].
    cbn [snd]. eapply os_write_well_formed; eauto.
  - destruct (os_write _ _ fs1) as [e|fs2] eqn:E2; [exact Hwf1|].
    cbn [snd]. eapply os_write_well_formed; eauto.
Qed.

Lemma reset_well_formed (fs : filesystem) : well_formed fs -> well_formed (reset fs).
Proof.
  intros Hwf. unfold reset_sandbox_dir.
  destruct (exists_ fs (fs_key root)); [|exact Hwf].
  now apply reset_loop_well_formed.
Qed.

(** X11.  [reset_sandbox] removes the files below the sandbox root and
    nothing else: entries outside the sandbox are as before, every
    directory is still a directory, and, the sandbox directory existing,
    no location below it holds a file any more. *)
Theorem reset_removes_only_sandbox_files (fs : filesystem) :
  (forall k : list string,
      below (fs_key root) k = false -> reset fs !! k = fs !! k) /\
  (forall k : list string, is_dir (reset fs) k = is_dir fs k) /\
  (is_dir fs (fs_key root) = true ->
   forall k : list string, below (fs_key root) k = true -> is_file (reset fs) k = false).
Proof.
  split; [|split].
  - intros k Hk. unfold reset_sandbox_dir.
    destruct (exists_ fs (fs_key root)); [|reflexivity].
    apply reset_loop_outside. intros p Hp E.
    apply glob_all_below in Hp. congruence.
  - intros k. unfold reset_sandbox_dir.
    destruct (exists_ fs (fs_key root)); [|reflexivity].
    apply reset_loop_is_dir.
  - intros Hroot k Hk. destruct (is_file (reset fs) k) eqn:E; [|reflexivity].
    assert (Hin : k ∈ sandbox_files script_dir (reset fs)).
    { apply sandbox_files_elem. split; [|auto].
      unfold reset_sandbox_dir. destruct (exists_ fs (fs_key root)); [|exact Hroot].
      now rewrite reset_loop_is_dir. }
    rewrite reset_empties in Hin. now apply not_elem_of_nil in Hin.
Qed.


(** X13.  In a well-formed file system, a path that was written once can
    be written again.  With a content that UTF-8 can encode, the second
    write is acknowledged, replaces the content at the same location and
    changes nothing else, and a read returns the second content (newlines
    translated).  With a content that holds a surrogate, the second write
    raises [UnicodeEncodeError] after the file has been truncated: the
    first content is lost and the file is left empty. *)
Theorem second_write_replaces_content
        (path c1 c2 : string) (fs fs1 : filesystem) (r1 : pyval) :
  well_formed fs ->
  write_file (write_request path c1) fs = (Return r1, fs1) ->
  (has_surrogate c2 = false ->
   write_file (write_request path c2) fs1
     = (Return ok_true, <[key_of path := File c2]> fs1) /\
   read_file (read_request path) (<[key_of path := File c2]> fs1)
     = (Return (read_answer (universal_newlines c2)), <[key_of path := File c2]> fs1)) /\
  (has_surrogate c2 = true ->
   write_file (write_request path c2) fs1
     = (Raise encode_error, <[key_of path := File ""]> fs1) /\
   read_file (read_request path) (<[key_of path := File ""]> fs1)
     = (Return (read_answer ""), <[key_of path := File ""]> fs1)).
Proof.
  intros Hwf H1.
  assert (Hwf1 : well_formed fs1).
  { change fs1 with (snd (Return r1, fs1)). rewrite <- H1.
    now apply write_file_well_formed. }
  apply write_file_inv in H1 as (_ & fsm & Hm & Hw).
  apply mkdir_parents_room in Hm.
  apply os_write_inr in Hw as (E1 & Hk & _).
  assert (Hl : fs1 !! key_of path = Some (File c1))
    by (rewrite E1; apply lookup_insert_eq).
  pose proof (Hwf1 _ _ Hl) as Hp.
  assert (Hw2 : forall c : string,
             os_write (key_of path) c fs1 = inr (<[key_of path := File c]> fs1)).
  { intros c. unfold os_write. now rewrite (stat_lookup _ _ Hk), Hl. }
  split; intros Hc.
  - assert (H2 : write_file (write_request path c2) fs1
                 = (Return ok_true, <[key_of path := File c2]> fs1)).
    { rewrite write_file_eq, (mkdir_parents_existing _ _ _ Hm Hp), Hc.
      now rewrite Hw2. }
    split; [exact H2|]. exact (write_read_core _ _ _ _ _ _ _ H2).
  - split.
    + rewrite write_file_eq, (mkdir_parents_existing _ _ _ Hm Hp), Hc.
      now rewrite Hw2.
    + apply (read_file_stored script_dir path ""); [exact Hk | apply lookup_insert_eq].
Qed.


(** X15.  [write_file] checks the type of the content only after it has
    made the parent directories: with a content that is no string the call
    raises [TypeError] and stores nothing at the target, yet the
    directories made for it stay. *)
Theorem write_of_non_string_keeps_directories
        (path : string) (content : pyval) (fs fs1 : filesystem) :
  is_str content = false ->
  mkdir_parents mkdir_depth (rev (removelast (key_of path))) fs = inr fs1 ->
  key_of path <> [] ->
  write_file (PDict [("path", PStr path); ("content", content)]) fs
    = (Raise (ordinary "TypeError" ("data must be str, not " +:+ type_name content)),
       fs1) /\
  fs1 !! key_of path = fs !! key_of path /\
  is_dir fs1 (removelast (key_of path)) = true.
Proof.
  intros Hs Hm Hk. split; [|split].
  - unfold tool_write_file. py_simpl.
    change (fs_key (parent (resolve path))) with (removelast (key_of path)).
    rewrite Hm. unfold write_text. destruct content; try reflexivity. discriminate.
  - apply (mkdir_parents_inr _ _ _ _) in Hm as [_ He]. rewrite rev_involutive in He.
    apply (extends_dirs_outside _ _ _ _ He), removelast_not_prefix, Hk.
  - apply (mkdir_parents_inr _ _ _ _) in Hm as [Hd _]. now rewrite rev_involutive in Hd.
Qed.

End MoreFileStore.

(** * Further properties of the service as a whole *)

Lemma send_message_files (msg : pyval) (w : world) :
  files (snd (send_message msg w)) = files w.
Proof. unfold send_message. destruct (serialisable msg); reflexivity. Qed.

Lemma send_after_world (broken : option exn) (msg : pyval) (w : world) :
  snd (send_after broken msg w) = w \/ snd (send_after broken msg w) = push w msg.
Proof.
  destruct broken as [e|]; cbn [send_after]; unfold send_message;
    destruct (serialisable msg); auto.
Qed.

Lemma send_after_files (broken : option exn) (msg : pyval) (w : world) :
  files (snd (send_after broken msg w)) = files w.
Proof. now destruct (send_after_world broken msg w) as [-> | ->]. Qed.

Section MoreService.

Variable script_dir : list string.
Variable mkdir_depth : nat.
Variable py_exec : string -> filesystem -> exec_run.
Variable collaborator : string -> pyval -> result pyval.
Variable repr_other : pyval -> string.

Local Abbreviation handle_call :=
  (handle_call_tool script_dir mkdir_depth py_exec collaborator repr_other).
Local Abbreviation step := (dispatch script_dir mkdir_depth py_exec collaborator repr_other).
Local Abbreviation loop := (main_loop script_dir mkdir_depth py_exec collaborator repr_other).
Local Abbreviation registry := (TOOLS script_dir mkdir_depth py_exec collaborator).

(** The file system after a [tools/call]: as before, or as the handler of
    a registered tool left it. *)
Lemma handle_call_files (id params : pyval) (w : world) :
  files (snd (handle_call id params w)) = files w \/
  exists (d : list (string * pyval)) (s : string) (tool : handler),
    params = PDict d /\
    items_get "name" d = Some (PStr s) /\
    tools_get s registry = Some tool /\
    files (snd (handle_call id params w))
    = files (snd (fst (tool (default (PDict []) (items_get "arguments" d)) w))).
Proof.
  unfold handle_call_tool.
  destruct params as [|b|z|f|s|l|d|o]; try (left; reflexivity).
  py_simpl.
  destruct (items_get "name" d) as [name|] eqn:En;
    [|left; apply send_message_files].
  change (default PNone (Some name)) with name.
  destruct name as [|b|z|f|s|l|d'|o];
    cbn [tools_lookup]; try (left; apply send_message_files); try (left; reflexivity).
  destruct (tools_get s registry) as [tool|] eqn:Et; [|left; apply send_message_files].
  right. exists d, s, tool. repeat split; try assumption.
  destruct (tool (default (PDict []) (items_get "arguments" d)) w) as [[r w1] broken].
  cbn [fst snd]. destruct r as [res|e].
  - pose proof (send_after_files broken (response id "result" res) w1) as Hf.
    pose proof (send_after_world broken (response id "result" res) w1) as Hw.
    destruct (send_after broken (response id "result" res) w1) as [[|e] w2];
      [exact Hf|].
    cbn [snd] in Hf, Hw.
    destruct (is_Exception e); [|exact Hf].
    now rewrite send_after_files.
  - destruct (is_Exception e); [now rewrite send_after_files | reflexivity].
Qed.


Lemma dispatch_well_formed (msg : pyval) (w : world) :
  well_formed (files w) -> well_formed (files (snd (step msg w))).
Proof.
  intros Hwf. destruct msg as [|b|z|f|s|l|items|o]; try exact Hwf.
  rewrite dispatch_method. cbv zeta.
  destruct (str_is _ "initialize");
    [unfold handle_initialize; now rewrite send_message_files|].
  destruct (str_is _ "list_tools" || str_is _ "tools/list")%bool;
    [unfold handle_list_tools; now rewrite send_message_files|].
  destruct (str_is _ "call_tool" || str_is _ "tools/call")%bool;
    [|now rewrite send_message_files].
  match goal with
  | |- context [handle_call ?i ?p w] =>
      destruct (handle_call_files i p w) as [H | (d & s & tool & _ & _ & Ht & H)]
  end; rewrite H; [exact Hwf|].
  destruct (registry_cases script_dir mkdir_depth py_exec collaborator s tool Ht)
    as [[_ ->] | [[name ->] | [[_ ->] | [[_ ->] | [[_ ->] | [_ ->]]]]]];
    rewrite ?on_files_files.
  - match goal with
    | |- context [tool_run_python py_exec ?a w] =>
        destruct (tool_run_python_world py_exec a w) as [-> | [code ->]]
    end; [exact Hwf|].
    now apply apply_calls_well_formed.
  - exact Hwf.
  - now apply write_file_well_formed.
  - now apply reset_well_formed.
  - exact Hwf.
  - exact Hwf.
Qed.

(** X10.  The service keeps the file system well formed: if every entry
    lies in a directory before the loop starts, that is so when the loop
    ends, whatever lines it read, whatever the scripts it ran did, and
    however it ended. *)
Theorem service_keeps_file_system_well_formed (stdin : list input_line) :
  forall w : world,
    well_formed (files w) -> well_formed (files (snd (loop stdin w))).
Proof.
  induction stdin as [|line rest IH]; intros w Hwf; [exact Hwf|].
  rewrite main_loop_step.
  destruct (read_message (Some line)) as [[msg|]|e0]; [|exact Hwf|exact Hwf].
  pose proof (dispatch_well_formed msg w Hwf) as H.
  destruct (step msg w) as [[|e] w1]; [now apply IH | exact H].
Qed.

(** X17.  A call of [write_file] or [read_file] whose arguments hold no
    string under [path] (a missing key, a number, null) is answered by one
    error response with code -32000 and the message
    ["Tool error: path must be a string"]; the file system is as before. *)
Theorem missing_path_is_reported
        (id : pyval) (name : string) (args : list (string * pyval)) (w : world) :
  (name = "write_file" \/ name = "read_file") ->
  is_str (default PNone (items_get "path" args)) = false ->
  serialisable id = true ->
  exists data : string,
    step (call_request id name (PDict args)) w
    = (Returns,
       push w (response id "error"
                 (rpc_error_data (-32000) "Tool error: path must be a string" data))).
Proof.
  intros Hname Hpath Hid.
  exists (format_exc (ordinary "ValueError" "path must be a string")).
  unfold call_request.
  rewrite (dispatch_call _ _ _ _ _ _ _ _ _ (or_introl eq_refl)), py_or_dict.
  destruct Hname as [-> | ->].
  - rewrite (handle_call_raised _ _ _ _ _ id
               [("name", PStr "write_file"); ("arguments", PDict args)] "write_file"
               (on_files (tool_write_file script_dir mkdir_depth))
               (ordinary "ValueError" "path must be a string") w w
               eq_refl eq_refl).
    + cbn [is_Exception ordinary exc_kind_of exc_str].
      apply send_message_ok.
      rewrite serialisable_response, Hid. reflexivity.
    + change (default (PDict []) (items_get "arguments" _)) with (PDict args).
      unfold on_files, tool_write_file. py_simpl.
      destruct (default PNone (items_get "path" args)); try (destruct w; reflexivity).
      discriminate.
  - rewrite (handle_call_raised _ _ _ _ _ id
               [("name", PStr "read_file"); ("arguments", PDict args)] "read_file"
               (on_files (tool_read_file script_dir))
               (ordinary "ValueError" "path must be a string") w w
               eq_refl eq_refl).
    + cbn [is_Exception ordinary exc_kind_of exc_str].
      apply send_message_ok.
      rewrite serialisable_response, Hid. reflexivity.
    + change (default (PDict []) (items_get "arguments" _)) with (PDict args).
      unfold on_files, tool_read_file. py_simpl.
      destruct (default PNone (items_get "path" args)); try (destruct w; reflexivity).
      discriminate.
Qed.

End MoreService.

(** * Listed names as paths *)

Lemma has_dotdot_tail (c : ascii) (s : string) :
  has_dotdot (String c s) = false -> has_dotdot s = false.
Proof.
  destruct s as [|b rest]; [reflexivity|]. rewrite has_dotdot_cons2.
  intros H. now apply orb_false_elim in H.
Qed.

Lemma split_slash_no_dotdot (s : string) :
  has_dotdot s = false -> Forall (fun w => has_dotdot w = false) (split_slash s).
Proof.
  induction s as [|c s IH]; intros Hs.
  - repeat constructor.
  - pose proof (IH (has_dotdot_tail _ _ Hs)) as IH'. cbn [split_slash].
    destruct (Ascii.eqb c slash); [constructor; [reflexivity | exact IH']|].
    destruct (split_slash s) as [|w ws] eqn:E; [repeat constructor|].
    apply Forall_cons in IH' as [Hw Hws]. constructor; [|exact Hws].
    destruct w as [|b w']; [reflexivity|].
    rewrite has_dotdot_cons2, Hw, orb_false_r.
    destruct (Ascii.eqb c dot) eqn:Ec; [|reflexivity].
    destruct (Ascii.eqb b dot) eqn:Eb; [|reflexivity].
    pose proof (split_slash_head_dot s _ _ E) as Hd. cbn [starts_with] in Hd.
    specialize (Hd Eb). destruct s as [|b' rest]; [discriminate|].
    cbn [starts_with] in Hd. rewrite has_dotdot_cons2, Ec, Hd in Hs. discriminate.
Qed.

Lemma has_dotdot_app_slash (w s : string) :
  has_dotdot (w +:+ String slash s) = (has_dotdot w || has_dotdot s)%bool.
Proof.
  induction w as [|a w IH].
  - change ("" +:+ String slash s) with (String slash s).
    destruct s as [|b rest]; [reflexivity|]. rewrite has_dotdot_cons2. reflexivity.
  - destruct w as [|b w'].
    + change (String a "" +:+ String slash s) with (String a (String slash s)).
      rewrite has_dotdot_cons2.
      change (String slash s) with ("" +:+ String slash s). rewrite IH.
      change (Ascii.eqb slash dot) with false. now rewrite andb_false_r.
    + change (String a (String b w') +:+ String slash s)
        with (String a (String b (w' +:+ String slash s))).
      rewrite has_dotdot_cons2.
      change (String b (w' +:+ String slash s)) with (String b w' +:+ String slash s).
      rewrite IH, has_dotdot_cons2. now rewrite orb_assoc.
Qed.

Lemma has_dotdot_join (l : list string) :
  Forall (fun w => has_dotdot w = false) l -> has_dotdot (join_slash l) = false.
Proof.
  induction l as [|w l IH]; [reflexivity|]. intros H.
  apply Forall_cons in H as [Hw Hl].
  destruct l as [|w' l]; [exact Hw|].
  change (join_slash (w :: w' :: l)) with (w +:+ String slash (join_slash (w' :: l))).
  now rewrite has_dotdot_app_slash, Hw, (IH Hl).
Qed.

Lemma starts_with_slash_join (l : list string) :
  Forall (fun w => has_slash w = false) l ->
  Forall (fun w => is_component w = true) l ->
  starts_with slash (join_slash l) = false.
Proof.
  destruct l as [|w l]; [reflexivity|]. intros Hs Hc.
  apply Forall_cons in Hs as [Hs _]. apply Forall_cons in Hc as [Hc _].
  destruct w as [|a w']; [discriminate|].
  cbn [has_slash] in Hs. apply orb_false_elim in Hs as [Ha _].
  destruct l; cbn [join_slash]; [exact Ha|].
  change (String a w' +:+ "/" +:+ join_slash (s :: l))
    with (String a (w' +:+ "/" +:+ join_slash (s :: l))).
  exact Ha.
Qed.

Lemma filter_components (l : list string) :
  Forall (fun w => is_component w = true) l ->
  filter (fun w => is_component w = true) l = l.
Proof.
  induction l as [|w l IH]; [reflexivity|]. intros H.
  apply Forall_cons in H as [Hw Hl].
  rewrite filter_cons, decide_True by exact Hw. now rewrite (IH Hl).
Qed.

(** The path parsed from the joined components is again these
    components. *)
Lemma parse_join_slash (l : list string) :
  Forall (fun w => has_slash w = false) l ->
  Forall (fun w => is_component w = true) l ->
  parts (parse_path (join_slash l)) = l.
Proof.
  intros Hs Hc. cbn [parse_path parts].
  destruct l as [|w l]; [reflexivity|].
  rewrite split_join_slash by (auto; discriminate).
  now apply filter_components.
Qed.

Section ListedNames.

Variable script_dir : list string.
Variable mkdir_depth : nat.

Local Abbreviation root := (SANDBOX_ROOT script_dir).
Local Abbreviation resolve := (sandbox_path script_dir).
Local Abbreviation read_file := (tool_read_file script_dir).
Local Abbreviation key_of path := (fs_key (sandbox_path script_dir path)).

Lemma resolved_suffix_forall (P : string -> Prop) (path : string) :
  Forall P (parts (parse_path (remove_dotdot path))) ->
  Forall P (drop (length (fs_key root)) (key_of path)).
Proof.
  intros H. unfold sandbox_path, joinpath.
  destruct (String.eqb (anchor (parse_path (remove_dotdot path))) "").
  - cbn [fs_key parts]. now rewrite drop_app_length.
  - now apply Forall_drop.
Qed.

Lemma parsed_components (s : string) :
  Forall (fun w => is_component w = true) (parts (parse_path s)).
Proof.
  cbn [parse_path parts]. apply Forall_forall. intros w Hw.
  now apply list_elem_of_filter in Hw as [Hw _].
Qed.

Lemma parsed_no_dotdot (s : string) :
  has_dotdot s = false ->
  Forall (fun w => has_dotdot w = false) (parts (parse_path s)).
Proof.
  intros Hs. cbn [parse_path parts]. apply Forall_forall. intros w Hw.
  apply list_elem_of_filter in Hw as [_ Hw]. revert w Hw.
  apply Forall_forall, split_slash_no_dotdot, Hs.
Qed.

(** X18.  The name under which [list_files] reports a file is itself a
    path to that file: for a caller path that resolves under the root,
    resolving its listed name gives the same location, so reading through
    the listed name returns what is stored there. *)
Theorem listed_name_reads_back (path : string) (fs : filesystem) (c : string) :
  is_relative_to (resolve path) root = true ->
  fs !! key_of path = Some (File c) ->
  key_of (listed_name script_dir path) = key_of path /\
  read_file (read_request (listed_name script_dir path)) fs
  = (Return (read_answer (universal_newlines c)), fs).
Proof.
  intros Hrel Hl.
  destruct (is_relative_to_prefix _ _ Hrel) as [_ Hp].
  set (l := drop (length (fs_key root)) (key_of path)).
  assert (Hs : Forall (fun w => has_slash w = false) l)
    by apply resolved_suffix_clean.
  assert (Hc : Forall (fun w => is_component w = true) l)
    by apply resolved_suffix_forall, parsed_components.
  assert (Hd : Forall (fun w => has_dotdot w = false) l)
    by apply resolved_suffix_forall, parsed_no_dotdot, remove_dotdot_clean.
  assert (Hfix : remove_dotdot (join_slash l) = join_slash l)
    by apply remove_dotdot_fixed, has_dotdot_join, Hd.
  assert (Hkey : key_of (listed_name script_dir path) = key_of path).
  { unfold listed_name. fold l.
    destruct (sandbox_path_confined script_dir (join_slash l)) as [E _].
    { rewrite Hfix. now apply starts_with_slash_join. }
    rewrite E. cbn [fs_key parts]. rewrite Hfix, (parse_join_slash l Hs Hc).
    symmetry. apply is_prefix_drop, Hp. }
  split; [exact Hkey|].
  apply read_file_stored; rewrite Hkey; [|exact Hl].
  intros E. apply is_prefix_drop in Hp. rewrite E in Hp.
  symmetry in Hp. apply app_nil in Hp as [Hp _].
  unfold SANDBOX_ROOT, joinpath in Hp. cbn in Hp.
  now apply app_nil in Hp as [_ [=]].
Qed.

End ListedNames.

(** * The further properties at concrete inputs *)

Lemma well_formed_fs0 : well_formed Demo.fs0.
Proof.
  intros k n H. unfold Demo.fs0 in H.
  repeat (apply lookup_insert_Some in H as [[<- _] | [_ H]];
          [vm_compute; reflexivity|]).
  now rewrite lookup_empty in H.
Qed.

(** A script reaches the standard output of the process and the file
    system: its text stands on the channel before the response, and the
    file it opened is in the sandbox, unknown to [write_file]. *)
Lemma script_reaches_channel_and_files :
  let code := "json.codecs.sys.__stdout__.write('hello')" +:+ nl +:+
              "json.codecs.open('/srv/lab/sandbox/pwn.txt', 'w').write('x')" in
  let out := Demo.step (call_request (PInt 1) "run_python" (PDict [("code", PStr code)]))
                       Demo.w0 in
  fst out = Returns /\
  sent (snd out)
  = [Written "hello";
     Sent (response (PInt 1) "result"
             (PDict [("stdout", PStr ""); ("stderr", PStr ""); ("result", PNone)]))] /\
  files (snd out) !! ["srv"; "lab"; "sandbox"; "pwn.txt"] = Some (File "x").
Proof. repeat split; vm_compute; reflexivity. Qed.

Lemma listed_tools_are_the_registry_witness :
  Demo.step (request (PInt 4) "tools/list" (PDict [])) Demo.w0
  = (Returns,
     push Demo.w0
       (response (PInt 4) "result"
          (PDict [("tools", PList (tool_descriptor <$> Demo.registry.*1))]))) /\
  length Demo.registry.*1 = 10%nat.
Proof.
  destruct (listed_tools_are_the_registry
              Demo.script_dir Demo.mkdir_depth MiniPy.py_exec
                  MiniPy.collaborator MiniPy.repr_other
              [("jsonrpc", PStr "2.0"); ("id", PInt 4); ("method", PStr "tools/list");
               ("params", PDict [])] "tools/list" Demo.w0)
    as (H1 & H2 & _).
  - reflexivity.
  - left; reflexivity.
  - reflexivity.
  - split; [exact H1 | exact H2].
Defined.

Lemma unknown_method_error_witness :
  Demo.step (request (PInt 5) "shutdown" (PDict [])) Demo.w0
  = (Returns,
     push Demo.w0
       (response (PInt 5) "error" (rpc_error (-32601) "Unknown method: shutdown"))).
Proof.
  refine (proj1 (unknown_method_error
                   Demo.script_dir Demo.mkdir_depth MiniPy.py_exec MiniPy.collaborator
                   MiniPy.repr_other
                   [("jsonrpc", PStr "2.0"); ("id", PInt 5);
                    ("method", PStr "shutdown"); ("params", PDict [])]
                   Demo.w0 _ _)).
  - intros s [= <-]. apply (bool_decide_unpack _). vm_compute. reflexivity.
  - reflexivity.
Defined.

Lemma initialize_is_stateless_witness :
  Demo.step (request (PStr "a") "initialize" (PList [PInt 1])) Demo.w0
  = (Returns, push Demo.w0 (response (PStr "a") "result" initialize_result)).
Proof.
  refine (initialize_is_stateless
            Demo.script_dir Demo.mkdir_depth MiniPy.py_exec
                MiniPy.collaborator MiniPy.repr_other
            [("jsonrpc", PStr "2.0"); ("id", PStr "a"); ("method", PStr "initialize");
             ("params", PList [PInt 1])]
            Demo.w0 _ _).
  - reflexivity.
  - reflexivity.
Defined.


Lemma unreadable_line_is_end_of_input_witness :
  Demo.loop [Message (request (PInt 1) "initialize" (PDict [])); Blank;
             Message (request (PInt 2) "tools/list" (PDict []))] Demo.w0
  = Demo.loop [Message (request (PInt 1) "initialize" (PDict []))] Demo.w0.
Proof.
  refine (unreadable_line_is_end_of_input
            Demo.script_dir Demo.mkdir_depth MiniPy.py_exec
                MiniPy.collaborator MiniPy.repr_other
            [Message (request (PInt 1) "initialize" (PDict []))] Blank
            [Message (request (PInt 2) "tools/list" (PDict []))] Demo.w0 _).
  reflexivity.
Defined.

Lemma unserialisable_result_becomes_error_witness :
  exists message data : string,
    handle_call_tool Demo.script_dir Demo.mkdir_depth MiniPy.py_exec MiniPy.collaborator
      MiniPy.repr_other (PInt 6)
      (PDict [("name", PStr "run_python");
              ("arguments", PDict [("code", PStr "result = math")])])
      Demo.w0
    = (Returns,
       push Demo.w0 (response (PInt 6) "error" (rpc_error_data (-32000) message data))).
Proof.
  refine (unserialisable_result_becomes_error
            Demo.script_dir Demo.mkdir_depth MiniPy.py_exec
                MiniPy.collaborator MiniPy.repr_other
            (PInt 6)
            [("name", PStr "run_python");
             ("arguments", PDict [("code", PStr "result = math")])]
            "run_python" Demo.run_python
            (PDict [("stdout", PStr ""); ("stderr", PStr "");
                    ("result", PObject "math")])
            Demo.w0 Demo.w0 _ _ _ _ _).
  - reflexivity.
  - reflexivity.
  - apply triple_from_parts; [vm_compute; reflexivity| |vm_compute; reflexivity].
    change (default (PDict []) _) with (PDict [("code", PStr "result = math")]).
    unfold Demo.run_python. rewrite tool_run_python_code.
    rewrite run_sandboxed_python_world. apply script_world_quiet; reflexivity.
  - reflexivity.
  - reflexivity.
Defined.

(** X9, for the script that closes its stderr and then divides by zero:
    no result object, but an error response. *)
Lemma closed_buffer_becomes_tool_error_witness :
  let code := "json.codecs.sys.stderr.close()" +:+ nl +:+ "1//0" in
  fst (fst (run_sandboxed_python MiniPy.py_exec code Demo.w0)) = Raise closed_file /\
  exists data : string,
    Demo.step (call_request (PInt 1) "run_python" (PDict [("code", PStr code)])) Demo.w0
    = (Returns,
       push Demo.w0
         (response (PInt 1) "error"
            (rpc_error_data (-32000) "Tool error: I/O operation on closed file" data))).
Proof.
  intros code.
  assert (E : script_world MiniPy.py_exec code Demo.w0 = Demo.w0)
    by (apply script_world_quiet; reflexivity).
  destruct (closed_buffer_becomes_tool_error
              Demo.script_dir Demo.mkdir_depth MiniPy.py_exec
                  MiniPy.collaborator MiniPy.repr_other
              (PInt 1) code Demo.w0) as (H1 & data & H2).
  - intros e He.
    assert (He' : Some e = Some (Demo.division_by_zero 2))
      by (rewrite <- He; vm_compute; reflexivity).
    injection He' as ->. reflexivity.
  - right. vm_compute; reflexivity.
  - vm_compute; reflexivity.
  - reflexivity.
  - rewrite E in H1, H2. split; [now rewrite H1|]. now exists data.
Defined.

Lemma service_keeps_file_system_well_formed_witness :
  well_formed
    (files (snd (Demo.loop
                   [Message (call_request (PInt 1) "write_file"
                               (write_request "a/b.txt" "hello"));
                    Message (call_request (PInt 2) "run_python"
                               (PDict [("code",
                                        PStr "json.codecs.open('/srv/lab/c.txt', 'w').write('x')")]));
                    Message (call_request (PInt 3) "reset_sandbox" (PDict []))]
                   Demo.w0))).
Proof.
  apply (service_keeps_file_system_well_formed
           Demo.script_dir Demo.mkdir_depth MiniPy.py_exec
               MiniPy.collaborator MiniPy.repr_other).
  exact well_formed_fs0.
Defined.

Lemma reset_removes_only_sandbox_files_witness :
  let fs := snd (Demo.write_file (write_request "a/b.txt" "hello") Demo.fs0) in
  is_file fs ["srv"; "lab"; "sandbox"; "a"; "b.txt"] = true /\
  is_file (reset_sandbox_dir Demo.script_dir fs) ["srv"; "lab"; "sandbox"; "a"; "b.txt"]
    = false /\
  is_dir (reset_sandbox_dir Demo.script_dir fs) ["srv"; "lab"; "sandbox"; "a"] = true.
Proof.
  intros fs.
  destruct (reset_removes_only_sandbox_files Demo.script_dir fs) as (_ & H2 & H3).
  split; [vm_compute; reflexivity|]. split.
  - apply H3; vm_compute; reflexivity.
  - rewrite H2. vm_compute; reflexivity.
Defined.


Lemma second_write_replaces_content_witness :
  let fs1 := snd (Demo.write_file (write_request "a/b.txt" "hello") Demo.fs0) in
  let fs2 := <[ ["srv"; "lab"; "sandbox"; "a"; "b.txt"] := File "bye" ]> fs1 in
  let fs3 := <[ ["srv"; "lab"; "sandbox"; "a"; "b.txt"] := File "" ]> fs1 in
  (Demo.write_file (write_request "a/b.txt" "bye") fs1 = (Return ok_true, fs2) /\
   Demo.read_file (read_request "a/b.txt") fs2 = (Return (read_answer "bye"), fs2)) /\
  (Demo.write_file (write_request "a/b.txt" lone_surrogate) fs1
   = (Raise encode_error, fs3) /\
   Demo.read_file (read_request "a/b.txt") fs3 = (Return (read_answer ""), fs3)).
Proof.
  intros fs1 fs2 fs3.
  assert (H1 : Demo.write_file (write_request "a/b.txt" "hello") Demo.fs0
               = (Return ok_true, fs1))
    by (apply pair_from_parts; [vm_compute; reflexivity | reflexivity]).
  split.
  - exact (proj1 (second_write_replaces_content Demo.script_dir Demo.mkdir_depth
      "a/b.txt" "hello" "bye" Demo.fs0 fs1 ok_true
                    well_formed_fs0 H1) eq_refl).
  - exact (proj2 (second_write_replaces_content Demo.script_dir Demo.mkdir_depth
      "a/b.txt" "hello" lone_surrogate Demo.fs0 fs1 ok_true
                    well_formed_fs0 H1) eq_refl).
Defined.


Lemma write_of_non_string_keeps_directories_witness :
  exists fs1 : filesystem,
    Demo.write_file (PDict [("path", PStr "d/x.txt"); ("content", PInt 5)]) Demo.fs0
    = (Raise (ordinary "TypeError" "data must be str, not int"), fs1) /\
    fs1 !! ["srv"; "lab"; "sandbox"; "d"; "x.txt"] = None /\
    is_dir fs1 ["srv"; "lab"; "sandbox"; "d"] = true.
Proof.
  destruct (mkdir_parents_succeeds (rev ["srv"; "lab"; "sandbox"; "d"])
              Demo.mkdir_depth Demo.fs0)
    as [fs1 E].
  { vm_compute; lia. }
  { vm_compute; reflexivity. }
  { apply (proj1 (writable_spec Demo.fs0 ["srv"; "lab"; "sandbox"; "d"; "x.txt"]
                    ltac:(vm_compute; reflexivity))). }
  exists fs1.
  destruct (write_of_non_string_keeps_directories Demo.script_dir Demo.mkdir_depth
      "d/x.txt" (PInt 5) Demo.fs0 fs1) as (H1 & H2 & H3).
  - reflexivity.
  - exact E.
  - discriminate.
  - split; [exact H1|]. split; [|exact H3].
    change (fs1 !! fs_key (sandbox_path Demo.script_dir "d/x.txt") = None).
    rewrite H2. vm_compute; reflexivity.
Defined.


Lemma missing_path_is_reported_witness :
  exists data : string,
    Demo.step (call_request (PInt 9) "write_file" (PDict [("content", PStr "x")]))
              Demo.w0
    = (Returns,
       push Demo.w0
         (response (PInt 9) "error"
            (rpc_error_data (-32000) "Tool error: path must be a string" data))).
Proof.
  refine (missing_path_is_reported
            Demo.script_dir Demo.mkdir_depth MiniPy.py_exec
                MiniPy.collaborator MiniPy.repr_other
            (PInt 9) "write_file" [("content", PStr "x")] Demo.w0 _ _ _).
  - left; reflexivity.
  - reflexivity.
  - reflexivity.
Defined.

Lemma listed_name_reads_back_witness :
  let fs := snd (Demo.write_file (write_request "a/../b.txt" "hello") Demo.fs0) in
  listed_name Demo.script_dir "a/../b.txt" = "a/b.txt" /\
  Demo.read_file (read_request (listed_name Demo.script_dir "a/../b.txt")) fs
  = (Return (read_answer "hello"), fs).
Proof.
  intros fs. split; [reflexivity|].
  refine (proj2 (listed_name_reads_back Demo.script_dir "a/../b.txt" fs "hello" _ _)).
  - reflexivity.
  - vm_compute; reflexivity.
Defined.

(** * Edge cases of the protocol *)

Section Edges.

Variable script_dir : list string.
Variable mkdir_depth : nat.
Variable py_exec : string -> filesystem -> exec_run.
Variable collaborator : string -> pyval -> result pyval.
Variable repr_other : pyval -> string.

Local Abbreviation handle_call :=
  (handle_call_tool script_dir mkdir_depth py_exec collaborator repr_other).
Local Abbreviation step := (dispatch script_dir mkdir_depth py_exec collaborator repr_other).
Local Abbreviation loop := (main_loop script_dir mkdir_depth py_exec collaborator repr_other).
Local Abbreviation registry := (TOOLS script_dir mkdir_depth py_exec collaborator).

(** X19.  A line whose JSON value is no object (an array, a number, a
    string, a boolean) ends the process: [msg.get] raises [AttributeError]
    outside any handler, nothing is written, and the lines after it are
    not read. *)
Theorem non_object_message_ends_process
        (msg : pyval) (rest : list input_line) (w : world) :
  msg <> PNone ->
  (forall items : list (string * pyval), msg <> PDict items) ->
  loop (Message msg :: rest) w
  = (Crashed (attribute_error (type_name msg) "get"), w).
Proof.
  intros Hnn Hnd. rewrite main_loop_step.
  destruct msg as [|b|z|f|s|l|items|o]; try reflexivity; [congruence|].
  now destruct (Hnd items).
Qed.

(** X20.  A [tools/call] request whose params is a truthy value that is
    no object ends the process in the same way: [params.get] raises
    [AttributeError] before the [try] is entered, and nothing is
    written. *)
Theorem non_object_params_end_process
        (id params : pyval) (method : string) (rest : list input_line) (w : world) :
  (method = "tools/call" \/ method = "call_tool") ->
  truthy params = true ->
  (forall d : list (string * pyval), params <> PDict d) ->
  loop (Message (request id method params) :: rest) w
  = (Crashed (attribute_error (type_name params) "get"), w).
Proof.
  intros Hm Ht Hnd. rewrite main_loop_step.
  change (read_message (Some (Message (request id method params))))
    with (Return (Some (request id method params))).
  cbv beta iota.
  rewrite (dispatch_call _ _ _ _ _ _ _ _ _ Hm).
  unfold py_or. rewrite Ht. unfold handle_call_tool.
  destruct params as [|b|z|f|s|l|d|o]; try reflexivity.
  now destruct (Hnd d).
Qed.

(** X21.  A [tools/call] request whose [name] is a list or a dict ends
    the process: the membership test [name not in TOOLS] raises
    [TypeError] (unhashable type) before the [try] is entered, and nothing
    is written. *)
Theorem unhashable_name_ends_process
        (id : pyval) (d : list (string * pyval)) (method : string)
        (rest : list input_line) (w : world) :
  (method = "tools/call" \/ method = "call_tool") ->
  hashable (default PNone (items_get "name" d)) = false ->
  exists e : exn,
    exc_type e = "TypeError" /\
    loop (Message (request id method (PDict d)) :: rest) w = (Crashed e, w).
Proof.
  intros Hm Hh. rewrite main_loop_step.
  change (read_message (Some (Message (request id method (PDict d)))))
    with (Return (Some (request id method (PDict d)))).
  cbv beta iota.
  rewrite (dispatch_call _ _ _ _ _ _ _ _ _ Hm), py_or_dict.
  unfold handle_call_tool. py_simpl.
  destruct (default PNone (items_get "name" d)); try discriminate;
    cbn [tools_lookup]; eexists; (split; [|reflexivity]); reflexivity.
Qed.

(** X22.  [run_python] takes its script from [code] when that is truthy
    and otherwise from [python]: a non-empty string under [code] is run
    whatever [python] holds, and with [code] absent or falsy a string
    under [python] is run. *)
Theorem code_takes_precedence_over_python
        (d : list (string * pyval)) (w : world) :
  let c := default PNone (items_get "code" d) in
  let p := default PNone (items_get "python" d) in
  (forall s : string,
      c = PStr s -> s <> "" ->
      tool_run_python py_exec (PDict d) w = run_sandboxed_python py_exec s w) /\
  (forall s : string,
      truthy c = false -> p = PStr s ->
      tool_run_python py_exec (PDict d) w = run_sandboxed_python py_exec s w).
Proof.
  intros c p. split.
  - intros s Hc Hs. unfold tool_run_python. py_simpl. fold c p. rewrite Hc.
    assert (Ht : truthy (PStr s) = true).
    { cbn [truthy]. destruct (String.eqb_spec s ""); [congruence | reflexivity]. }
    unfold py_or. now rewrite !Ht.
  - intros s Hc Hp. unfold tool_run_python. py_simpl. fold c p.
    unfold py_or. rewrite Hc, Hp.
    destruct (truthy (PStr s)) eqn:Ht; [reflexivity|].
    cbn [truthy] in Ht. destruct (String.eqb_spec s "") as [->|_];
      [reflexivity | discriminate].
Qed.

Lemma dispatch_writes_responses (msg : pyval) (w : world) :
  Forall is_response (messages (sent w)) ->
  Forall is_response (messages (sent (snd (step msg w)))).
Proof.
  intros Hall. destruct msg as [|b|z|f|s|l|items|o]; try exact Hall.
  pose proof (dispatch_answers script_dir mkdir_depth py_exec
      collaborator repr_other items w) as Ha.
  destruct (step (PDict items) w) as [[|e] w1]; cbn [snd].
  - destruct Ha as (texts & field & body & -> & Hr).
    rewrite !messages_app, messages_written. cbn [app messages omap].
    apply Forall_app. split; [exact Hall | now constructor].
  - destruct Ha as (texts & ->).
    now rewrite messages_app, messages_written, app_nil_r.
Qed.

(** X23.  Whatever the input, every message that [send_message] writes
    is a response of one of three shapes: a result, an error with code
    -32601, or an error with code -32000 that carries a data string.  The
    service sends no other error code.  (Text that a script writes to
    standard output is not a message of the service.) *)
Theorem every_output_is_a_response (stdin : list input_line) :
  forall w : world,
    Forall is_response (messages (sent w)) ->
    Forall is_response (messages (sent (snd (loop stdin w)))).
Proof.
  induction stdin as [|line rest IH]; intros w Hall; [exact Hall|].
  rewrite main_loop_step.
  destruct (read_message (Some line)) as [[msg|]|e0]; [|exact Hall|exact Hall].
  pose proof (dispatch_writes_responses msg w Hall) as H.
  destruct (step msg w) as [[|e] w1]; [now apply IH | exact H].
Qed.

End Edges.

Lemma non_object_message_ends_process_witness :
  Demo.loop [Message (PList [PInt 1; PInt 2]);
             Message (request (PInt 1) "initialize" (PDict []))] Demo.w0
  = (Crashed (attribute_error "list" "get"), Demo.w0).
Proof.
  refine (non_object_message_ends_process
            Demo.script_dir Demo.mkdir_depth MiniPy.py_exec
                MiniPy.collaborator MiniPy.repr_other
            (PList [PInt 1; PInt 2])
            [Message (request (PInt 1) "initialize" (PDict []))] Demo.w0 _ _).
  - discriminate.
  - intros items. discriminate.
Defined.

Lemma non_object_params_end_process_witness :
  Demo.loop [Message (request (PInt 1) "tools/call" (PList [PStr "list_files"]))]
            Demo.w0
  = (Crashed (attribute_error "list" "get"), Demo.w0).
Proof.
  refine (non_object_params_end_process
            Demo.script_dir Demo.mkdir_depth MiniPy.py_exec
                MiniPy.collaborator MiniPy.repr_other
            (PInt 1) (PList [PStr "list_files"]) "tools/call" [] Demo.w0 _ _ _).
  - left; reflexivity.
  - reflexivity.
  - intros d. discriminate.
Defined.

Lemma unhashable_name_ends_process_witness :
  exists e : exn,
    exc_type e = "TypeError" /\
    Demo.loop [Message (request (PInt 1) "tools/call" (PDict [("name", PList [])]))]
              Demo.w0
    = (Crashed e, Demo.w0).
Proof.
  refine (unhashable_name_ends_process
            Demo.script_dir Demo.mkdir_depth MiniPy.py_exec
                MiniPy.collaborator MiniPy.repr_other
            (PInt 1) [("name", PList [])] "tools/call" [] Demo.w0 _ _).
  - left; reflexivity.
  - reflexivity.
Defined.

Lemma code_takes_precedence_over_python_witness :
  Demo.run_python (PDict [("code", PInt 0); ("python", PStr "result = 7")]) Demo.w0
  = run_sandboxed_python MiniPy.py_exec "result = 7" Demo.w0.
Proof.
  exact (proj2 (code_takes_precedence_over_python
                  MiniPy.py_exec [("code", PInt 0); ("python", PStr "result = 7")]
                  Demo.w0) "result = 7" eq_refl eq_refl).
Defined.

(** X23, for a run with a script that writes to standard output. *)
Lemma every_output_is_a_response_witness :
  Forall is_response
    (messages
       (sent (snd (Demo.loop
                     [Message (request (PInt 1) "initialize" (PDict []));
                      Message (call_request (PInt 2) "run_python"
                                 (PDict [("code",
                                          PStr "json.codecs.sys.__stdout__.write('hello')")]));
                      Message (call_request (PInt 3) "no_such_tool" (PDict []))]
                     Demo.w0)))).
Proof.
  apply (every_output_is_a_response
           Demo.script_dir Demo.mkdir_depth MiniPy.py_exec
               MiniPy.collaborator MiniPy.repr_other).
  constructor.
Defined.
